(** * bahn.vibe: best-price search, a verified model of
    [app/api/search-prices/route.ts]

    Definitions, in the order of the source file:
    - [JS]: the functions of the JavaScript runtime the code relies on;
    - [RateLimiter]: class [GlobalRateLimiter] as a transition system over
      the turns of the event loop;
    - [Assoc]: insertion-ordered maps (objects and [Map]);
    - the data model ([Zeitpunkt], [Abschnitt], [Raw], [Interval],
      [TrainResult], [LocalDate], [KeyParams]);
    - [ResultCache]: the module-level [cache] with [getCachedResult],
      [setCachedResult] and [cleanupCache];
    - [Prices]: [filterByTime] and [getBestPrice];
    - [Handler]: the id normalization of [searchBahnhof] and the two
      per-day loops of [POST];
    - predicates and concrete inputs used in the statements.

    Then the facts: [AssocFacts], [RateLimiterFacts], [ResultCacheFacts],
    [PricesFacts], [HandlerFacts]. *)

From Stdlib Require Import ZArith List String Ascii Bool Lia FinFun.
From Stdlib Require Import QArith Qround Qminmax DecimalString.
From Stdlib Require Import Sorted.
Import ListNotations.
Open Scope string_scope.
Open Scope Z_scope.

(* ===================================================================== *)
(** ** JavaScript runtime functions used by the source *)
(* ===================================================================== *)

Module JS.

(** [s.includes(sub)] *)
Fixpoint includes (sub s : string) : bool :=
  String.prefix sub s ||
  match s with
  | EmptyString => false
  | String _ rest => includes sub rest
  end.

(** [Math.round]: nearest integer, ties towards plus infinity. *)
Definition Math_round (q : Q) : Z := Qfloor (q + (1 # 2)).

(** A value thrown by a rejected promise: [error instanceof Error] holds for
    [ThrownError] only. *)
Inductive Thrown :=
| ThrownError (message : string)
| ThrownOther (description : string).

(** How a promise settles. *)
Inductive Settled (T : Type) :=
| Fulfilled (value : T)
| Rejected (error : Thrown).
Arguments Fulfilled {T} value.
Arguments Rejected {T} error.

(** Loosely typed request-body fields. [VNumber n] is a Number of integral
    value [n]. *)
Inductive Value :=
| VUndefined
| VNull
| VBool (b : bool)
| VNumber (n : Z)
| VString (s : string).

Definition Value_eq_dec (a b : Value) : {a = b} + {a <> b}.
Proof.
  decide equality; try apply String.string_dec; try apply Z.eq_dec; apply Bool.bool_dec.
Defined.

(** A Number as [Number.parseInt] returns one: NaN, a finite integral value
    or an infinity. *)
Inductive JSNumber :=
| NaN
| Finite (n : Z)
| Infinite (negative : bool).

(** The double nearest to the natural number [a], ties to the even
    mantissa: 53 significant bits. *)
Definition nearestDouble (a : Z) : Z :=
  let e := Z.log2 a - 52 in
  if e <=? 0 then a
  else
    let q := Z.shiftr a e in
    let r := a - Z.shiftl q e in
    let half := Z.shiftl 1 (e - 1) in
    let m := if (half <? r) || ((r =? half) && Z.odd q) then q + 1 else q in
    Z.shiftl m e.

(** The Number for the mathematical integer [n]; beyond the range of the
    doubles it is an infinity. *)
Definition Number_of_integer (n : Z) : JSNumber :=
  let v := nearestDouble (Z.abs n) in
  if 2 ^ 1024 <=? v then Infinite (n <? 0) else Finite (Z.sgn n * v).

(** [JSON.stringify] of a Number that is a property value: [None] is the
    text [null], which stands for NaN and for both infinities. *)
Definition jsonNumber (x : JSNumber) : option Z :=
  match x with
  | Finite n => Some n
  | NaN | Infinite _ => None
  end.

(** The largest power of ten that is at most [a], from [p]. *)
Fixpoint topPower (fuel : nat) (a p : Z) : Z :=
  match fuel with
  | O => p
  | S fuel' => if 10 * p <=? a then topPower fuel' a (10 * p) else p
  end.

(** The first digit of [String(x)] for a Number [x] of integral value
    [a >= 10^21]. Such a Number is printed in exponent notation with the
    fewest digits that read back as [x]: one digit when a one-digit multiple
    of a power of ten lies in the rounding interval of [x], otherwise digits
    that start as the decimal expansion of [a] does. *)
Definition exponentHead (a : Z) : Z :=
  let e := Z.log2 a - 52 in
  let ulp := 2 ^ e in
  let m := a / ulp in
  let below := if m =? 2 ^ 52 then ulp / 4 else ulp / 2 in
  let above := ulp / 2 in
  let readsBack (c : Z) :=
    if Z.even m then (a - below <=? c) && (c <=? a + above)
    else (a - below <? c) && (c <? a + above) in
  let p := topPower (Z.to_nat (Z.log2 a)) a 1 in
  let lead := a / p in
  if readsBack (lead * p) then lead
  else if readsBack ((lead + 1) * p) then (if lead =? 9 then 1 else lead + 1)
  else lead.

(** Truthiness as used by [||] and [!]. *)
Definition truthy (v : Value) : bool :=
  match v with
  | VUndefined | VNull => false
  | VBool b => b
  | VNumber n => negb (n =? 0)
  | VString s => negb (String.eqb s "")
  end.

(** [a || b] on values. *)
Definition or_else (a b : Value) : Value := if truthy a then a else b.

(** [v === true] *)
Definition is_true (v : Value) : bool :=
  match v with VBool true => true | _ => false end.

(** [v === "lit"] *)
Definition is_string (lit : string) (v : Value) : bool :=
  match v with VString s => String.eqb s lit | _ => false end.

End JS.

(* ===================================================================== *)
(** ** GlobalRateLimiter *)
(* ===================================================================== *)

Module RateLimiter.
Import JS.

(** [QueuedRequest]. The closures [execute], [resolve] and [reject] are not
    data: the settlement of [execute()] arrives as an event, and calls of
    [resolve]/[reject] are recorded in [settledLog]. *)
Record QueuedRequest := {
  id : string;
  timestamp : Z
}.

(** The private fields of the class. [processingTimer] holds the time at
    which the pending [setTimeout] is due. *)
Record Fields := {
  queue : list QueuedRequest;
  lastApiCallStart : Z;
  minInterval : Z;
  activeRequests : Z;
  rateLimitHits : Z;
  lastRateLimitTime : Z;
  successfulRequests : Z;
  processingTimer : option Z
}.

Definition maxConcurrentRequests : Z := 1.
Definition baseInterval : Z := 1000.
Definition maxInterval : Z := 10000.
Definition maxRetries : Z := 3.

(** The limiter together with what the event loop holds for it:
    - [inFlight]: the suspended calls [executeRequestWithRetry(request, retryCount)]
      waiting at [await request.execute()];
    - [retryTimers]: the pending re-queue timeouts (due time, request);
    - [settledLog]: every [request.resolve]/[request.reject] performed;
    - [pushLog], [startLog]: history of [queue.push] and [queue.shift]. *)
Record World := {
  fields : Fields;
  inFlight : list (QueuedRequest * Z);
  retryTimers : list (Z * QueuedRequest);
  settledLog : list (QueuedRequest * Settled string);
  pushLog : list QueuedRequest;
  startLog : list QueuedRequest
}.

Definition initialFields : Fields :=
  {| queue := []; lastApiCallStart := 0; minInterval := 1000; activeRequests := 0;
     rateLimitHits := 0; lastRateLimitTime := 0; successfulRequests := 0;
     processingTimer := None |}.

Definition initialWorld : World :=
  {| fields := initialFields; inFlight := []; retryTimers := []; settledLog := [];
     pushLog := []; startLog := [] |}.

Definition with_fields (w : World) (f : Fields) : World :=
  {| fields := f; inFlight := inFlight w; retryTimers := retryTimers w;
     settledLog := settledLog w; pushLog := pushLog w; startLog := startLog w |}.

(** [this.queue.push(request)] *)
Definition push (r : QueuedRequest) (w : World) : World :=
  let f := fields w in
  {| fields := {| queue := queue f ++ [r]; lastApiCallStart := lastApiCallStart f;
                  minInterval := minInterval f; activeRequests := activeRequests f;
                  rateLimitHits := rateLimitHits f; lastRateLimitTime := lastRateLimitTime f;
                  successfulRequests := successfulRequests f;
                  processingTimer := processingTimer f |};
     inFlight := inFlight w; retryTimers := retryTimers w; settledLog := settledLog w;
     pushLog := pushLog w ++ [r]; startLog := startLog w |}.

(** Assignment to [this.processingTimer]. *)
Definition setTimer (t : option Z) (w : World) : World :=
  let f := fields w in
  with_fields w
    {| queue := queue f; lastApiCallStart := lastApiCallStart f;
       minInterval := minInterval f; activeRequests := activeRequests f;
       rateLimitHits := rateLimitHits f; lastRateLimitTime := lastRateLimitTime f;
       successfulRequests := successfulRequests f; processingTimer := t |}.

Definition scheduleNextProcessing (now : Z) (w : World) : World :=
  let f := fields w in
  match processingTimer f, queue f with
  | Some _, _ => w
  | None, [] => w
  | None, _ :: _ =>
      if activeRequests f >=? maxConcurrentRequests then w
      else
        let timeSinceLastStart := now - lastApiCallStart f in
        let delay := Z.max 0 (minInterval f - timeSinceLastStart) in
        setTimer (Some (now + delay)) w
  end.

(** [processNextRequest], up to the point where [executeRequestWithRetry(request)]
    is suspended at its [await]; it is called with one argument, so the
    parameter [retryCount] takes its default [0]. *)
Definition processNextRequest (now : Z) (w : World) : World :=
  let f := fields w in
  match queue f with
  | [] => w
  | request :: rest =>
      if activeRequests f >=? maxConcurrentRequests then w
      else
        let w1 :=
          {| fields := {| queue := rest; lastApiCallStart := now;
                          minInterval := minInterval f;
                          activeRequests := activeRequests f + 1;
                          rateLimitHits := rateLimitHits f;
                          lastRateLimitTime := lastRateLimitTime f;
                          successfulRequests := successfulRequests f;
                          processingTimer := processingTimer f |};
             inFlight := inFlight w ++ [(request, 0)];
             retryTimers := retryTimers w; settledLog := settledLog w;
             pushLog := pushLog w; startLog := startLog w ++ [request] |} in
        scheduleNextProcessing now w1
  end.

Definition onRateLimitHit (now : Z) (f : Fields) : Fields :=
  let newInterval := Qmin (inject_Z (minInterval f) * (3 # 2)) (inject_Z maxInterval) in
  {| queue := queue f; lastApiCallStart := lastApiCallStart f;
     minInterval := Math_round newInterval;
     activeRequests := activeRequests f;
     rateLimitHits := rateLimitHits f + 1;
     lastRateLimitTime := now;
     successfulRequests := 0;
     processingTimer := processingTimer f |}.

Definition onRequestSuccess (f : Fields) : Fields :=
  let successes := successfulRequests f + 1 in
  let unchanged :=
    {| queue := queue f; lastApiCallStart := lastApiCallStart f;
       minInterval := minInterval f; activeRequests := activeRequests f;
       rateLimitHits := rateLimitHits f; lastRateLimitTime := lastRateLimitTime f;
       successfulRequests := successes; processingTimer := processingTimer f |} in
  if (successes >=? 3) && (minInterval f >? baseInterval) then
    let newInterval := Qmax (inject_Z (minInterval f) * (3 # 4)) (inject_Z baseInterval) in
    if Qlt_le_dec newInterval (inject_Z (minInterval f)) then
      {| queue := queue f; lastApiCallStart := lastApiCallStart f;
         minInterval := Math_round newInterval; activeRequests := activeRequests f;
         rateLimitHits := rateLimitHits f; lastRateLimitTime := lastRateLimitTime f;
         successfulRequests := 0; processingTimer := processingTimer f |}
    else unchanged
  else unchanged.

(** [Math.min(2000 * Math.pow(2, retryCount), 8000)] *)
Definition calculateRetryDelay (retryCount : Z) : Z :=
  Z.min (2000 * 2 ^ retryCount) 8000.

Definition isRateLimitError (error : Thrown) : bool :=
  match error with
  | ThrownError message => includes "429" message || includes "Too Many Requests" message
  | ThrownOther _ => false
  end.

(** The object returned by [getQueueStatus]. *)
Module QueueStatus.
Record t := {
  queueSize : Z;
  activeRequests : Z;
  lastApiCall : Z;
  currentInterval : Z
}.
End QueueStatus.

Definition getQueueStatus (f : Fields) : QueueStatus.t :=
  {| QueueStatus.queueSize := Z.of_nat (List.length (queue f));
     QueueStatus.activeRequests := activeRequests f;
     QueueStatus.lastApiCall := lastApiCallStart f;
     QueueStatus.currentInterval := minInterval f |}.

(** The [finally] callback registered by [processNextRequest]. *)
Definition finallyCallback (now : Z) (w : World) : World :=
  let f := fields w in
  scheduleNextProcessing now
    (with_fields w
       {| queue := queue f; lastApiCallStart := lastApiCallStart f;
          minInterval := minInterval f; activeRequests := activeRequests f - 1;
          rateLimitHits := rateLimitHits f; lastRateLimitTime := lastRateLimitTime f;
          successfulRequests := successfulRequests f;
          processingTimer := processingTimer f |}).

Definition settle (request : QueuedRequest) (o : Settled string) (w : World) : World :=
  {| fields := fields w; inFlight := inFlight w; retryTimers := retryTimers w;
     settledLog := settledLog w ++ [(request, o)];
     pushLog := pushLog w; startLog := startLog w |}.

Definition addRetryTimer (due : Z) (request : QueuedRequest) (w : World) : World :=
  {| fields := fields w; inFlight := inFlight w;
     retryTimers := retryTimers w ++ [(due, request)];
     settledLog := settledLog w; pushLog := pushLog w; startLog := startLog w |}.

(** [executeRequestWithRetry] from the point where [await request.execute()]
    settles with [o], for a call already removed from [inFlight]. *)
Definition executeRequestWithRetry
    (now : Z) (request : QueuedRequest) (retryCount : Z) (o : Settled string)
    (w : World) : World :=
  match o with
  | Fulfilled result =>
      settle request (Fulfilled result) (with_fields w (onRequestSuccess (fields w)))
  | Rejected error =>
      if isRateLimitError error then
        let w1 := with_fields w (onRateLimitHit now (fields w)) in
        if retryCount <? maxRetries then
          let retryDelay := calculateRetryDelay retryCount in
          addRetryTimer (now + retryDelay) request w1
        else settle request (Rejected error) w1
      else settle request (Rejected error) w
  end.

(** Removal of the [n]-th element, with the element. *)
Fixpoint take_nth {A : Type} (n : nat) (l : list A) {struct l} : option (A * list A) :=
  match l, n with
  | [], _ => None
  | x :: rest, O => Some (x, rest)
  | x :: rest, S n' =>
      match take_nth n' rest with
      | Some (y, rest') => Some (y, x :: rest')
      | None => None
      end
  end.

(** What can happen to the limiter; [now] is the value of [Date.now()]. *)
Inductive Event :=
| AddToQueue (now : Z) (requestId : string)
| ProcessingTimerFires (now : Z)
| ExecuteSettles (now : Z) (which : nat) (o : Settled string)
| RetryTimerFires (now : Z) (which : nat).

(** One turn of the event loop; [None] when the event cannot occur. *)
Definition step (w : World) (e : Event) : option World :=
  match e with
  | AddToQueue now requestId =>
      Some (scheduleNextProcessing now (push {| id := requestId; timestamp := now |} w))
  | ProcessingTimerFires now =>
      match processingTimer (fields w) with
      | Some due =>
          if due <=? now then Some (processNextRequest now (setTimer None w)) else None
      | None => None
      end
  | ExecuteSettles now which o =>
      match take_nth which (inFlight w) with
      | Some ((request, retryCount), others) =>
          let w0 :=
            {| fields := fields w; inFlight := others; retryTimers := retryTimers w;
               settledLog := settledLog w; pushLog := pushLog w; startLog := startLog w |} in
          Some (finallyCallback now (executeRequestWithRetry now request retryCount o w0))
      | None => None
      end
  | RetryTimerFires now which =>
      match take_nth which (retryTimers w) with
      | Some ((due, request), others) =>
          if due <=? now then
            let retryRequest := {| id := id request; timestamp := now |} in
            let w0 :=
              {| fields := fields w; inFlight := inFlight w; retryTimers := others;
                 settledLog := settledLog w; pushLog := pushLog w; startLog := startLog w |} in
            Some (scheduleNextProcessing now (push retryRequest w0))
          else None
      | None => None
      end
  end.

(** Running a whole trace of events. *)
Fixpoint run (w : World) (es : list Event) : option World :=
  match es with
  | [] => Some w
  | e :: rest =>
      match step w e with
      | Some w' => run w' rest
      | None => None
      end
  end.

Inductive reachable : World -> Prop :=
| reachable_init : reachable initialWorld
| reachable_step : forall w e w', reachable w -> step w e = Some w' -> reachable w'.

End RateLimiter.

(* ===================================================================== *)
(** ** Insertion-ordered maps: JavaScript objects and [Map] *)
(* ===================================================================== *)

(** Both a [Map] and a plain object keep their entries in insertion order;
    writing an existing key replaces the value and keeps the position. *)
Module Assoc.
Section Assoc.
Context {K V : Type} (K_eq_dec : forall a b : K, {a = b} + {a <> b}).

Fixpoint get (k : K) (m : list (K * V)) : option V :=
  match m with
  | [] => None
  | (k', v) :: rest => if K_eq_dec k' k then Some v else get k rest
  end.

Fixpoint set (k : K) (v : V) (m : list (K * V)) : list (K * V) :=
  match m with
  | [] => [(k, v)]
  | (k', v') :: rest =>
      if K_eq_dec k' k then (k, v) :: rest else (k', v') :: set k v rest
  end.

Fixpoint delete (k : K) (m : list (K * V)) : list (K * V) :=
  match m with
  | [] => []
  | (k', v') :: rest =>
      if K_eq_dec k' k then rest else (k', v') :: delete k rest
  end.

Definition keys (m : list (K * V)) : list K := map fst m.
Definition values (m : list (K * V)) : list V := map snd m.

(** [Object.assign(target, source)] *)
Definition assign (target source : list (K * V)) : list (K * V) :=
  fold_left (fun acc kv => set (fst kv) (snd kv) acc) source target.
End Assoc.
End Assoc.

(* ===================================================================== *)
(** ** Data model *)
(* ===================================================================== *)

(** A timestamp string of the upstream response together with what the
    code reads off [new Date(iso)]: [getTime()], [getDate()], [getHours()],
    [getMinutes()] and the rendering
    [toLocaleString("de-DE", { day: "2-digit", ... })]. *)
Module Zeitpunkt.
Record t := {
  iso : string;
  getTime : Z;
  getDate : Z;
  getHours : Z;
  getMinutes : Z;
  toLocaleString : string
}.
End Zeitpunkt.

(** A time of day as the text [HH:MM] of a filter or of a padded clock time. *)
Module TimeOfDay.
Record t := { hh : Z; mm : Z }.
End TimeOfDay.

(** One element of [verbindungsAbschnitte]. *)
Module Abschnitt.
Record t := {
  abfahrtsZeitpunkt : Zeitpunkt.t;
  ankunftsZeitpunkt : Zeitpunkt.t;
  abfahrtsOrt : string;
  ankunftsOrt : string
}.
End Abschnitt.

(** One element of [data.intervalle] as the code inspects it:
    - [preis] is [iv.preis.betrag] when [iv.preis] is an object with [betrag];
    - [verbindungsAbschnitte] is
      [iv.verbindungen[0].verbindung.verbindungsAbschnitte] when every link of
      that chain is present;
    - [umstiegsAnzahl] is [iv.verbindungen[0].verbindung.umstiegsAnzahl]. *)
Module Raw.
Record t := {
  preis : option Z;
  verbindungsAbschnitte : option (list Abschnitt.t);
  umstiegsAnzahl : option Z
}.
End Raw.

(** One element of [allIntervals]. *)
Module Interval.
Record t := {
  preis : Z;
  abfahrtsZeitpunkt : Zeitpunkt.t;
  ankunftsZeitpunkt : Zeitpunkt.t;
  abfahrtsOrt : string;
  ankunftsOrt : string;
  info : string;
  umstiegsAnzahl : Z
}.
End Interval.

(** [TrainResult]; the two timestamps are strings, [""] when absent. *)
Module TrainResult.
Record t := {
  preis : Z;
  info : string;
  abfahrtsZeitpunkt : string;
  ankunftsZeitpunkt : string;
  allIntervals : option (list Interval.t)
}.
End TrainResult.

(** The text [YYYY-MM-DD] produced by [formatDateKey], as its three numbers. *)
Definition DateKey : Type := (Z * Z * Z)%type.

Definition DateKey_eq_dec (a b : DateKey) : {a = b} + {a <> b}.
Proof. repeat decide equality. Defined.

(** [TrainResults]: an object keyed by date. *)
Definition TrainResults : Type := list (DateKey * TrainResult.t).

(** A local calendar day held in a [Date] object: [getFullYear()],
    [getMonth()] (0-based) and [getDate()]. *)
Module LocalDate.
Record t := {
  getFullYear : Z;
  getMonth : Z;
  getDate : Z
}.

Definition isLeapYear (y : Z) : bool :=
  ((y mod 4 =? 0) && negb (y mod 100 =? 0)) || (y mod 400 =? 0).

Definition daysInMonth (y m : Z) : Z :=
  if m =? 1 then (if isLeapYear y then 29 else 28)
  else if (m =? 3) || (m =? 5) || (m =? 8) || (m =? 10) then 30
  else 31.

(** [date.setDate(dayOfMonth)] on a date in month [m] of year [y]: the day
    [dayOfMonth - 1] days after the first of that month, found by carrying
    whole months; [months] bounds the number of months carried. *)
Fixpoint setDate_from (months : nat) (y m dayOfMonth : Z) : t :=
  match months with
  | O => {| getFullYear := y; getMonth := m; getDate := dayOfMonth |}
  | S months' =>
      if dayOfMonth <? 1 then
        let (y', m') := if 0 <? m then (y, m - 1) else (y - 1, 11) in
        setDate_from months' y' m' (dayOfMonth + daysInMonth y' m')
      else if daysInMonth y m <? dayOfMonth then
        let (y', m') := if m <? 11 then (y, m + 1) else (y + 1, 0) in
        setDate_from months' y' m' (dayOfMonth - daysInMonth y m)
      else {| getFullYear := y; getMonth := m; getDate := dayOfMonth |}
  end.

Definition setDate (d : t) (dayOfMonth : Z) : t :=
  setDate_from (S (Z.to_nat (Z.abs dayOfMonth))) (getFullYear d) (getMonth d) dayOfMonth.

(** [date.setDate(date.getDate() + 1)], the step of the second loop. *)
Definition nextDay (d : t) : t := setDate d (getDate d + 1).

(** [date.setDate(date.getDate() + n)], the jump of the first loop. *)
Definition addDays (n : nat) (d : t) : t := setDate d (getDate d + Z.of_nat n).

(** What a [Date] object can hold. *)
Definition valid (d : t) : Prop :=
  0 <= getMonth d <= 11 /\ 1 <= getDate d <= daysInMonth (getFullYear d) (getMonth d).
End LocalDate.

Definition formatDateKey (date : LocalDate.t) : DateKey :=
  (LocalDate.getFullYear date, LocalDate.getMonth date + 1, LocalDate.getDate date).

(* ===================================================================== *)
(** ** The result cache *)
(* ===================================================================== *)

(** The argument object of [generateCacheKey]. *)
Module KeyParams.
Import JS.
Record t := {
  startStationId : string;
  zielStationId : string;
  date : DateKey;
  alter : Value;
  ermaessigungArt : Value;
  ermaessigungKlasse : Value;
  klasse : Value;
  maximaleUmstiege : option Z;   (* a number; [None] renders as [null]: NaN, an infinity *)
  schnelleVerbindungen : bool;
  nurDeutschlandTicketVerbindungen : bool;
  abfahrtAb : option TimeOfDay.t;   (* optional property, absent when [None] *)
  ankunftBis : option TimeOfDay.t   (* optional property, absent when [None] *)
}.

Definition eq_dec (a b : t) : {a = b} + {a <> b}.
Proof.
  decide equality;
    try apply Bool.bool_dec; try apply Value_eq_dec; try apply String.string_dec;
    try apply DateKey_eq_dec;
    repeat decide equality.
Defined.
End KeyParams.

Module ResultCache.

(** [JSON.stringify(params)] is a one-to-one rendering of the argument
    object (fixed property order, values rendered by type), so the key is
    identified with the object it renders. *)
Definition CacheKey : Type := KeyParams.t.

Definition generateCacheKey (params : KeyParams.t) : CacheKey := params.

Record CacheEntry := {
  data : option TrainResults;   (* [TrainResults | null] *)
  timestamp : Z;
  ttl : Z
}.

(** [const cache = new Map<string, CacheEntry>()] *)
Definition Cache : Type := list (CacheKey * CacheEntry).

Definition CACHE_TTL : Z := 60 * 60 * 1000.
Definition MAX_CACHE_ENTRIES : Z := 100000.

Definition size (cache : Cache) : Z := Z.of_nat (List.length cache).
Definition get (cacheKey : CacheKey) (cache : Cache) : option CacheEntry :=
  Assoc.get KeyParams.eq_dec cacheKey cache.
Definition set (cacheKey : CacheKey) (entry : CacheEntry) (cache : Cache) : Cache :=
  Assoc.set KeyParams.eq_dec cacheKey entry cache.
Definition delete (cacheKey : CacheKey) (cache : Cache) : Cache :=
  Assoc.delete KeyParams.eq_dec cacheKey cache.

(** Returns the data and the cache, from which an expired entry is deleted. *)
Definition getCachedResult (now : Z) (cacheKey : CacheKey) (cache : Cache)
  : option TrainResults * Cache :=
  match get cacheKey cache with
  | None => (None, cache)
  | Some entry =>
      let age := now - timestamp entry in
      if age >? ttl entry then (None, delete cacheKey cache)
      else (data entry, cache)
  end.

Definition setCachedResult
    (now : Z) (cacheKey : CacheKey) (data : option TrainResults) (cache : Cache) : Cache :=
  let cache1 :=
    if size cache >=? MAX_CACHE_ENTRIES then
      match Assoc.keys cache with
      | oldestKey :: _ => delete oldestKey cache
      | [] => cache
      end
    else cache in
  set cacheKey {| data := data; timestamp := now; ttl := CACHE_TTL |} cache1.

Definition cleanupCache (now : Z) (cache : Cache) : Cache :=
  filter (fun kv => negb (now - timestamp (snd kv) >? ttl (snd kv))) cache.

(** A sequence of [setCachedResult] calls, each with its own [Date.now()]. *)
Definition SetCall : Type := (Z * CacheKey * option TrainResults)%type.

Definition setCachedResults (calls : list SetCall) (cache : Cache) : Cache :=
  fold_left (fun c call =>
               match call with (now, cacheKey, data) => setCachedResult now cacheKey data c end)
            calls cache.

End ResultCache.

(* ===================================================================== *)
(** ** Time filter and best price of one day *)
(* ===================================================================== *)

Module Config.
Import JS.
(** The object [POST] hands to [getBestPrice]. *)
Record t := {
  abfahrtsHalt : string;
  ankunftsHalt : string;
  startStationNormalizedId : string;
  zielStationNormalizedId : string;
  anfrageDatum : LocalDate.t;
  alter : Value;
  ermaessigungArt : Value;
  ermaessigungKlasse : Value;
  klasse : Value;
  maximaleUmstiege : option Z;
  schnelleVerbindungen : Value;
  nurDeutschlandTicketVerbindungen : Value;
  abfahrtAb : option TimeOfDay.t;   (* [None]: undefined or [""] *)
  ankunftBis : option TimeOfDay.t
}.
End Config.

Module Prices.
Import JS.

(** [Number.prototype.toString] on an integral number. *)
Definition Number_toString (n : Z) : string :=
  DecimalString.NilZero.string_of_int (Z.to_int n).

Fixpoint drop (n : nat) (s : string) : string :=
  match n, s with
  | O, _ => s
  | S n', String _ rest => drop n' rest
  | S _, EmptyString => EmptyString
  end.

(** [s.replace(pattern, "")] with a string pattern: the first occurrence only. *)
Fixpoint replace_first (pattern s : string) : string :=
  if String.prefix pattern s then drop (String.length pattern) s
  else match s with
       | EmptyString => EmptyString
       | String c rest => String c (replace_first pattern rest)
       end.

(** [Math.min(first, ...rest)] *)
Definition Math_min (first : Z) (rest : list Z) : Z := fold_left Z.min rest first.

(** [array.sort((a, b) => a.preis - b.preis)]: stable, ascending by price. *)
Fixpoint insert_by_preis (x : Interval.t) (l : list Interval.t) : list Interval.t :=
  match l with
  | [] => [x]
  | y :: rest =>
      if Interval.preis x <? Interval.preis y then x :: l
      else y :: insert_by_preis x rest
  end.

Definition sort_by_preis (l : list Interval.t) : list Interval.t :=
  fold_left (fun sorted x => insert_by_preis x sorted) l [].

(** [new Date(`1970-01-0${day}T${HH}:${MM}:00`)] in minutes since
    1970-01-01T00:00; [None] is an invalid date. *)
Definition clockTime (day : Z) (t : TimeOfDay.t) : option Z :=
  let h := TimeOfDay.hh t in
  let m := TimeOfDay.mm t in
  if ((0 <=? h) && (h <=? 23) && (0 <=? m) && (m <=? 59)) || ((h =? 24) && (m =? 0))
  then Some ((day - 1) * 1440 + h * 60 + m)
  else None.

(** [a < b] and [a > b] on [Date] objects; an invalid date compares false. *)
Definition date_lt (a b : option Z) : bool :=
  match a, b with
  | Some x, Some y => x <? y
  | _, _ => false
  end.

Definition date_gt (a b : option Z) : bool := date_lt b a.

(** Hours and minutes of a timestamp, as padded into a clock text. *)
Definition timeOfDay (z : Zeitpunkt.t) : TimeOfDay.t :=
  {| TimeOfDay.hh := Zeitpunkt.getHours z; TimeOfDay.mm := Zeitpunkt.getMinutes z |}.

Definition istNachtverbindung (ersteAbfahrt letzteAnkunft : Zeitpunkt.t) : bool :=
  (Zeitpunkt.getTime letzteAnkunft <? Zeitpunkt.getTime ersteAbfahrt)
  || negb (Zeitpunkt.getDate letzteAnkunft =? Zeitpunkt.getDate ersteAbfahrt).

(** The callback of [intervals.filter] in [filterByTime]. *)
Definition keepInterval
    (abfahrtAb ankunftBis : option TimeOfDay.t) (interval : Raw.t) : bool :=
  match Raw.verbindungsAbschnitte interval with
  | None => true
  | Some [] => true
  | Some ((first :: others) as abschnitte) =>
      let ersteAbfahrt := Abschnitt.abfahrtsZeitpunkt first in
      let letzteAnkunft := Abschnitt.ankunftsZeitpunkt (last abschnitte first) in
      let abfahrtOk :=
        match abfahrtAb with
        | Some ab =>
            let abfahrtFilter := clockTime 1 ab in
            let connectionTime := clockTime 1 (timeOfDay ersteAbfahrt) in
            negb (date_lt connectionTime abfahrtFilter)
        | None => true
        end in
      let ankunftOk :=
        match ankunftBis with
        | Some bis =>
            let ankunftFilter := clockTime 1 bis in
            let connectionTime :=
              if istNachtverbindung ersteAbfahrt letzteAnkunft
              then clockTime 2 (timeOfDay letzteAnkunft)
              else clockTime 1 (timeOfDay letzteAnkunft) in
            negb (date_gt connectionTime ankunftFilter)
        | None => true
        end in
      abfahrtOk && ankunftOk
  end.

Definition filterByTime
    (intervals : list Raw.t) (abfahrtAb ankunftBis : option TimeOfDay.t) : list Raw.t :=
  match abfahrtAb, ankunftBis with
  | None, None => intervals
  | _, _ => filter (keepInterval abfahrtAb ankunftBis) intervals
  end.

(** The parameters from which [getBestPrice] builds its cache key; the time
    filters of [config] are not among them. *)
Definition cacheKeyOf (config : Config.t) : ResultCache.CacheKey :=
  let tag := formatDateKey (Config.anfrageDatum config) in
  ResultCache.generateCacheKey
    {| KeyParams.startStationId := Config.startStationNormalizedId config;
       KeyParams.zielStationId := Config.zielStationNormalizedId config;
       KeyParams.date := tag;
       KeyParams.alter := Config.alter config;
       KeyParams.ermaessigungArt :=
         or_else (Config.ermaessigungArt config) (VString "KEINE_ERMAESSIGUNG");
       KeyParams.ermaessigungKlasse :=
         or_else (Config.ermaessigungKlasse config) (VString "KLASSENLOS");
       KeyParams.klasse := Config.klasse config;
       KeyParams.maximaleUmstiege := Config.maximaleUmstiege config;
       KeyParams.schnelleVerbindungen :=
         is_true (Config.schnelleVerbindungen config)
         || is_string "true" (Config.schnelleVerbindungen config);
       KeyParams.nurDeutschlandTicketVerbindungen :=
         is_true (Config.nurDeutschlandTicketVerbindungen config)
         || is_string "true" (Config.nurDeutschlandTicketVerbindungen config);
       KeyParams.abfahrtAb := None;
       KeyParams.ankunftBis := None |}.

(** What [JSON.parse(responseText)] gives, as far as the code looks:
    - [ParseError]: [JSON.parse] throws;
    - [NoIntervalle]: [!data || !data.intervalle];
    - [Intervalle]: an array of interval records that both loops and the
      filter run through;
    - [LoopThrows]: the first loop throws a [TypeError] with this message,
      before anything is stored: [data.intervalle] is not iterable, an
      element is null, or an element with a price has null for its first or
      last section;
    - [FilterThrows]: both loops run through the elements given, but
      [filterByTime] throws a [TypeError] with this message once a filter is
      set: [data.intervalle] is a non-empty text, or an element that the
      loops pass over has null for the first or last section the filter
      reads. *)
Inductive Parsed :=
| ParseError
| NoIntervalle
| Intervalle (intervalle : list Raw.t)
| LoopThrows (message : string)
| FilterThrows (first : Raw.t) (others : list Raw.t) (message : string).

(** The text the awaited [globalRateLimiter.addToQueue(...)] resolves with. *)
Record ApiResponse := {
  responseText : string;
  parsed : Parsed
}.

Record Outcome := {
  result : TrainResults;
  wasApiCall : bool;
  cache : ResultCache.Cache
}.

(** A result without [allIntervals]. *)
Definition plainResult (tag : DateKey) (info : string) : TrainResults :=
  [(tag, {| TrainResult.preis := 0; TrainResult.info := info;
            TrainResult.abfahrtsZeitpunkt := ""; TrainResult.ankunftsZeitpunkt := "";
            TrainResult.allIntervals := None |})].

Definition noConnectionsResult (tag : DateKey) : TrainResults :=
  [(tag, {| TrainResult.preis := 0;
            TrainResult.info := "Keine Verbindungen im gewählten Zeitraum!";
            TrainResult.abfahrtsZeitpunkt := ""; TrainResult.ankunftsZeitpunkt := "";
            TrainResult.allIntervals := Some [] |})].

(** The element pushed to [allIntervalsForCache] / [allIntervals] for [iv],
    when [iv] has a price and at least one section. *)
Definition toInterval (iv : Raw.t) : option Interval.t :=
  match Raw.preis iv, Raw.verbindungsAbschnitte iv with
  | Some newPreis, Some ((firstConnection :: _) as verbindungsAbschnitte) =>
      let lastConnection := last verbindungsAbschnitte firstConnection in
      let abfahrt := Zeitpunkt.toLocaleString (Abschnitt.abfahrtsZeitpunkt firstConnection) in
      let ankunft := Zeitpunkt.toLocaleString (Abschnitt.ankunftsZeitpunkt lastConnection) in
      let info :=
        (abfahrt ++ " " ++ Abschnitt.abfahrtsOrt firstConnection ++ " -> "
         ++ ankunft ++ " " ++ Abschnitt.ankunftsOrt lastConnection)%string in
      Some {| Interval.preis := newPreis;
              Interval.abfahrtsZeitpunkt := Abschnitt.abfahrtsZeitpunkt firstConnection;
              Interval.ankunftsZeitpunkt := Abschnitt.ankunftsZeitpunkt lastConnection;
              Interval.abfahrtsOrt := Abschnitt.abfahrtsOrt firstConnection;
              Interval.ankunftsOrt := Abschnitt.ankunftsOrt lastConnection;
              Interval.info := info;
              Interval.umstiegsAnzahl :=
                match Raw.umstiegsAnzahl iv with
                | Some n => n      (* [n || 0] is [n], also for [0] *)
                | None => 0
                end |}
  | _, _ => None
  end.

(** The first loop over [data.intervalle]. *)
Definition allIntervalsForCache (intervalle : list Raw.t) : list Interval.t :=
  flat_map (fun iv => match toInterval iv with Some x => [x] | None => [] end) intervalle.

(** The cache entry with all connections, stored before any time filter
    is applied. *)
Definition fullResult (tag : DateKey) (intervalle : list Raw.t) : TrainResults :=
  [(tag,
    {| TrainResult.preis := 0;   (* set later *)
       TrainResult.info := "";
       TrainResult.abfahrtsZeitpunkt := "";
       TrainResult.ankunftsZeitpunkt := "";
       TrainResult.allIntervals :=
         Some (sort_by_preis (allIntervalsForCache intervalle)) |})].

Record BestConnection := {
  best_preis : Z;
  connection : Abschnitt.t;
  best_ankunftsZeitpunkt : Zeitpunkt.t;
  best_info : string
}.

(** The variables of the second loop: [preise], [allIntervals], [bestConnection]. *)
Record LoopState := {
  preise : list (string * Z);
  allIntervals : list Interval.t;
  bestConnection : option BestConnection
}.

Definition loopBody (st : LoopState) (iv : Raw.t) : LoopState :=
  match toInterval iv, Raw.verbindungsAbschnitte iv with
  | Some x, Some (firstConnection :: _) =>
      let newPreis := Interval.preis x in
      let info := Interval.info x in
      {| preise :=
           Assoc.set String.string_dec (info ++ Number_toString newPreis)%string newPreis
             (preise st);
         allIntervals := allIntervals st ++ [x];
         bestConnection :=
           match bestConnection st with
           | Some best =>
               if newPreis <? best_preis best
               then Some {| best_preis := newPreis; connection := firstConnection;
                            best_ankunftsZeitpunkt := Interval.ankunftsZeitpunkt x;
                            best_info := info |}
               else Some best
           | None =>
               Some {| best_preis := newPreis; connection := firstConnection;
                       best_ankunftsZeitpunkt := Interval.ankunftsZeitpunkt x;
                       best_info := info |}
           end |}
  | _, _ => st
  end.

(** The cache-miss path after the full set has been stored: filter, loop,
    cheapest price. *)
Definition freshResult
    (tag : DateKey) (intervalle : list Raw.t) (abfahrtAb ankunftBis : option TimeOfDay.t)
  : TrainResults :=
  match filterByTime intervalle abfahrtAb ankunftBis with
  | [] => noConnectionsResult tag
  | filteredIntervalle =>
      let st :=
        fold_left loopBody filteredIntervalle
          {| preise := []; allIntervals := []; bestConnection := None |} in
      match Assoc.values (preise st) with
      | [] => plainResult tag "Keine gültigen Preise gefunden!"
      | p :: ps =>
          let minPreis := Math_min p ps in
          let infoKey := find (fun kv => snd kv =? minPreis) (preise st) in
          let info :=
            match infoKey with
            | Some (key, _) =>
                if String.eqb key "" then ""
                else replace_first (Number_toString minPreis) key
            | None => ""
            end in
          [(tag,
            {| TrainResult.preis := minPreis;
               TrainResult.info := info;
               TrainResult.abfahrtsZeitpunkt :=
                 match bestConnection st with
                 | Some best => Zeitpunkt.iso (Abschnitt.abfahrtsZeitpunkt (connection best))
                 | None => ""
                 end;
               TrainResult.ankunftsZeitpunkt :=
                 match bestConnection st with
                 | Some best => Zeitpunkt.iso (Abschnitt.ankunftsZeitpunkt (connection best))
                 | None => ""
                 end;
               TrainResult.allIntervals := Some (sort_by_preis (allIntervals st)) |})]
      end
  end.

(** The interval shape rebuilt from a cached element for [filterByTime]. *)
Definition rebuild (interval : Interval.t) : Raw.t :=
  {| Raw.preis := Some (Interval.preis interval);
     Raw.verbindungsAbschnitte :=
       Some [ {| Abschnitt.abfahrtsZeitpunkt := Interval.abfahrtsZeitpunkt interval;
                 Abschnitt.ankunftsZeitpunkt := Interval.ankunftsZeitpunkt interval;
                 Abschnitt.abfahrtsOrt := Interval.abfahrtsOrt interval;
                 Abschnitt.ankunftsOrt := Interval.ankunftsOrt interval |} ];
     Raw.umstiegsAnzahl := None |}.

(** [iv.preis.betrag] of a rebuilt interval (which always has one). *)
Definition betrag (iv : Raw.t) : Z :=
  match Raw.preis iv with Some p => p | None => 0 end.

(** The callback of [filteredIntervals.some] for one cached [interval]. *)
Definition sameTimes (interval : Interval.t) (fi : Raw.t) : bool :=
  match Raw.verbindungsAbschnitte fi with
  | Some (fiConnection :: _) =>
      String.eqb (Zeitpunkt.iso (Interval.abfahrtsZeitpunkt interval))
                 (Zeitpunkt.iso (Abschnitt.abfahrtsZeitpunkt fiConnection))
      && String.eqb (Zeitpunkt.iso (Interval.ankunftsZeitpunkt interval))
                    (Zeitpunkt.iso (Abschnitt.ankunftsZeitpunkt fiConnection))
  | _ => false
  end.

(** The cache-hit path for cached data that carries [allIntervals]. *)
Definition cachedResultFor
    (tag : DateKey) (cachedIntervals : list Interval.t)
    (abfahrtAb ankunftBis : option TimeOfDay.t) : TrainResults :=
  match filterByTime (map rebuild cachedIntervals) abfahrtAb ankunftBis with
  | [] => noConnectionsResult tag
  | (fi :: fis) as filteredIntervals =>
      let minPreis := Math_min (betrag fi) (map betrag fis) in
      let bestInterval :=
        find (fun interval => Interval.preis interval =? minPreis) cachedIntervals in
      let filteredAllIntervals :=
        sort_by_preis
          (filter (fun interval => existsb (sameTimes interval) filteredIntervals)
                  cachedIntervals) in
      [(tag,
        {| TrainResult.preis := minPreis;
           TrainResult.info :=
             match bestInterval with Some b => Interval.info b | None => "" end;
           TrainResult.abfahrtsZeitpunkt :=
             match bestInterval with
             | Some b => Zeitpunkt.iso (Interval.abfahrtsZeitpunkt b)
             | None => ""
             end;
           TrainResult.ankunftsZeitpunkt :=
             match bestInterval with
             | Some b => Zeitpunkt.iso (Interval.ankunftsZeitpunkt b)
             | None => ""
             end;
           TrainResult.allIntervals := Some filteredAllIntervals |})]
  end.

(** The [catch] block of [getBestPrice]: the error placeholder, stored for
    one minute by [cache.set]. *)
Definition caught
    (tag : DateKey) (message : string) (storeTime : Z)
    (cacheKey : ResultCache.CacheKey) (cache1 : ResultCache.Cache) : Outcome :=
  let result := plainResult tag ("Fetch Error: " ++ message) in
  {| result := result; wasApiCall := true;
     cache :=
       ResultCache.set cacheKey
         {| ResultCache.data := Some result; ResultCache.timestamp := storeTime;
            ResultCache.ttl := 60 * 1000 |}
         cache1 |}.

(** The answer to a request from the cached object of its day: the part of
    [getBestPrice] inside [if (cachedResult)]. *)
Definition servedFrom
    (tag : DateKey) (cachedResult : TrainResults)
    (abfahrtAb ankunftBis : option TimeOfDay.t) : TrainResults :=
  match Assoc.get DateKey_eq_dec tag cachedResult with
  | Some {| TrainResult.allIntervals := Some cachedIntervals |} =>
      cachedResultFor tag cachedIntervals abfahrtAb ankunftBis
  | _ => cachedResult
  end.

(** [getBestPrice] up to its first [await]: the answer, when the cache has
    one. *)
Definition answerFromCache
    (config : Config.t) (now : Z) (cache0 : ResultCache.Cache) : option Outcome :=
  let tag := formatDateKey (Config.anfrageDatum config) in
  let (cachedResult, cache1) :=
    ResultCache.getCachedResult now (cacheKeyOf config) cache0 in
  match cachedResult with
  | Some cachedResult =>
      Some {| result :=
                servedFrom tag cachedResult (Config.abfahrtAb config) (Config.ankunftBis config);
              wasApiCall := false; cache := cache1 |}
  | None => None
  end.

(** [getBestPrice]. [now] is [Date.now()] at the cache lookup; [api] is how
    the awaited [addToQueue] promise settles and [storeTime] is [Date.now()]
    when the answer is stored; neither is looked at on a cache hit. *)
Definition getBestPrice
    (config : Config.t) (now : Z) (api : Settled ApiResponse) (storeTime : Z)
    (cache0 : ResultCache.Cache) : Outcome :=
  let tag := formatDateKey (Config.anfrageDatum config) in
  let cacheKey := cacheKeyOf config in
  let (cachedResult, cache1) := ResultCache.getCachedResult now cacheKey cache0 in
  match cachedResult with
  | Some cachedResult =>
      match Assoc.get DateKey_eq_dec tag cachedResult with
      | Some {| TrainResult.allIntervals := Some cachedIntervals |} =>
          {| result :=
               cachedResultFor tag cachedIntervals
                 (Config.abfahrtAb config) (Config.ankunftBis config);
             wasApiCall := false; cache := cache1 |}
      | _ => {| result := cachedResult; wasApiCall := false; cache := cache1 |}
      end
  | None =>
      match api with
      | Fulfilled response =>
          if includes "Preisauskunft nicht möglich" (responseText response) then
            let result := plainResult tag "Kein Bestpreis verfügbar!" in
            {| result := result; wasApiCall := true;
               cache := ResultCache.setCachedResult storeTime cacheKey (Some result) cache1 |}
          else
            match parsed response with
            | ParseError =>
                {| result := plainResult tag "JSON Parse Error"; wasApiCall := true;
                   cache := cache1 |}
            | NoIntervalle =>
                let result := plainResult tag "Keine Intervalle gefunden!" in
                {| result := result; wasApiCall := true;
                   cache := ResultCache.setCachedResult storeTime cacheKey (Some result) cache1 |}
            | Intervalle intervalle =>
                {| result :=
                     freshResult tag intervalle
                       (Config.abfahrtAb config) (Config.ankunftBis config);
                   wasApiCall := true;
                   cache :=
                     ResultCache.setCachedResult storeTime cacheKey
                       (Some (fullResult tag intervalle)) cache1 |}
            | LoopThrows message => caught tag message storeTime cacheKey cache1
            | FilterThrows first others message =>
                let intervalle := first :: others in
                let stored :=
                  ResultCache.setCachedResult storeTime cacheKey
                    (Some (fullResult tag intervalle)) cache1 in
                match Config.abfahrtAb config, Config.ankunftBis config with
                | None, None =>
                    {| result := freshResult tag intervalle None None;
                       wasApiCall := true; cache := stored |}
                | _, _ => caught tag message storeTime cacheKey stored
                end
            end
      | Rejected error =>
          let message :=
            match error with
            | ThrownError message => message
            | ThrownOther _ => "Unknown"
            end in
          let result := plainResult tag ("Fetch Error: " ++ message) in
          {| result := result; wasApiCall := true;
             cache :=
               ResultCache.set cacheKey
                 {| ResultCache.data := Some result; ResultCache.timestamp := storeTime;
                    ResultCache.ttl := 60 * 1000 |}
                 cache1 |}
      end
  end.

End Prices.

(* ===================================================================== *)
(** ** The POST handler *)
(* ===================================================================== *)

Module Body.
Import JS.
(** The request body. [reisezeitraumAb] is held as the local date
    [new Date(jahr, monat - 1, tag)] the handler parses from it. *)
Record t := {
  start : Value;
  ziel : Value;
  reisezeitraumAb : LocalDate.t;
  alter : Value;
  ermaessigungArt : Value;
  ermaessigungKlasse : Value;
  klasse : Value;
  schnelleVerbindungen : Value;
  nurDeutschlandTicketVerbindungen : Value;
  maximaleUmstiege : Value;
  dayLimit : Value;
  abfahrtAb : option TimeOfDay.t;
  ankunftBis : option TimeOfDay.t
}.
End Body.

Module Handler.
Import JS.

(** [\d] *)
Definition isDigit (c : ascii) : bool :=
  let n := nat_of_ascii c in
  (48 <=? n)%nat && (n <=? 57)%nat.

(** The number of digits [s] starts with. *)
Fixpoint countDigits (s : string) : nat :=
  match s with
  | String c rest => if isDigit c then S (countDigits rest) else O
  | EmptyString => O
  end.

(** The length of the match of [/@p=\d+@/] at the start of [s], when there
    is one. *)
Definition matchTimestamp (s : string) : option nat :=
  if String.prefix "@p=" s then
    let rest := Prices.drop 3 s in
    let digits := countDigits rest in
    match digits, Prices.drop digits rest with
    | S _, String c _ => if Ascii.eqb c "@" then Some (3 + digits + 1)%nat else None
    | _, _ => None
    end
  else None.

(** [s.replace(/@p=\d+@/g, '@')], scanning from the left; [skip] characters
    of the current match are still to be passed over. *)
Fixpoint replaceTimestamps (skip : nat) (s : string) : string :=
  match s with
  | EmptyString => EmptyString
  | String c rest =>
      match skip with
      | S skip' => replaceTimestamps skip' rest
      | O =>
          match matchTimestamp s with
          | Some n => String "@" (replaceTimestamps (n - 1) rest)
          | None => String c (replaceTimestamps 0 rest)
          end
      end
  end.

(** [normalizedId] in [searchBahnhof]. *)
Definition normalizeId (originalId : string) : string :=
  replaceTimestamps 0 originalId.

(** What [searchBahnhof] resolves with. *)
Record Station := {
  id : string;
  normalizedId : string;
  name : string
}.

(** Texts are held as their UTF-8 bytes. The number of bytes of the white
    space or line terminator [s] starts with, [0] when it starts with none:
    TAB, LF, VT, FF, CR, SP, U+00A0, U+1680, U+2000 to U+200A, U+2028,
    U+2029, U+202F, U+205F, U+3000 and U+FEFF. *)
Definition whiteSpaceBytes (s : string) : nat :=
  let byte (i : nat) :=
    match String.get i s with
    | Some c => nat_of_ascii c
    | None => O
    end in
  let b0 := byte 0%nat in
  let b1 := byte 1%nat in
  let b2 := byte 2%nat in
  if ((b0 =? 32) || ((9 <=? b0) && (b0 <=? 13)))%nat then 1%nat
  else if ((b0 =? 194) && (b1 =? 160))%nat then 2%nat
  else if ((b0 =? 225) && (b1 =? 154) && (b2 =? 128))%nat then 3%nat
  else if ((b0 =? 226) && (b1 =? 128)
           && (((128 <=? b2) && (b2 <=? 138)) || (b2 =? 168) || (b2 =? 169) || (b2 =? 175)))%nat
       then 3%nat
  else if ((b0 =? 226) && (b1 =? 129) && (b2 =? 159))%nat then 3%nat
  else if ((b0 =? 227) && (b1 =? 128) && (b2 =? 128))%nat then 3%nat
  else if ((b0 =? 239) && (b1 =? 187) && (b2 =? 191))%nat then 3%nat
  else 0%nat.

(** The text without its leading white space; [skip] bytes of the current
    white-space character are still to be passed over. *)
Fixpoint trimStart_from (skip : nat) (s : string) : string :=
  match s with
  | EmptyString => EmptyString
  | String _ rest =>
      match skip with
      | S skip' => trimStart_from skip' rest
      | O =>
          match whiteSpaceBytes s with
          | O => s
          | S skip' => trimStart_from skip' rest
          end
      end
  end.

Definition trimStart (s : string) : string := trimStart_from 0 s.

Definition digitValue (radix : Z) (c : ascii) : option Z :=
  let n := Z.of_nat (nat_of_ascii c) in
  let v :=
    if (48 <=? n) && (n <=? 57) then Some (n - 48)
    else if (97 <=? n) && (n <=? 122) then Some (n - 87)
    else if (65 <=? n) && (n <=? 90) then Some (n - 55)
    else None in
  match v with
  | Some d => if d <? radix then Some d else None
  | None => None
  end.

Fixpoint readDigits (radix : Z) (acc : option Z) (s : string) : option Z :=
  match s with
  | String c rest =>
      match digitValue radix c with
      | Some d =>
          readDigits radix (Some (match acc with Some a => a * radix + d | None => d end)) rest
      | None => acc
      end
  | EmptyString => acc
  end.

(** [parseInt] of a text, without a radix argument: white space, sign,
    an optional [0x], then digits as far as they go. *)
Definition parseInt_text (s : string) : JSNumber :=
  let s := trimStart s in
  let (negative, s) :=
    match s with
    | String "-" rest => (true, rest)
    | String "+" rest => (false, rest)
    | _ => (false, s)
    end in
  let (radix, s) :=
    if String.prefix "0x" s || String.prefix "0X" s
    then (16, Prices.drop 2 s) else (10, s) in
  match readDigits radix None s with
  | Some n => Number_of_integer (if negative then - n else n)
  | None => NaN
  end.

(** [Number.parseInt(v)]: the argument is turned into a text first. A
    Number of integral value below [10^21] is its decimal expansion; from
    [10^21] on it is in exponent notation, of which [parseInt] reads the
    first digit. The texts of [true], [false], [null] and [undefined] hold
    no digit. *)
Definition Number_parseInt (v : Value) : JSNumber :=
  match v with
  | VNumber n =>
      if Z.abs n <? 10 ^ 21 then Finite n
      else Finite (Z.sgn n * exponentHead (Z.abs n))
  | VString s => parseInt_text s
  | VBool _ | VNull | VUndefined => NaN
  end.

(** [Math.min(Math.max(Number.parseInt(dayLimit || "3"), 1), 30)], as the
    number of iterations of [for (dayCount = 0; dayCount < maxDays; dayCount++)]:
    none when the value is NaN. *)
Definition maxDays (body : Body.t) : nat :=
  match Number_parseInt (or_else (Body.dayLimit body) (VString "3")) with
  | Finite n => Z.to_nat (Z.min (Z.max n 1) 30)
  | Infinite negative => if negative then 1%nat else 30%nat
  | NaN => O
  end.

(** The key of the cache-status probe for [testDate]. *)
Definition probeKey
    (body : Body.t) (startStation zielStation : Station) (testDate : LocalDate.t)
  : ResultCache.CacheKey :=
  ResultCache.generateCacheKey
    {| KeyParams.startStationId := normalizedId startStation;
       KeyParams.zielStationId := normalizedId zielStation;
       KeyParams.date := formatDateKey testDate;
       KeyParams.alter := Body.alter body;
       KeyParams.ermaessigungArt :=
         or_else (Body.ermaessigungArt body) (VString "KEINE_ERMAESSIGUNG");
       KeyParams.ermaessigungKlasse :=
         or_else (Body.ermaessigungKlasse body) (VString "KLASSENLOS");
       KeyParams.klasse := Body.klasse body;
       KeyParams.maximaleUmstiege :=
         jsonNumber (Number_parseInt (or_else (Body.maximaleUmstiege body) (VString "0")));
       KeyParams.schnelleVerbindungen :=
         is_true (Body.schnelleVerbindungen body)
         || is_string "true" (Body.schnelleVerbindungen body);
       KeyParams.nurDeutschlandTicketVerbindungen :=
         is_true (Body.nurDeutschlandTicketVerbindungen body)
         || is_string "true" (Body.nurDeutschlandTicketVerbindungen body);
       KeyParams.abfahrtAb := None;
       KeyParams.ankunftBis := None |}.

(** [isCached] of the probe: the cache is read, not changed. *)
Definition probe (now : Z) (cacheKey : ResultCache.CacheKey) (cache : ResultCache.Cache)
  : bool :=
  match ResultCache.get cacheKey cache with
  | Some cachedEntry =>
      now - ResultCache.timestamp cachedEntry <=? ResultCache.ttl cachedEntry
  | None => false
  end.

(** The object handed to [getBestPrice] for [currentDate]. *)
Definition configFor
    (body : Body.t) (startStation zielStation : Station) (currentDate : LocalDate.t)
  : Config.t :=
  {| Config.abfahrtsHalt := id startStation;
     Config.ankunftsHalt := id zielStation;
     Config.startStationNormalizedId := normalizedId startStation;
     Config.zielStationNormalizedId := normalizedId zielStation;
     Config.anfrageDatum := currentDate;
     Config.alter := Body.alter body;
     Config.ermaessigungArt := Body.ermaessigungArt body;
     Config.ermaessigungKlasse := Body.ermaessigungKlasse body;
     Config.klasse := Body.klasse body;
     Config.maximaleUmstiege :=
       jsonNumber (Number_parseInt (or_else (Body.maximaleUmstiege body) (VString "0")));
     Config.schnelleVerbindungen :=
       VBool (is_true (Body.schnelleVerbindungen body)
              || is_string "1" (Body.schnelleVerbindungen body));
     Config.nurDeutschlandTicketVerbindungen :=
       VBool (is_true (Body.nurDeutschlandTicketVerbindungen body)
              || is_string "1" (Body.nurDeutschlandTicketVerbindungen body));
     Config.abfahrtAb := Body.abfahrtAb body;
     Config.ankunftBis := Body.ankunftBis body |}.

(** How the promise of [globalRateLimiter.addToQueue] behaves for the call
    of one day. A call that is answered with HTTP 429 each time it is
    invoked is re-queued each time, [executeRequestWithRetry] running with
    [retryCount = 0] on every attempt: its promise never settles. *)
Inductive Upstream :=
| Settles (outcome : Settled Prices.ApiResponse)
| NeverSettles.

(** What the outside world contributes to the processing of one day. *)
Record DayEnv := {
  lookupTime : Z;       (* [Date.now()] at the cache lookup *)
  api : Upstream;       (* the upstream call, should there be one *)
  storeTime : Z         (* [Date.now()] when its answer is stored *)
}.

(** [await getBestPrice(config)]: [None] when the call does not return,
    because it awaits an upstream call that never settles. *)
Definition awaitBestPrice
    (config : Config.t) (e : DayEnv) (cache : ResultCache.Cache) : option Prices.Outcome :=
  match Prices.answerFromCache config (lookupTime e) cache with
  | Some answer => Some answer
  | None =>
      match api e with
      | Settles outcome =>
          Some (Prices.getBestPrice config (lookupTime e) outcome (storeTime e) cache)
      | NeverSettles => None
      end
  end.

(** The first loop: [dayStatusList]. *)
Definition dayStatusList
    (body : Body.t) (startStation zielStation : Station)
    (probeTime : nat -> Z) (cache : ResultCache.Cache) : list (DateKey * bool) :=
  map (fun dayCount =>
         let testDate := LocalDate.addDays dayCount (Body.reisezeitraumAb body) in
         (formatDateKey testDate,
          probe (probeTime dayCount) (probeKey body startStation zielStation testDate) cache))
      (seq 0 (maxDays body)).

(** The second loop, with [remaining = maxDays - dayCount] iterations to go;
    [None] when an iteration does not come back from its [await]. Progress
    reporting and the moving averages of the response times do not feed back
    into [results] or the cache and are left out. *)
Fixpoint dayLoop
    (body : Body.t) (startStation zielStation : Station) (env : nat -> DayEnv)
    (remaining dayCount : nat) (currentDate : LocalDate.t)
    (results : TrainResults) (cache : ResultCache.Cache)
  : option (TrainResults * ResultCache.Cache) :=
  match remaining with
  | O => Some (results, cache)
  | S remaining' =>
      match awaitBestPrice (configFor body startStation zielStation currentDate)
              (env dayCount) cache with
      | Some dayResponse =>
          dayLoop body startStation zielStation env remaining' (S dayCount)
            (LocalDate.nextDay currentDate)
            (Assoc.assign DateKey_eq_dec results (Prices.result dayResponse))
            (Prices.cache dayResponse)
      | None => None
      end
  end.

Inductive Reply :=
| BadRequest                 (* 400: start and destination required *)
| StationNotFound            (* 404 *)
| Results (results : TrainResults) (status : list (DateKey * bool))
          (cache : ResultCache.Cache)
| NoReply.                   (* the handler still awaits a call: nothing is sent *)

Definition POST
    (body : Body.t) (startStation zielStation : option Station)
    (probeTime : nat -> Z) (env : nat -> DayEnv) (cache : ResultCache.Cache) : Reply :=
  if negb (truthy (Body.start body)) || negb (truthy (Body.ziel body)) then BadRequest
  else
    match startStation, zielStation with
    | Some startStation, Some zielStation =>
        let status := dayStatusList body startStation zielStation probeTime cache in
        match dayLoop body startStation zielStation env (maxDays body) 0
                (Body.reisezeitraumAb body) [] cache with
        | Some (results, cache') => Results results status cache'
        | None => NoReply
        end
    | _, _ => StationNotFound
    end.

End Handler.

(* ===================================================================== *)
(** ** Invariants and other predicates used in the statements *)
(* ===================================================================== *)

Module LimiterDefs.
Import JS RateLimiter.

(** What holds of the limiter after every turn of the event loop:
    [activeRequests] counts the suspended calls and never exceeds the single
    slot; what was pushed is what was started followed by what still waits;
    every suspended call runs with [retryCount = 0]; the pacing interval
    stays between [baseInterval] and [maxInterval]. *)
Definition invariant (w : World) : Prop :=
  activeRequests (fields w) = Z.of_nat (List.length (inFlight w)) /\
  activeRequests (fields w) <= maxConcurrentRequests /\
  pushLog w = (startLog w ++ queue (fields w))%list /\
  Forall (fun call => snd call = 0) (inFlight w) /\
  baseInterval <= minInterval (fields w) <= maxInterval.

Definition rejection429 : Settled string :=
  Rejected (ThrownError "HTTP 429: Too Many Requests").

(** A call that is rejected with HTTP 429 every time it is invoked:
    [n + 1] attempts, the last one just rejected. *)
Definition always429 (n : nat) : list Event :=
  AddToQueue 0 "2025-07-26-8000105-8011160" ::
  ProcessingTimerFires 30000 ::
  ExecuteSettles 30200 0 rejection429 ::
  flat_map (fun k =>
              let t := 30000 * Z.of_nat k in
              [RetryTimerFires (t + 50000) 0;
               ProcessingTimerFires (t + 60000);
               ExecuteSettles (t + 60200) 0 rejection429])
           (seq 0 n).

(** What holds of the processing timer after every turn of the event loop:
    it is pending whenever requests wait and no call is running, and while
    it is pending no call is running, the queue is not empty and the timer
    is due no earlier than [minInterval] after the last start. *)
Definition timerInvariant (w : World) : Prop :=
  (queue (fields w) <> [] -> inFlight w = [] -> processingTimer (fields w) <> None) /\
  (forall due, processingTimer (fields w) = Some due ->
     inFlight w = [] /\ queue (fields w) <> [] /\
     lastApiCallStart (fields w) + minInterval (fields w) <= due).

(** The number of [addToQueue] calls in a trace. *)
Fixpoint submitted (es : list Event) : nat :=
  match es with
  | [] => O
  | AddToQueue _ _ :: rest => S (submitted rest)
  | _ :: rest => submitted rest
  end.

(** The calls the limiter still holds or has settled: queued, running,
    waiting for a re-queue timer, or resolved/rejected. *)
Definition accountedFor (w : World) : nat :=
  (List.length (queue (fields w)) + List.length (inFlight w)
   + List.length (retryTimers w) + List.length (settledLog w))%nat.

(** One call has been submitted and waits for the processing timer. *)
Definition firstCallQueued : World :=
  match step initialWorld (AddToQueue 0 "2025-07-26-8000105-8011160") with
  | Some w => w
  | None => initialWorld
  end.

(** The first call has been started and waits for its answer. *)
Definition firstCallRunning : World :=
  match run initialWorld [AddToQueue 0 "2025-07-26-8000105-8011160";
                          ProcessingTimerFires 30000] with
  | Some w => w
  | None => initialWorld
  end.

(** ... and the answer was a rate-limit rejection. *)
Definition firstCallRejected : World :=
  match step firstCallRunning (ExecuteSettles 30200 0 rejection429) with
  | Some w => w
  | None => initialWorld
  end.

(** ... or the answer was a response body. *)
Definition firstCallAnswered : World :=
  match step firstCallRunning (ExecuteSettles 30200 0 (Fulfilled "{ intervalle: [] }")) with
  | Some w => w
  | None => initialWorld
  end.
(** The limiter between two attempts of a call that got HTTP 429 on each of
    its [k + 1] attempts so far: nothing waits, nothing runs, nothing was
    settled, and one timer is pending that will put the call back into the
    queue. *)
Definition awaitingRetry (k : nat) (w : World) : Prop :=
  queue (fields w) = [] /\ inFlight w = [] /\ processingTimer (fields w) = None /\
  activeRequests (fields w) = 0 /\ settledLog w = [] /\
  List.length (startLog w) = S k /\
  (exists due request,
     retryTimers w = [(due, request)] /\ due <= 30000 * Z.of_nat k + 50000) /\
  lastApiCallStart (fields w) + maxInterval <= 30000 * Z.of_nat k + 50000 /\
  baseInterval <= minInterval (fields w) <= maxInterval.
End LimiterDefs.

Module CacheDefs.
Import ResultCache.

(** Not more entries than the bound, and no key twice. *)
Definition bounded (cache : Cache) : Prop :=
  size cache <= MAX_CACHE_ENTRIES /\ NoDup (Assoc.keys cache).
End CacheDefs.

Module PricesDefs.
Import Prices.
(** Two queries that differ at most in the two time filters. *)
Definition sameQuery (c1 c2 : Config.t) : Prop :=
  Config.abfahrtsHalt c1 = Config.abfahrtsHalt c2 /\
  Config.ankunftsHalt c1 = Config.ankunftsHalt c2 /\
  Config.startStationNormalizedId c1 = Config.startStationNormalizedId c2 /\
  Config.zielStationNormalizedId c1 = Config.zielStationNormalizedId c2 /\
  Config.anfrageDatum c1 = Config.anfrageDatum c2 /\
  Config.alter c1 = Config.alter c2 /\
  Config.ermaessigungArt c1 = Config.ermaessigungArt c2 /\
  Config.ermaessigungKlasse c1 = Config.ermaessigungKlasse c2 /\
  Config.klasse c1 = Config.klasse c2 /\
  Config.maximaleUmstiege c1 = Config.maximaleUmstiege c2 /\
  Config.schnelleVerbindungen c1 = Config.schnelleVerbindungen c2 /\
  Config.nurDeutschlandTicketVerbindungen c1 = Config.nurDeutschlandTicketVerbindungen c2.

(** The prices of the entries of a result object. *)
Definition prices (r : TrainResults) : list Z :=
  map (fun entry => TrainResult.preis (snd entry)) r.

(** A time of day as a time input produces it: 00:00 to 23:59. *)
Definition clockRange (t : TimeOfDay.t) : Prop :=
  0 <= TimeOfDay.hh t <= 23 /\ 0 <= TimeOfDay.mm t <= 59.

(** The property name under which the second loop files the price of [x]. *)
Definition priceKey (x : Interval.t) : string :=
  (Interval.info x ++ Number_toString (Interval.preis x))%string.

(** No two offers with different prices are filed under the same name. *)
Definition noKeyCollision (intervalle : list Raw.t) : Prop :=
  forall x y,
    In x (allIntervalsForCache intervalle) -> In y (allIntervalsForCache intervalle) ->
    priceKey x = priceKey y -> Interval.preis x = Interval.preis y.

(** The filter as it acts on a cached element. *)
Definition keepCached (abfahrtAb ankunftBis : option TimeOfDay.t) (x : Interval.t) : bool :=
  match abfahrtAb, ankunftBis with
  | None, None => true
  | _, _ => keepInterval abfahrtAb ankunftBis (rebuild x)
  end.

(** The price table after the second loop: one write per valid offer. *)
Definition fileAll (xs : list Interval.t) (preise : list (string * Z)) : list (string * Z) :=
  fold_left (fun m x => Assoc.set String.string_dec (priceKey x) (Interval.preis x) m) xs preise.

(** Minutes since midnight of a time of day. *)
Definition minutes (t : TimeOfDay.t) : Z := TimeOfDay.hh t * 60 + TimeOfDay.mm t.

(** A list of offers in ascending order of price. *)
Definition ascendingByPreis (l : list Interval.t) : Prop :=
  StronglySorted (fun a b => Interval.preis a <= Interval.preis b) l.

(** Two offers with the same departure and arrival timestamps. *)
Definition sameTimestamps (x y : Interval.t) : Prop :=
  Zeitpunkt.iso (Interval.abfahrtsZeitpunkt x) = Zeitpunkt.iso (Interval.abfahrtsZeitpunkt y) /\
  Zeitpunkt.iso (Interval.ankunftsZeitpunkt x) = Zeitpunkt.iso (Interval.ankunftsZeitpunkt y).

(** [bestConnection] was taken from the first section of one of [ivs]. *)
Definition fromOffer (ivs : list Raw.t) (best : BestConnection) : Prop :=
  exists iv first others,
    In iv ivs /\ Raw.verbindungsAbschnitte iv = Some (first :: others) /\
    Raw.preis iv = Some (best_preis best) /\ connection best = first.

(** The answer is not one on which [filterByTime] throws. *)
Definition filterRunsThrough (api : JS.Settled ApiResponse) : Prop :=
  match api with
  | JS.Fulfilled response =>
      match parsed response with
      | FilterThrows _ _ _ => False
      | _ => True
      end
  | JS.Rejected _ => True
  end.
End PricesDefs.

Module HandlerDefs.





End HandlerDefs.

(* ===================================================================== *)
(** ** Concrete inputs *)
(* ===================================================================== *)

Module CacheScenario.
Import JS.
Definition key (n : Z) : ResultCache.CacheKey :=
  {| KeyParams.startStationId := "A=1@O=Berlin Hbf@L=8011160@";
     KeyParams.zielStationId := "A=1@O=Hamburg Hbf@L=8002549@";
     KeyParams.date := (2025, 7, 26);
     KeyParams.alter := VString "ERWACHSENER";
     KeyParams.ermaessigungArt := VString "KEINE_ERMAESSIGUNG";
     KeyParams.ermaessigungKlasse := VString "KLASSENLOS";
     KeyParams.klasse := VString "KLASSE_2";
     KeyParams.maximaleUmstiege := Some n;
     KeyParams.schnelleVerbindungen := true;
     KeyParams.nurDeutschlandTicketVerbindungen := false;
     KeyParams.abfahrtAb := None;
     KeyParams.ankunftBis := None |}.

Definition freshEntry : ResultCache.CacheEntry :=
  {| ResultCache.data := Some []; ResultCache.timestamp := 0;
     ResultCache.ttl := ResultCache.CACHE_TTL |}.

(** A cache filled to capacity: one entry per value of [maximaleUmstiege]. *)
Definition fullCache : ResultCache.Cache :=
  map (fun i => (key (Z.of_nat i), freshEntry)) (seq 0 (Z.to_nat ResultCache.MAX_CACHE_ENTRIES)).

(** The calls of [setCachedResult] that fill it, all at time 0. *)
Definition fullCalls : list ResultCache.SetCall :=
  map (fun i => (0, key (Z.of_nat i), Some []))
      (seq 0 (Z.to_nat ResultCache.MAX_CACHE_ENTRIES)).
End CacheScenario.

Module PriceScenario.
Import JS.
Definition zeitpunkt (iso : string) (time date hours minutes : Z) (locale : string)
  : Zeitpunkt.t :=
  {| Zeitpunkt.iso := iso; Zeitpunkt.getTime := time; Zeitpunkt.getDate := date;
     Zeitpunkt.getHours := hours; Zeitpunkt.getMinutes := minutes;
     Zeitpunkt.toLocaleString := locale |}.

(** Berlin 22:00 on 26 July, Hamburg 05:00 on 27 July (local time in
    Germany). *)
Definition nachtzug : Raw.t :=
  {| Raw.preis := Some 29;
     Raw.verbindungsAbschnitte :=
       Some [ {| Abschnitt.abfahrtsZeitpunkt :=
                   zeitpunkt "2025-07-26T22:00:00" 1753560000000 26 22 0 "26.07.2025, 22:00:00";
                 Abschnitt.ankunftsZeitpunkt :=
                   zeitpunkt "2025-07-27T05:00:00" 1753585200000 27 5 0 "27.07.2025, 05:00:00";
                 Abschnitt.abfahrtsOrt := "Berlin Hbf";
                 Abschnitt.ankunftsOrt := "Hamburg Hbf" |} ];
     Raw.umstiegsAnzahl := Some 0 |}.

Definition sechsUhr : TimeOfDay.t := {| TimeOfDay.hh := 6; TimeOfDay.mm := 0 |}.

Definition config (abfahrtAb ankunftBis : option TimeOfDay.t) : Config.t :=
  {| Config.abfahrtsHalt := "A=1@O=Berlin Hbf@L=8011160@p=1748982040@";
     Config.ankunftsHalt := "A=1@O=Hamburg Hbf@L=8002549@p=1748982040@";
     Config.startStationNormalizedId := "A=1@O=Berlin Hbf@L=8011160@";
     Config.zielStationNormalizedId := "A=1@O=Hamburg Hbf@L=8002549@";
     Config.anfrageDatum :=
       {| LocalDate.getFullYear := 2025; LocalDate.getMonth := 6; LocalDate.getDate := 26 |};
     Config.alter := VString "ERWACHSENER";
     Config.ermaessigungArt := VUndefined;
     Config.ermaessigungKlasse := VUndefined;
     Config.klasse := VString "KLASSE_2";
     Config.maximaleUmstiege := Some 0;
     Config.schnelleVerbindungen := VBool true;
     Config.nurDeutschlandTicketVerbindungen := VBool false;
     Config.abfahrtAb := abfahrtAb;
     Config.ankunftBis := ankunftBis |}.

(** Berlin 08:00, arrival 12:00 on the same day. *)
Definition tagesfahrt (preis : Z) (ankunftsOrt : string) : Raw.t :=
  {| Raw.preis := Some preis;
     Raw.verbindungsAbschnitte :=
       Some [ {| Abschnitt.abfahrtsZeitpunkt :=
                   zeitpunkt "2025-07-26T08:00:00" 1753509600000 26 8 0 "26.07.2025, 08:00:00";
                 Abschnitt.ankunftsZeitpunkt :=
                   zeitpunkt "2025-07-26T12:00:00" 1753524000000 26 12 0 "26.07.2025, 12:00:00";
                 Abschnitt.abfahrtsOrt := "Berlin Hbf";
                 Abschnitt.ankunftsOrt := ankunftsOrt |} ];
     Raw.umstiegsAnzahl := Some 0 |}.

(** Two offers whose [info + newPreis] texts coincide:
    ["... Flughafen Terminal1" + "9"] and ["... Flughafen Terminal" + "19"]. *)
Definition kollision : list Raw.t :=
  [tagesfahrt 9 "Flughafen Terminal1"; tagesfahrt 19 "Flughafen Terminal"].

(** Berlin 08:00, change in Hannover (09:40 / 10:00), Hamburg 12:00. *)
Definition umsteigefahrt : Raw.t :=
  {| Raw.preis := Some 35;
     Raw.verbindungsAbschnitte :=
       Some [ {| Abschnitt.abfahrtsZeitpunkt :=
                   zeitpunkt "2025-07-26T08:00:00" 1753509600000 26 8 0 "26.07.2025, 08:00:00";
                 Abschnitt.ankunftsZeitpunkt :=
                   zeitpunkt "2025-07-26T09:40:00" 1753515600000 26 9 40 "26.07.2025, 09:40:00";
                 Abschnitt.abfahrtsOrt := "Berlin Hbf";
                 Abschnitt.ankunftsOrt := "Hannover Hbf" |};
              {| Abschnitt.abfahrtsZeitpunkt :=
                   zeitpunkt "2025-07-26T10:00:00" 1753516800000 26 10 0 "26.07.2025, 10:00:00";
                 Abschnitt.ankunftsZeitpunkt :=
                   zeitpunkt "2025-07-26T12:00:00" 1753524000000 26 12 0 "26.07.2025, 12:00:00";
                 Abschnitt.abfahrtsOrt := "Hannover Hbf";
                 Abschnitt.ankunftsOrt := "Hamburg Hbf" |} ];
     Raw.umstiegsAnzahl := Some 1 |}.

(** The elements of [allIntervals] for the night train and for a day trip
    at the same price. *)
Definition nachtangebot : Interval.t :=
  {| Interval.preis := 29;
     Interval.abfahrtsZeitpunkt :=
       zeitpunkt "2025-07-26T22:00:00" 1753560000000 26 22 0 "26.07.2025, 22:00:00";
     Interval.ankunftsZeitpunkt :=
       zeitpunkt "2025-07-27T05:00:00" 1753585200000 27 5 0 "27.07.2025, 05:00:00";
     Interval.abfahrtsOrt := "Berlin Hbf";
     Interval.ankunftsOrt := "Hamburg Hbf";
     Interval.info := "26.07.2025, 22:00:00 Berlin Hbf -> 27.07.2025, 05:00:00 Hamburg Hbf";
     Interval.umstiegsAnzahl := 0 |}.

Definition tagesangebot : Interval.t :=
  {| Interval.preis := 29;
     Interval.abfahrtsZeitpunkt :=
       zeitpunkt "2025-07-26T08:00:00" 1753509600000 26 8 0 "26.07.2025, 08:00:00";
     Interval.ankunftsZeitpunkt :=
       zeitpunkt "2025-07-26T12:00:00" 1753524000000 26 12 0 "26.07.2025, 12:00:00";
     Interval.abfahrtsOrt := "Berlin Hbf";
     Interval.ankunftsOrt := "Hamburg Hbf";
     Interval.info := "26.07.2025, 08:00:00 Berlin Hbf -> 26.07.2025, 12:00:00 Hamburg Hbf";
     Interval.umstiegsAnzahl := 0 |}.

Definition antwort (intervalle : list Raw.t) : Settled Prices.ApiResponse :=
  Fulfilled {| Prices.responseText := "{ intervalle: [ ... ] }";
               Prices.parsed := Prices.Intervalle intervalle |}.

(** The cache after a first call without time filters that fetched the
    night train. *)
Definition cacheAfterFirstCall : ResultCache.Cache :=
  Prices.cache (Prices.getBestPrice (config None None) 0 (antwort [nachtzug]) 100 []).
End PriceScenario.

Module BatchScenario.
Import JS.
Definition berlin : Handler.Station :=
  {| Handler.id := "A=1@O=Berlin Hbf@L=8011160@p=1748982040@";
     Handler.normalizedId := "A=1@O=Berlin Hbf@L=8011160@";
     Handler.name := "Berlin Hbf" |}.

Definition hamburg : Handler.Station :=
  {| Handler.id := "A=1@O=Hamburg Hbf@L=8002549@p=1748982040@";
     Handler.normalizedId := "A=1@O=Hamburg Hbf@L=8002549@";
     Handler.name := "Hamburg Hbf" |}.

Definition juli30 : LocalDate.t :=
  {| LocalDate.getFullYear := 2025; LocalDate.getMonth := 6; LocalDate.getDate := 30 |}.

(** A request body with the fast-connection flag as given. *)
Definition body (schnelleVerbindungen : Value) : Body.t :=
  {| Body.start := VString "Berlin Hbf";
     Body.ziel := VString "Hamburg Hbf";
     Body.reisezeitraumAb := juli30;
     Body.alter := VString "ERWACHSENER";
     Body.ermaessigungArt := VUndefined;
     Body.ermaessigungKlasse := VUndefined;
     Body.klasse := VString "KLASSE_2";
     Body.schnelleVerbindungen := schnelleVerbindungen;
     Body.nurDeutschlandTicketVerbindungen := VBool false;
     Body.maximaleUmstiege := VString "0";
     Body.dayLimit := VString "3";
     Body.abfahrtAb := None;
     Body.ankunftBis := None |}.

(** The same request with the day limit as given. *)
Definition bodyFor (dayLimit : Value) : Body.t :=
  {| Body.start := VString "Berlin Hbf";
     Body.ziel := VString "Hamburg Hbf";
     Body.reisezeitraumAb := juli30;
     Body.alter := VString "ERWACHSENER";
     Body.ermaessigungArt := VUndefined;
     Body.ermaessigungKlasse := VUndefined;
     Body.klasse := VString "KLASSE_2";
     Body.schnelleVerbindungen := VBool true;
     Body.nurDeutschlandTicketVerbindungen := VBool false;
     Body.maximaleUmstiege := VString "0";
     Body.dayLimit := dayLimit;
     Body.abfahrtAb := None;
     Body.ankunftBis := None |}.

(** Day 0 answers, the call of day 1 behaves as given, the answer of day 2
    cannot be parsed. *)
Definition envWith (day1 : Handler.Upstream) (dayCount : nat) : Handler.DayEnv :=
  {| Handler.lookupTime := 1000 * Z.of_nat dayCount;
     Handler.api :=
       match dayCount with
       | 0%nat =>
           Handler.Settles
             (Fulfilled {| Prices.responseText := "{...}";
                           Prices.parsed := Prices.Intervalle [PriceScenario.nachtzug] |})
       | 1%nat => day1
       | _ =>
           Handler.Settles
             (Fulfilled {| Prices.responseText := "<html>";
                           Prices.parsed := Prices.ParseError |})
       end;
     Handler.storeTime := 1000 * Z.of_nat dayCount + 500 |}.

(** ... rejected with a transport error. *)
Definition env : nat -> Handler.DayEnv :=
  envWith (Handler.Settles (Rejected (ThrownError "fetch failed"))).
End BatchScenario.

(* ===================================================================== *)
(** ** Facts about insertion-ordered maps *)
(* ===================================================================== *)

Module AssocFacts.
Section AssocFacts.
Context {K V : Type} (K_eq_dec : forall a b : K, {a = b} + {a <> b}).
Local Abbreviation get := (Assoc.get K_eq_dec).
Local Abbreviation set := (Assoc.set K_eq_dec).
Local Abbreviation delete := (Assoc.delete K_eq_dec).

Lemma get_set_same (k : K) (v : V) (m : list (K * V)) : get k (set k v m) = Some v.
Proof.
  induction m as [| [k' v'] m IH]; cbn.
  - destruct (K_eq_dec k k); congruence.
  - destruct (K_eq_dec k' k) as [-> | Hne]; cbn.
    + destruct (K_eq_dec k k); congruence.
    + destruct (K_eq_dec k' k); [contradiction | exact IH].
Qed.

Lemma get_set_other (k k' : K) (v : V) (m : list (K * V)) :
  k <> k' -> get k' (set k v m) = get k' m.
Proof.
  intros Hne. induction m as [| [k0 v0] m IH]; cbn.
  - destruct (K_eq_dec k k'); [contradiction | reflexivity].
  - destruct (K_eq_dec k0 k) as [-> | Hk0]; cbn.
    + destruct (K_eq_dec k k'); [contradiction | reflexivity].
    + destruct (K_eq_dec k0 k'); [reflexivity | exact IH].
Qed.

Lemma get_None_iff (k : K) (m : list (K * V)) :
  get k m = None <-> ~ In k (Assoc.keys m).
Proof.
  induction m as [| [k0 v0] m IH]; cbn; [tauto |].
  destruct (K_eq_dec k0 k) as [-> | Hne].
  - split; [discriminate | intros H; exfalso; apply H; now left].
  - rewrite IH. tauto.
Qed.

Lemma keys_set (k : K) (v : V) (m : list (K * V)) :
  Assoc.keys (set k v m) =
    match get k m with
    | Some _ => Assoc.keys m
    | None => (Assoc.keys m ++ [k])%list
    end.
Proof.
  unfold Assoc.keys. induction m as [| [k0 v0] m IH]; cbn; [reflexivity |].
  destruct (K_eq_dec k0 k) as [-> | Hne]; cbn; [reflexivity |].
  rewrite IH. destruct (get k m); reflexivity.
Qed.

Lemma length_set (k : K) (v : V) (m : list (K * V)) :
  List.length (set k v m) =
    match get k m with
    | Some _ => List.length m
    | None => S (List.length m)
    end.
Proof.
  pose proof (keys_set k v m) as H. apply (f_equal (@List.length K)) in H.
  unfold Assoc.keys in H. rewrite length_map in H. rewrite H.
  destruct (get k m); [apply length_map |].
  rewrite length_app, length_map. cbn. lia.
Qed.

Lemma NoDup_keys_set (k : K) (v : V) (m : list (K * V)) :
  NoDup (Assoc.keys m) -> NoDup (Assoc.keys (set k v m)).
Proof.
  intros H. rewrite keys_set. destruct (get k m) eqn:E; [exact H |].
  apply get_None_iff in E.
  apply NoDup_app; [exact H | repeat constructor; intros [] | ].
  intros x Hx [<- | []]. exact (E Hx).
Qed.

Lemma keys_delete_incl (k : K) (m : list (K * V)) :
  incl (Assoc.keys (delete k m)) (Assoc.keys m).
Proof.
  induction m as [| [k0 v0] m IH]; cbn; [apply incl_refl |].
  destruct (K_eq_dec k0 k); cbn.
  - apply incl_tl, incl_refl.
  - apply incl_cons; [now left | apply incl_tl, IH].
Qed.

Lemma NoDup_keys_delete (k : K) (m : list (K * V)) :
  NoDup (Assoc.keys m) -> NoDup (Assoc.keys (delete k m)).
Proof.
  induction m as [| [k0 v0] m IH]; cbn; intros H; [exact H |].
  inversion H as [| ? ? Hnotin Hnd]; subst.
  destruct (K_eq_dec k0 k); cbn; [exact Hnd |].
  constructor; [| exact (IH Hnd)].
  intros Hin. apply Hnotin. exact (keys_delete_incl k m _ Hin).
Qed.

Lemma get_delete_other (k k' : K) (m : list (K * V)) :
  k <> k' -> get k' (delete k m) = get k' m.
Proof.
  intros Hne. induction m as [| [k0 v0] m IH]; cbn; [reflexivity |].
  destruct (K_eq_dec k0 k) as [-> | Hk0]; cbn.
  - destruct (K_eq_dec k k'); [contradiction | reflexivity].
  - destruct (K_eq_dec k0 k'); [reflexivity | exact IH].
Qed.
End AssocFacts.

Lemma get_Some_In {K V : Type} (dec : forall a b : K, {a = b} + {a <> b})
    (k : K) (v : V) (m : list (K * V)) :
  Assoc.get dec k m = Some v -> In (k, v) m.
Proof.
  induction m as [| [k0 v0] m IH]; cbn; [discriminate |].
  destruct (dec k0 k) as [-> | Hne].
  - intros H. injection H as ->. now left.
  - intros H. right. exact (IH H).
Qed.

Lemma In_set {K V : Type} (dec : forall a b : K, {a = b} + {a <> b})
    (k k0 : K) (v v0 : V) (m : list (K * V)) :
  In (k, v) (Assoc.set dec k0 v0 m) -> (k, v) = (k0, v0) \/ In (k, v) m.
Proof.
  induction m as [| [k1 v1] m IH]; cbn.
  - intros [H | []]. left. symmetry. exact H.
  - destruct (dec k1 k0) as [-> | Hne]; cbn.
    + intros [H | H]; [left; symmetry; exact H | right; right; exact H].
    + intros [H | H]; [right; left; exact H |].
      destruct (IH H) as [H' | H']; [left; exact H' | right; right; exact H'].
Qed.


Lemma get_delete_same {K V : Type} (dec : forall a b : K, {a = b} + {a <> b})
    (k : K) (m : list (K * V)) :
  NoDup (Assoc.keys m) -> Assoc.get dec k (Assoc.delete dec k m) = None.
Proof.
  unfold Assoc.keys. induction m as [| [k0 v0] m IH]; cbn; [reflexivity |].
  intros Hnd. inversion Hnd as [| ? ? Hnotin Hnd']; subst.
  destruct (dec k0 k) as [-> | Hne]; cbn.
  - apply AssocFacts.get_None_iff. exact Hnotin.
  - destruct (dec k0 k); [contradiction | exact (IH Hnd')].
Qed.

Lemma get_filter {K V : Type} (dec : forall a b : K, {a = b} + {a <> b})
    (keep : K * V -> bool) (k : K) (m : list (K * V)) :
  NoDup (Assoc.keys m) ->
  Assoc.get dec k (filter keep m) =
    match Assoc.get dec k m with
    | Some v => if keep (k, v) then Some v else None
    | None => None
    end.
Proof.
  unfold Assoc.keys. induction m as [| [k0 v0] m IH]; cbn; [reflexivity |].
  intros Hnd. inversion Hnd as [| ? ? Hnotin Hnd']; subst.
  destruct (dec k0 k) as [-> | Hne].
  - destruct (keep (k, v0)) eqn:Ek; cbn.
    + destruct (dec k k); congruence.
    + rewrite (IH Hnd').
      assert (Hnone : Assoc.get dec k m = None) by (apply AssocFacts.get_None_iff; exact Hnotin).
      rewrite Hnone. reflexivity.
  - destruct (keep (k0, v0)); cbn.
    + destruct (dec k0 k); [contradiction | exact (IH Hnd')].
    + exact (IH Hnd').
Qed.

Lemma NoDup_keys_filter {K V : Type} (keep : K * V -> bool) (m : list (K * V)) :
  NoDup (Assoc.keys m) -> NoDup (Assoc.keys (filter keep m)).
Proof.
  unfold Assoc.keys. induction m as [| [k0 v0] m IH]; cbn; [intros H; exact H |].
  intros Hnd. inversion Hnd as [| ? ? Hnotin Hnd']; subst.
  destruct (keep (k0, v0)); cbn; [| exact (IH Hnd')].
  constructor; [| exact (IH Hnd')].
  intros Hin. apply Hnotin. apply in_map_iff in Hin. destruct Hin as (kv & Hk & Hin).
  apply filter_In in Hin. apply in_map_iff. exists kv. tauto.
Qed.

Lemma length_delete_le {K V : Type} (dec : forall a b : K, {a = b} + {a <> b})
    (k : K) (m : list (K * V)) :
  (List.length (Assoc.delete dec k m) <= List.length m)%nat.
Proof.
  induction m as [| [k0 v0] m IH]; cbn; [lia |].
  destruct (dec k0 k); cbn; lia.
Qed.
End AssocFacts.

(* ===================================================================== *)
(** ** The rate limiter *)
(* ===================================================================== *)

Module RateLimiterFacts.
Import JS RateLimiter LimiterDefs.

Lemma Math_round_scaled (x n : Z) (d : positive) :
  Math_round (inject_Z x * (n # d)) = (2 * n * x + Z.pos d) / (2 * Z.pos d).
Proof.
  unfold Math_round, Qfloor, Qplus, Qmult, inject_Z. cbn [Qnum Qden].
  rewrite !Pos.mul_1_l.
  replace (x * n * 2 + 1 * Z.pos d) with (2 * n * x + Z.pos d) by ring.
  f_equal. lia.
Qed.

Lemma Math_round_inject (z : Z) : Math_round (inject_Z z) = z.
Proof.
  unfold Math_round, Qfloor, Qplus, inject_Z. cbn [Qnum Qden].
  replace (z * 2 + 1 * 1) with (1 + z * 2) by ring.
  rewrite Z.div_add by lia. reflexivity.
Qed.

Lemma Math_round_le (p q : Q) : (p <= q)%Q -> Math_round p <= Math_round q.
Proof.
  intros H. unfold Math_round. apply Qfloor_resp_le.
  apply Qplus_le_compat; [exact H | apply Qle_refl].
Qed.

Lemma Math_round_Qeq (p q : Q) : (p == q)%Q -> Math_round p = Math_round q.
Proof.
  intros H. unfold Math_round. apply Qfloor_comp. rewrite H. reflexivity.
Qed.

Lemma Math_round_Qmin (p q : Q) :
  Math_round (Qmin p q) = Z.min (Math_round p) (Math_round q).
Proof.
  destruct (Q.min_spec_le p q) as [[Hle Heq] | [Hle Heq]];
    rewrite (Math_round_Qeq _ _ Heq); apply Math_round_le in Hle; lia.
Qed.

Lemma Math_round_Qmax (p q : Q) :
  Math_round (Qmax p q) = Z.max (Math_round p) (Math_round q).
Proof.
  destruct (Q.max_spec_le p q) as [[Hle Heq] | [Hle Heq]];
    rewrite (Math_round_Qeq _ _ Heq); apply Math_round_le in Hle; lia.
Qed.

(** The two pacing updates, in integer arithmetic. *)
Lemma onRateLimitHit_minInterval (now : Z) (f : Fields) :
  minInterval (onRateLimitHit now f) = Z.min ((3 * minInterval f + 1) / 2) maxInterval.
Proof.
  unfold onRateLimitHit. cbn [minInterval].
  rewrite Math_round_Qmin, Math_round_scaled, Math_round_inject.
  f_equal.
  replace (2 * 3 * minInterval f + 2) with (2 * (3 * minInterval f + 1)) by ring.
  apply Z.div_mul_cancel_l; lia.
Qed.

Lemma three_quarters_below (x : Z) :
  baseInterval < x ->
  (Qmax (inject_Z x * (3 # 4)) (inject_Z baseInterval) < inject_Z x)%Q.
Proof.
  intros H. apply Q.max_lub_lt.
  - unfold Qlt, Qmult, inject_Z. cbn [Qnum Qden]. unfold baseInterval in H. lia.
  - rewrite <- Zlt_Qlt. exact H.
Qed.

Lemma onRequestSuccess_minInterval (f : Fields) :
  minInterval (onRequestSuccess f) =
    if (successfulRequests f + 1 >=? 3) && (minInterval f >? baseInterval)
    then Z.max ((3 * minInterval f + 2) / 4) baseInterval
    else minInterval f.
Proof.
  unfold onRequestSuccess.
  destruct ((successfulRequests f + 1 >=? 3) && (minInterval f >? baseInterval)) eqn:E;
    [| reflexivity].
  apply andb_prop in E. destruct E as [_ E]. apply Z.gtb_lt in E.
  destruct (Qlt_le_dec _ _) as [Hlt | Hle].
  - cbn [minInterval]. rewrite Math_round_Qmax, Math_round_scaled, Math_round_inject.
    f_equal.
    replace (2 * 3 * minInterval f + 4) with (2 * (3 * minInterval f + 2)) by ring.
    apply Z.div_mul_cancel_l; lia.
  - exfalso. apply (Qle_not_lt _ _ Hle). apply three_quarters_below. exact E.
Qed.

Lemma onRequestSuccess_successfulRequests (f : Fields) :
  successfulRequests (onRequestSuccess f) =
    if (successfulRequests f + 1 >=? 3) && (minInterval f >? baseInterval)
    then 0 else successfulRequests f + 1.
Proof.
  unfold onRequestSuccess.
  destruct ((successfulRequests f + 1 >=? 3) && (minInterval f >? baseInterval)) eqn:E;
    [| reflexivity].
  apply andb_prop in E. destruct E as [_ E]. apply Z.gtb_lt in E.
  destruct (Qlt_le_dec _ _) as [Hlt | Hle]; [reflexivity |].
  exfalso. apply (Qle_not_lt _ _ Hle). apply three_quarters_below. exact E.
Qed.

(** [scheduleNextProcessing] touches [processingTimer] only. *)
Lemma scheduleNextProcessing_timer_only (now : Z) (w : World) :
  exists t, scheduleNextProcessing now w = setTimer t w /\
            (t = processingTimer (fields w) \/ exists due, t = Some due).
Proof.
  unfold scheduleNextProcessing.
  assert (Hid : w = setTimer (processingTimer (fields w)) w)
    by (destruct w as [[] ? ? ? ? ?]; reflexivity).
  destruct (processingTimer (fields w)) eqn:Et.
  - exists (Some z). split; [exact Hid | now left].
  - destruct (queue (fields w)); [exists None; split; [exact Hid | now left] |].
    destruct (activeRequests (fields w) >=? maxConcurrentRequests).
    + exists None; split; [exact Hid | now left].
    + eexists. split; [reflexivity | right; eexists; reflexivity].
Qed.

Lemma invariant_setTimer (t : option Z) (w : World) :
  invariant w -> invariant (setTimer t w).
Proof. intros H. exact H. Qed.

Lemma invariant_schedule (now : Z) (w : World) :
  invariant w -> invariant (scheduleNextProcessing now w).
Proof.
  intros H. destruct (scheduleNextProcessing_timer_only now w) as (t & -> & _).
  apply invariant_setTimer, H.
Qed.

Lemma invariant_push (r : QueuedRequest) (w : World) :
  invariant w -> invariant (push r w).
Proof.
  intros (Ha & Hb & Hc & Hd & He). unfold invariant, push. cbn.
  repeat split; try assumption; try apply He.
  rewrite Hc, app_assoc. reflexivity.
Qed.

Lemma invariant_processNextRequest (now : Z) (w : World) :
  invariant w -> invariant (processNextRequest now w).
Proof.
  intros H. unfold processNextRequest.
  destruct (queue (fields w)) as [| request rest] eqn:Eq; [exact H |].
  destruct (activeRequests (fields w) >=? maxConcurrentRequests) eqn:Ea; [exact H |].
  apply invariant_schedule.
  destruct H as (Ha & Hb & Hc & Hd & He). unfold invariant. cbn.
  rewrite Z.geb_leb in Ea. apply Z.leb_gt in Ea. unfold maxConcurrentRequests in *.
  assert (Hnil : inFlight w = []).
  { revert Ha. destruct (inFlight w); intros Ha; [reflexivity | cbn [List.length] in Ha; lia]. }
  rewrite Hnil in *. cbn in *. repeat split; try lia.
  - rewrite Hc, Eq, <- app_assoc. reflexivity.
  - constructor; [reflexivity | constructor].
Qed.

Lemma take_nth_spec {A : Type} (n : nat) (l : list A) (x : A) (rest : list A) :
  take_nth n l = Some (x, rest) ->
  List.length l = S (List.length rest) /\
  forall P : A -> Prop, Forall P l -> P x /\ Forall P rest.
Proof.
  revert n x rest. induction l as [| a l IH]; intros n x rest H; [discriminate |].
  destruct n as [| n]; cbn in H.
  - injection H as <- <-. split; [reflexivity |]. intros P HP.
    inversion HP; subst; split; assumption.
  - destruct (take_nth n l) as [[y rest'] |] eqn:E; [| discriminate].
    injection H as <- <-. destruct (IH _ _ _ E) as [Hlen HF]. split.
    + cbn. rewrite Hlen. reflexivity.
    + intros P HP. inversion HP; subst. destruct (HF P H2) as [Hy Hr].
      split; [exact Hy | constructor; assumption].
Qed.

Lemma onRateLimitHit_bounds (now : Z) (f : Fields) :
  baseInterval <= minInterval f <= maxInterval ->
  minInterval f <= minInterval (onRateLimitHit now f) <= maxInterval.
Proof.
  intros H. rewrite onRateLimitHit_minInterval. unfold baseInterval, maxInterval in *.
  assert (minInterval f <= (3 * minInterval f + 1) / 2)
    by (apply Z.div_le_lower_bound; lia).
  lia.
Qed.

Lemma onRequestSuccess_bounds (f : Fields) :
  baseInterval <= minInterval f <= maxInterval ->
  baseInterval <= minInterval (onRequestSuccess f) <= minInterval f.
Proof.
  intros H. rewrite onRequestSuccess_minInterval.
  destruct (_ && _); [| lia].
  unfold baseInterval, maxInterval in *.
  assert ((3 * minInterval f + 2) / 4 <= minInterval f)
    by (apply Z.div_le_upper_bound; lia).
  lia.
Qed.

Lemma invariant_step (w w' : World) (e : Event) :
  invariant w -> step w e = Some w' -> invariant w'.
Proof.
  intros H Hs. destruct e as [now rid | now | now which o | now which]; cbn in Hs.
  - injection Hs as <-. apply invariant_schedule, invariant_push, H.
  - destruct (processingTimer (fields w)) as [due |]; [| discriminate].
    destruct (due <=? now); [| discriminate]. injection Hs as <-.
    apply invariant_processNextRequest, invariant_setTimer, H.
  - destruct (take_nth which (inFlight w)) as [[[request rc] others] |] eqn:Et;
      [| discriminate].
    injection Hs as <-.
    destruct H as (Ha & Hb & Hc & Hd & He).
    destruct (take_nth_spec _ _ _ _ Et) as [Hlen HF].
    destruct (HF _ Hd) as [Hrc Hothers]. cbn in Hrc. subst rc.
    unfold finallyCallback. apply invariant_schedule.
    unfold invariant, maxConcurrentRequests in *.
    destruct o as [result | error]; cbn -[onRequestSuccess onRateLimitHit].
    + pose proof (onRequestSuccess_bounds (fields w) He).
      unfold onRequestSuccess in *.
      destruct (_ && _); [destruct (Qlt_le_dec _ _) |]; cbn in *;
        (repeat split; [lia | lia | assumption | assumption | lia | lia]).
    + destruct (isRateLimitError error); cbn -[onRateLimitHit].
      * pose proof (onRateLimitHit_bounds now (fields w) He).
        cbn in *. repeat split; try assumption; try lia.
      * cbn. repeat split; try assumption; try lia.
  - destruct (take_nth which (retryTimers w)) as [[[due request] others] |] eqn:Et;
      [| discriminate].
    destruct (due <=? now); [| discriminate]. injection Hs as <-.
    apply invariant_schedule, invariant_push. exact H.
Qed.

Lemma reachable_invariant (w : World) : reachable w -> invariant w.
Proof.
  induction 1 as [| w e w' _ IH Hs].
  - unfold invariant, baseInterval, maxInterval, maxConcurrentRequests. cbn.
    repeat split; try lia. constructor.
  - exact (invariant_step _ _ _ IH Hs).
Qed.

Lemma run_reachable (es : list Event) (w w' : World) :
  reachable w -> run w es = Some w' -> reachable w'.
Proof.
  revert w. induction es as [| e es IH]; intros w Hw Hr; cbn in Hr.
  - injection Hr as <-. exact Hw.
  - destruct (step w e) as [w1 |] eqn:Es; [| discriminate].
    apply (IH w1); [exact (reachable_step _ _ _ Hw Es) | exact Hr].
Qed.

Lemma step_scheduled_fields (now : Z) (w : World) :
  let w' := scheduleNextProcessing now w in
  queue (fields w') = queue (fields w) /\
  minInterval (fields w') = minInterval (fields w) /\
  successfulRequests (fields w') = successfulRequests (fields w) /\
  inFlight w' = inFlight w /\ retryTimers w' = retryTimers w /\
  settledLog w' = settledLog w /\ pushLog w' = pushLog w /\ startLog w' = startLog w.
Proof.
  cbv zeta. destruct (scheduleNextProcessing_timer_only now w) as (t & -> & _).
  cbn. repeat split.
Qed.

Lemma executeRequestWithRetry_fields
    (now : Z) (request : QueuedRequest) (rc : Z) (o : Settled string) (w : World) :
  fields (executeRequestWithRetry now request rc o w) =
    match o with
    | Fulfilled _ => onRequestSuccess (fields w)
    | Rejected error =>
        if isRateLimitError error then onRateLimitHit now (fields w) else fields w
    end.
Proof.
  destruct o as [result | error]; [reflexivity |].
  unfold executeRequestWithRetry.
  destruct (isRateLimitError error); [destruct (rc <? maxRetries) |]; reflexivity.
Qed.

Lemma executeRequestWithRetry_queue_logs
    (now : Z) (request : QueuedRequest) (rc : Z) (o : Settled string) (w : World) :
  let w' := executeRequestWithRetry now request rc o w in
  queue (fields w') = queue (fields w) /\ pushLog w' = pushLog w /\
  startLog w' = startLog w /\ inFlight w' = inFlight w.
Proof.
  cbv zeta. unfold executeRequestWithRetry.
  destruct o as [result | error].
  - unfold onRequestSuccess. cbn.
    destruct (_ && _); [destruct (Qlt_le_dec _ _) |]; cbn; repeat split.
  - destruct (isRateLimitError error); [destruct (rc <? maxRetries) |];
      cbn; repeat split.
Qed.

Lemma finallyCallback_fields (now : Z) (w : World) :
  let w' := finallyCallback now w in
  queue (fields w') = queue (fields w) /\
  minInterval (fields w') = minInterval (fields w) /\
  successfulRequests (fields w') = successfulRequests (fields w) /\
  inFlight w' = inFlight w /\ retryTimers w' = retryTimers w /\
  settledLog w' = settledLog w /\ pushLog w' = pushLog w /\ startLog w' = startLog w.
Proof.
  cbv zeta. unfold finallyCallback.
  destruct (scheduleNextProcessing_timer_only now
              (with_fields w
                 {| queue := queue (fields w);
                    lastApiCallStart := lastApiCallStart (fields w);
                    minInterval := minInterval (fields w);
                    activeRequests := activeRequests (fields w) - 1;
                    rateLimitHits := rateLimitHits (fields w);
                    lastRateLimitTime := lastRateLimitTime (fields w);
                    successfulRequests := successfulRequests (fields w);
                    processingTimer := processingTimer (fields w) |}))
    as (t & -> & _).
  cbn. repeat split.
Qed.

(** What one turn of the event loop does to [minInterval] and to the
    success streak. *)
Lemma step_pacing (w w' : World) (e : Event) :
  step w e = Some w' ->
  match e with
  | ExecuteSettles now _ o =>
      minInterval (fields w') =
        minInterval (match o with
                     | Fulfilled _ => onRequestSuccess (fields w)
                     | Rejected error =>
                         if isRateLimitError error
                         then onRateLimitHit now (fields w) else fields w
                     end) /\
      successfulRequests (fields w') =
        successfulRequests (match o with
                            | Fulfilled _ => onRequestSuccess (fields w)
                            | Rejected error =>
                                if isRateLimitError error
                                then onRateLimitHit now (fields w) else fields w
                            end)
  | _ => minInterval (fields w') = minInterval (fields w)
  end.
Proof.
  intros Hs. destruct e as [now rid | now | now which o | now which]; cbn in Hs.
  - injection Hs as <-.
    destruct (step_scheduled_fields now (push {| id := rid; timestamp := now |} w))
      as (_ & -> & _). reflexivity.
  - destruct (processingTimer (fields w)) as [due |]; [| discriminate].
    destruct (due <=? now); [| discriminate]. injection Hs as <-.
    unfold processNextRequest. cbn -[scheduleNextProcessing].
    destruct (queue (fields w)); [reflexivity |].
    destruct (_ >=? _); [reflexivity |].
    match goal with
    | |- context [scheduleNextProcessing now ?v] =>
        destruct (step_scheduled_fields now v) as (_ & -> & _)
    end. reflexivity.
  - destruct (take_nth which (inFlight w)) as [[[request rc] others] |]; [| discriminate].
    injection Hs as <-.
    match goal with
    | |- context [finallyCallback now ?v] =>
        destruct (finallyCallback_fields now v) as (_ & -> & -> & _)
    end.
    rewrite executeRequestWithRetry_fields. split; reflexivity.
  - destruct (take_nth which (retryTimers w)) as [[[due request] others] |]; [| discriminate].
    destruct (due <=? now); [| discriminate]. injection Hs as <-.
    match goal with
    | |- context [scheduleNextProcessing now ?v] =>
        destruct (step_scheduled_fields now v) as (_ & -> & _)
    end. reflexivity.
Qed.

Lemma half_up_three_halves (x : Z) : Math_round (inject_Z x * (3 # 2)) = (3 * x + 1) / 2.
Proof.
  rewrite Math_round_scaled.
  replace (2 * 3 * x + 2) with (2 * (3 * x + 1)) by ring.
  apply Z.div_mul_cancel_l; lia.
Qed.

Lemma half_up_three_quarters (x : Z) : Math_round (inject_Z x * (3 # 4)) = (3 * x + 2) / 4.
Proof.
  rewrite Math_round_scaled.
  replace (2 * 3 * x + 4) with (2 * (3 * x + 2)) by ring.
  apply Z.div_mul_cancel_l; lia.
Qed.

(** C6: every turn of the event loop leaves [minInterval] within
    [baseInterval, maxInterval]; a rate-limit rejection never lowers it
    (it becomes 1.5 times the old value, rounded, capped at [maxInterval])
    and resets the success streak; a success never raises it, and lowers it
    (to 0.75 times the old value, rounded, floored at [baseInterval]) exactly
    when the streak has reached 3 and the interval is above the floor; no
    other event changes it. *)
Theorem adaptive_interval_monotone_within_bounds (w w' : World) (e : Event) :
  reachable w -> step w e = Some w' ->
  let x := minInterval (fields w) in
  let x' := minInterval (fields w') in
  baseInterval <= x' <= maxInterval /\
  match e with
  | ExecuteSettles _ _ (Rejected error) =>
      if isRateLimitError error
      then x <= x' /\
           x' = Z.min (Math_round (inject_Z x * (3 # 2))) maxInterval /\
           successfulRequests (fields w') = 0
      else x' = x
  | ExecuteSettles _ _ (Fulfilled _) =>
      x' <= x /\
      if (successfulRequests (fields w) + 1 >=? 3) && (x >? baseInterval)
      then x' = Z.max (Math_round (inject_Z x * (3 # 4))) baseInterval /\
           successfulRequests (fields w') = 0
      else x' = x /\ successfulRequests (fields w') = successfulRequests (fields w) + 1
  | _ => x' = x
  end.
Proof.
  intros Hr Hs. cbv zeta.
  pose proof (reachable_invariant _ Hr) as Hinv.
  pose proof (invariant_step _ _ _ Hinv Hs) as Hinv'.
  split; [apply Hinv' |].
  destruct Hinv as (_ & _ & _ & _ & Hb).
  pose proof (step_pacing _ _ _ Hs) as Hp.
  destruct e as [now rid | now | now which [result | error] | now which];
    try exact Hp.
  - destruct Hp as [-> ->]. split; [apply onRequestSuccess_bounds, Hb |].
    rewrite onRequestSuccess_minInterval, onRequestSuccess_successfulRequests,
      half_up_three_quarters.
    destruct (_ && _); split; reflexivity.
  - destruct (isRateLimitError error); [| apply Hp].
    destruct Hp as [-> ->]. split; [apply onRateLimitHit_bounds, Hb |].
    rewrite onRateLimitHit_minInterval, half_up_three_halves. split; reflexivity.
Qed.

Lemma firstCallRunning_reachable : reachable firstCallRunning.
Proof.
  apply (run_reachable [AddToQueue 0 "2025-07-26-8000105-8011160";
                        ProcessingTimerFires 30000] initialWorld).
  - exact reachable_init.
  - reflexivity.
Qed.

Lemma adaptive_interval_witness :
  baseInterval <= minInterval (fields firstCallRejected) <= maxInterval /\
  minInterval (fields firstCallRunning) <= minInterval (fields firstCallRejected).
Proof.
  pose proof (adaptive_interval_monotone_within_bounds
                firstCallRunning firstCallRejected (ExecuteSettles 30200 0 rejection429)
                firstCallRunning_reachable eq_refl) as H.
  cbv zeta in H. destruct H as [Hbounds Hstep].
  split; [exact Hbounds | apply Hstep].
Defined.

(** C9: in every state the limiter can reach, at most one call is running
    ([activeRequests], which counts the suspended calls, is at most 1), and
    the calls started so far followed by the calls still queued are exactly
    the sequence of all pushes, i.e. calls start in the order in which they
    were put into the queue; a turn of the event loop either starts nothing
    and adds at most one request at the tail of the queue (a new call, or a
    rejected call being re-queued), or starts the request at the head of the
    queue, and then only while no other call is running. *)
Theorem single_slot_fifo_admission (w : World) :
  reachable w ->
  activeRequests (fields w) <= 1 /\
  activeRequests (fields w) = Z.of_nat (List.length (inFlight w)) /\
  pushLog w = (startLog w ++ queue (fields w))%list /\
  forall (e : Event) (w' : World),
    step w e = Some w' ->
    (startLog w' = startLog w /\
     (queue (fields w') = queue (fields w) \/
      exists r, queue (fields w') = (queue (fields w) ++ [r])%list)) \/
    (exists r, queue (fields w) = r :: queue (fields w') /\
               startLog w' = (startLog w ++ [r])%list /\
               inFlight w = [] /\ inFlight w' = [(r, 0)]).
Proof.
  intros Hr. pose proof (reachable_invariant _ Hr) as (Ha & Hb & Hc & Hd & He).
  split; [exact Hb |]. split; [exact Ha |]. split; [exact Hc |].
  intros e w' Hs.
  destruct e as [now rid | now | now which o | now which]; cbn in Hs.
  - injection Hs as <-. left.
    destruct (step_scheduled_fields now (push {| id := rid; timestamp := now |} w))
      as (-> & _ & _ & _ & _ & _ & _ & ->).
    split; [reflexivity |]. right. eexists. reflexivity.
  - destruct (processingTimer (fields w)) as [due |]; [| discriminate].
    destruct (due <=? now); [| discriminate]. injection Hs as <-.
    unfold processNextRequest. cbn -[scheduleNextProcessing].
    destruct (queue (fields w)) as [| request rest] eqn:Eq;
      [left; split; [reflexivity | left; cbn; congruence] |].
    destruct (_ >=? _) eqn:Eact;
      [left; split; [reflexivity | left; cbn; congruence] |].
    right. exists request.
    match goal with
    | |- context [scheduleNextProcessing now ?v] =>
        destruct (step_scheduled_fields now v) as (-> & _ & _ & -> & _ & _ & _ & ->)
    end.
    cbn. rewrite Z.geb_leb in Eact. apply Z.leb_gt in Eact.
    unfold maxConcurrentRequests in Eact.
    assert (Hnil : inFlight w = []).
    { revert Ha. destruct (inFlight w); intros Ha;
        [reflexivity | cbn [List.length] in Ha; lia]. }
    rewrite Hnil. repeat split.
  - destruct (take_nth which (inFlight w)) as [[[request rc] others] |]; [| discriminate].
    injection Hs as <-. left.
    match goal with
    | |- context [finallyCallback now ?v] =>
        destruct (finallyCallback_fields now v) as (-> & _ & _ & _ & _ & _ & _ & ->)
    end.
    match goal with
    | |- context [executeRequestWithRetry now request rc o ?v] =>
        destruct (executeRequestWithRetry_queue_logs now request rc o v)
          as (-> & _ & -> & _)
    end.
    split; [reflexivity | left; reflexivity].
  - destruct (take_nth which (retryTimers w)) as [[[due request] others] |]; [| discriminate].
    destruct (due <=? now); [| discriminate]. injection Hs as <-. left.
    match goal with
    | |- context [scheduleNextProcessing now ?v] =>
        destruct (step_scheduled_fields now v) as (-> & _ & _ & _ & _ & _ & _ & ->)
    end.
    split; [reflexivity |]. right. eexists. reflexivity.
Qed.

Lemma single_slot_fifo_witness :
  activeRequests (fields firstCallRunning) <= 1 /\
  pushLog firstCallRunning
    = (startLog firstCallRunning ++ queue (fields firstCallRunning))%list.
Proof.
  destruct (single_slot_fifo_admission firstCallRunning firstCallRunning_reachable)
    as (Hslot & _ & Hfifo & _).
  split; [exact Hslot | exact Hfifo].
Defined.

(** Whatever the history, a call rejected with a rate-limit error is given a
    re-queue timer of 2000 ms and is not rejected: the retry ceiling is never
    reached, because every call runs with [retryCount = 0]. *)
Lemma rate_limited_call_is_always_requeued
    (w w' : World) (now : Z) (which : nat) (error : Thrown) :
  reachable w -> isRateLimitError error = true ->
  step w (ExecuteSettles now which (Rejected error)) = Some w' ->
  settledLog w' = settledLog w /\
  exists request, retryTimers w' = (retryTimers w ++ [(now + 2000, request)])%list.
Proof.
  intros Hr Herr Hs. pose proof (reachable_invariant _ Hr) as (_ & _ & _ & Hd & _).
  cbn in Hs.
  destruct (take_nth which (inFlight w)) as [[[request rc] others] |] eqn:Et;
    [| discriminate].
  injection Hs as <-.
  destruct (take_nth_spec _ _ _ _ Et) as [_ HF].
  destruct (HF _ Hd) as [Hrc _]. cbn in Hrc. subst rc.
  match goal with
  | |- context [finallyCallback now ?v] =>
      destruct (finallyCallback_fields now v) as (_ & _ & _ & _ & -> & -> & _)
  end.
  unfold executeRequestWithRetry. rewrite Herr. cbn.
  split; [reflexivity | exists request; reflexivity].
Qed.

(** C1: the claim asks for at most 3 attempts with delays growing as
    [2000 * 2^retryCount] and a terminal failure afterwards. Evaluated on a
    call that is rejected with HTTP 429 each time: after the fifth rejection
    the call has been started 5 times, its promise has not been rejected,
    and it waits for a re-queue timer whose delay is again
    [calculateRetryDelay 0 = 2000]. *)
Theorem rate_limited_call_retried_beyond_ceiling :
  exists w request,
    run initialWorld (always429 4) = Some w /\
    List.length (startLog w) = 5%nat /\
    settledLog w = [] /\
    retryTimers w = [(150200 + calculateRetryDelay 0, request)] /\
    calculateRetryDelay 0 = 2000 /\ calculateRetryDelay 4 = 8000.
Proof.
  eexists. eexists. vm_compute. repeat split.
Qed.

Lemma scheduleNextProcessing_timer (now : Z) (w : World) :
  invariant w ->
  (forall due, processingTimer (fields w) = Some due ->
     inFlight w = [] /\ queue (fields w) <> [] /\
     lastApiCallStart (fields w) + minInterval (fields w) <= due) ->
  timerInvariant (scheduleNextProcessing now w).
Proof.
  intros (Ha & Hb & _) Htimer. unfold scheduleNextProcessing, timerInvariant.
  destruct (processingTimer (fields w)) as [due |] eqn:Et.
  - rewrite Et. split; [discriminate |]. intros d Hd. injection Hd as <-.
    exact (Htimer due eq_refl).
  - destruct (queue (fields w)) as [| r rest] eqn:Eq.
    + rewrite Et, Eq. split; [intros H; contradiction | discriminate].
    + destruct (activeRequests (fields w) >=? maxConcurrentRequests) eqn:Ea.
      * rewrite Et, Eq. split; [| discriminate]. intros _ Hnil.
        rewrite Hnil in Ha. cbn in Ha. rewrite Z.geb_leb in Ea. apply Z.leb_le in Ea.
        unfold maxConcurrentRequests in Ea. lia.
      * cbn. rewrite Eq. split; [discriminate |]. intros d Hd. injection Hd as <-.
        rewrite Z.geb_leb in Ea. apply Z.leb_gt in Ea. unfold maxConcurrentRequests in Ea.
        split; [| split; [discriminate | lia]].
        destruct (inFlight w); [reflexivity | cbn [List.length] in Ha; lia].
Qed.

Lemma invariant_without_timer (t : option Z) (w : World) :
  invariant (setTimer t w) -> invariant w.
Proof. intros H. exact H. Qed.

Lemma timerInvariant_step (w w' : World) (e : Event) :
  invariant w -> timerInvariant w -> step w e = Some w' -> timerInvariant w'.
Proof.
  intros Hinv [Hidle Hpending] Hs.
  destruct e as [now rid | now | now which o | now which]; cbn in Hs.
  - injection Hs as <-. apply scheduleNextProcessing_timer.
    + apply invariant_push, Hinv.
    + cbn. intros due Hd. destruct (Hpending due Hd) as (H1 & H2 & H3).
      split; [exact H1 | split; [| exact H3]].
      intros E. apply app_eq_nil in E. destruct E as [_ E]. discriminate E.
  - destruct (processingTimer (fields w)) as [due |]; [| discriminate].
    destruct (due <=? now); [| discriminate]. injection Hs as <-.
    unfold processNextRequest. cbn -[scheduleNextProcessing].
    destruct (queue (fields w)) as [| request rest] eqn:Eq.
    + unfold timerInvariant. cbn. rewrite Eq. split; [intros H; contradiction | discriminate].
    + destruct (activeRequests (fields w) >=? maxConcurrentRequests) eqn:Ea.
      * destruct (Hpending due eq_refl) as (Hnil & _).
        destruct Hinv as (Ha & _). rewrite Hnil in Ha. cbn in Ha.
        rewrite Z.geb_leb in Ea. apply Z.leb_le in Ea.
        unfold maxConcurrentRequests in Ea. lia.
      * destruct Hinv as (Ha & _).
        unfold scheduleNextProcessing. cbn.
        assert (Hge : (activeRequests (fields w) + 1 >=? maxConcurrentRequests) = true).
        { rewrite Z.geb_leb. apply Z.leb_le. unfold maxConcurrentRequests. lia. }
        destruct rest; [| rewrite Hge]; unfold timerInvariant; cbn;
          (split; [intros _ E; apply app_eq_nil in E; destruct E as [_ E]; discriminate E
                  | discriminate]).
  - destruct (take_nth which (inFlight w)) as [[[request rc] others] |] eqn:Et;
      [| discriminate].
    pose proof Hs as Hs'. injection Hs as <-.
    assert (Hnone : processingTimer (fields w) = None).
    { destruct (processingTimer (fields w)) as [due |] eqn:E; [| reflexivity].
      destruct (Hpending due eq_refl) as (Hnil & _). rewrite Hnil in Et. discriminate Et. }
    unfold finallyCallback. apply scheduleNextProcessing_timer.
    + assert (Hstep : step w (ExecuteSettles now which o) = Some
                 (finallyCallback now
                    (executeRequestWithRetry now request rc o
                       {| fields := fields w; inFlight := others;
                          retryTimers := retryTimers w; settledLog := settledLog w;
                          pushLog := pushLog w; startLog := startLog w |})))
        by (cbn; rewrite Et; reflexivity).
      pose proof (invariant_step _ _ _ Hinv Hstep) as Hinv'.
      unfold finallyCallback in Hinv'.
      match type of Hinv' with
      | invariant (scheduleNextProcessing now ?v) =>
          destruct (scheduleNextProcessing_timer_only now v) as (t & Ht & _);
          rewrite Ht in Hinv'; exact (invariant_without_timer t v Hinv')
      end.
    + cbn. rewrite executeRequestWithRetry_fields.
      intros due Hd. exfalso.
      destruct o as [result | error]; cbn in Hd.
      * unfold onRequestSuccess in Hd.
        destruct (_ && _) in Hd; [destruct (Qlt_le_dec _ _) in Hd |]; cbn in Hd; congruence.
      * destruct (isRateLimitError error); cbn in Hd; congruence.
  - destruct (take_nth which (retryTimers w)) as [[[due request] others] |] eqn:Et;
      [| discriminate].
    destruct (due <=? now); [| discriminate]. injection Hs as <-.
    apply scheduleNextProcessing_timer.
    + apply invariant_push. exact Hinv.
    + cbn. intros d Hd. destruct (Hpending d Hd) as (H1 & H2 & H3).
      split; [exact H1 | split; [| exact H3]].
      intros E. apply app_eq_nil in E. destruct E as [_ E]. discriminate E.
Qed.

Lemma reachable_timerInvariant (w : World) : reachable w -> timerInvariant w.
Proof.
  induction 1 as [| w e w' Hr IH Hs].
  - unfold timerInvariant. cbn. split; [intros H; contradiction | discriminate].
  - exact (timerInvariant_step _ _ _ (reachable_invariant _ Hr) IH Hs).
Qed.

Lemma firstCallQueued_reachable : reachable firstCallQueued.
Proof.
  apply (reachable_step initialWorld (AddToQueue 0 "2025-07-26-8000105-8011160")).
  - exact reachable_init.
  - reflexivity.
Qed.

(** X1: in every state the limiter can reach, a firing of the processing
    timer starts exactly the head of the queue, and not earlier than
    [minInterval] after the previous start: the time of the start is at
    least [lastApiCallStart + minInterval], and it becomes the new
    [lastApiCallStart]. *)
Theorem starts_are_paced (w w' : World) (now : Z) :
  reachable w -> step w (ProcessingTimerFires now) = Some w' ->
  exists request rest,
    queue (fields w) = request :: rest /\
    queue (fields w') = rest /\
    startLog w' = (startLog w ++ [request])%list /\
    lastApiCallStart (fields w) + minInterval (fields w) <= now /\
    lastApiCallStart (fields w') = now.
Proof.
  intros Hr Hs. pose proof (reachable_timerInvariant _ Hr) as [_ Hpending].
  pose proof (reachable_invariant _ Hr) as (Ha & _).
  cbn in Hs. destruct (processingTimer (fields w)) as [due |]; [| discriminate].
  destruct (Hpending due eq_refl) as (Hnil & Hq & Hdue).
  destruct (due <=? now) eqn:Enow; [| discriminate]. apply Z.leb_le in Enow.
  injection Hs as <-. unfold processNextRequest. cbn -[scheduleNextProcessing].
  destruct (queue (fields w)) as [| request rest]; [contradiction |].
  rewrite Hnil in Ha. cbn in Ha. rewrite Ha. cbn -[scheduleNextProcessing].
  exists request, rest. split; [reflexivity |].
  match goal with
  | |- context [scheduleNextProcessing now ?v] =>
      destruct (scheduleNextProcessing_timer_only now v) as (t & -> & _)
  end.
  cbn. repeat split. lia.
Qed.

Lemma starts_are_paced_witness :
  lastApiCallStart (fields firstCallQueued) + minInterval (fields firstCallQueued) <= 30000.
Proof.
  destruct (starts_are_paced firstCallQueued firstCallRunning 30000
              firstCallQueued_reachable eq_refl)
    as (request & rest & _ & _ & _ & Hpaced & _).
  exact Hpaced.
Defined.

(** X2: in every reachable state, calls that wait while no call is running
    have a processing timer pending, and a pending timer means that no call
    is running and the queue is not empty. So the queue never stalls, and no
    timer fires for nothing. *)
Theorem waiting_calls_are_scheduled (w : World) :
  reachable w ->
  (queue (fields w) <> [] ->
   activeRequests (fields w) < maxConcurrentRequests ->
   exists due, processingTimer (fields w) = Some due) /\
  (forall due, processingTimer (fields w) = Some due ->
     activeRequests (fields w) = 0 /\ queue (fields w) <> []).
Proof.
  intros Hr. pose proof (reachable_timerInvariant _ Hr) as [Hidle Hpending].
  pose proof (reachable_invariant _ Hr) as (Ha & _). split.
  - intros Hq Hfree. unfold maxConcurrentRequests in Hfree.
    assert (Hnil : inFlight w = []).
    { revert Ha. destruct (inFlight w); intros Ha;
        [reflexivity | cbn [List.length] in Ha; lia]. }
    destruct (processingTimer (fields w)) as [due |] eqn:E; [exists due; reflexivity |].
    exfalso. exact (Hidle Hq Hnil eq_refl).
  - intros due Hd. destruct (Hpending due Hd) as (Hnil & Hq & _).
    rewrite Hnil in Ha. split; [exact Ha | exact Hq].
Qed.

Lemma waiting_calls_are_scheduled_witness :
  exists due, processingTimer (fields firstCallQueued) = Some due.
Proof.
  destruct (waiting_calls_are_scheduled firstCallQueued firstCallQueued_reachable)
    as [Hidle _].
  apply Hidle.
  - discriminate.
  - reflexivity.
Defined.

Lemma executeRequestWithRetry_accounted
    (now : Z) (request : QueuedRequest) (rc : Z) (o : Settled string) (w : World) :
  let w' := executeRequestWithRetry now request rc o w in
  (List.length (retryTimers w') + List.length (settledLog w')
   = S (List.length (retryTimers w) + List.length (settledLog w)))%nat.
Proof.
  cbv zeta. unfold executeRequestWithRetry.
  destruct o as [result | error].
  - cbn. rewrite length_app. cbn. lia.
  - destruct (isRateLimitError error); [destruct (rc <? maxRetries) |];
      cbn; rewrite length_app; cbn; lia.
Qed.

Lemma step_accountedFor (w w' : World) (e : Event) :
  step w e = Some w' ->
  accountedFor w' = (accountedFor w + submitted [e])%nat.
Proof.
  intros Hs. unfold accountedFor.
  destruct e as [now rid | now | now which o | now which]; cbn in Hs.
  - injection Hs as <-.
    destruct (step_scheduled_fields now (push {| id := rid; timestamp := now |} w))
      as (-> & _ & _ & -> & -> & -> & _).
    cbn. rewrite length_app. cbn. lia.
  - destruct (processingTimer (fields w)) as [due |]; [| discriminate].
    destruct (due <=? now); [| discriminate]. injection Hs as <-.
    unfold processNextRequest. cbn -[scheduleNextProcessing].
    destruct (queue (fields w)) as [| request rest] eqn:Eq; [cbn; rewrite Eq; cbn; lia |].
    destruct (_ >=? _); [cbn; rewrite Eq; cbn; lia |].
    match goal with
    | |- context [scheduleNextProcessing now ?v] =>
        destruct (step_scheduled_fields now v) as (-> & _ & _ & -> & -> & -> & _)
    end.
    cbn. rewrite length_app. cbn. lia.
  - destruct (take_nth which (inFlight w)) as [[[request rc] others] |] eqn:Et;
      [| discriminate].
    injection Hs as <-. destruct (take_nth_spec _ _ _ _ Et) as [Hlen _].
    match goal with
    | |- context [finallyCallback now ?v] =>
        destruct (finallyCallback_fields now v) as (-> & _ & _ & -> & -> & -> & _)
    end.
    match goal with
    | |- context [executeRequestWithRetry now request rc o ?v] =>
        destruct (executeRequestWithRetry_queue_logs now request rc o v)
          as (-> & _ & _ & ->);
        pose proof (executeRequestWithRetry_accounted now request rc o v) as Hacc
    end.
    cbv zeta in Hacc. cbn in *. lia.
  - destruct (take_nth which (retryTimers w)) as [[[due request] others] |] eqn:Et;
      [| discriminate].
    destruct (due <=? now); [| discriminate]. injection Hs as <-.
    destruct (take_nth_spec _ _ _ _ Et) as [Hlen _].
    match goal with
    | |- context [scheduleNextProcessing now ?v] =>
        destruct (step_scheduled_fields now v) as (-> & _ & _ & -> & -> & -> & _)
    end.
    cbn. rewrite length_app. cbn. lia.
Qed.

Lemma submitted_cons (e : Event) (es : list Event) :
  submitted (e :: es) = (submitted [e] + submitted es)%nat.
Proof. destruct e; reflexivity. Qed.

Lemma run_accountedFor (es : list Event) (w w' : World) :
  run w es = Some w' -> accountedFor w' = (accountedFor w + submitted es)%nat.
Proof.
  revert w. induction es as [| e es IH]; intros w Hr.
  - cbn in Hr. injection Hr as <-. cbn. lia.
  - cbn [run] in Hr. destruct (step w e) as [w1 |] eqn:Es; [| discriminate].
    rewrite (IH _ Hr), (step_accountedFor _ _ _ Es), (submitted_cons e es). lia.
Qed.

(** X3: no call is lost or duplicated. After any run of events, the number
    of calls handed to [addToQueue] equals the [queueSize] and the
    [activeRequests] of [getQueueStatus] plus the pending re-queue timers
    plus the calls already resolved or rejected. *)
Theorem no_call_is_lost (es : list Event) (w : World) :
  run initialWorld es = Some w ->
  let status := getQueueStatus (fields w) in
  Z.of_nat (submitted es) =
    QueueStatus.queueSize status + QueueStatus.activeRequests status
    + Z.of_nat (List.length (retryTimers w)) + Z.of_nat (List.length (settledLog w)).
Proof.
  intros Hr. cbv zeta.
  pose proof (run_accountedFor es initialWorld w Hr) as Hacc.
  pose proof (reachable_invariant w (run_reachable es initialWorld w reachable_init Hr))
    as (Ha & _).
  unfold accountedFor in Hacc. cbn in Hacc. cbn. rewrite Ha. lia.
Qed.

Lemma no_call_is_lost_witness :
  Z.of_nat (submitted (always429 1)) =
    QueueStatus.queueSize (getQueueStatus (fields firstCallRejected))
    + QueueStatus.activeRequests (getQueueStatus (fields firstCallRejected))
    + Z.of_nat (List.length (retryTimers firstCallRejected))
    + Z.of_nat (List.length (settledLog firstCallRejected)).
Proof.
  exact (no_call_is_lost
           [AddToQueue 0 "2025-07-26-8000105-8011160"; ProcessingTimerFires 30000;
            ExecuteSettles 30200 0 rejection429]
           firstCallRejected eq_refl).
Defined.

Lemma prefix_spec (sub s : string) :
  String.prefix sub s = true <-> exists post, s = sub ++ post.
Proof.
  revert s. induction sub as [| c sub IH]; intros s.
  - split; [intros _; exists s; reflexivity | intros _; destruct s; reflexivity].
  - destruct s as [| d s]; cbn.
    + split; [discriminate | intros [post H]; discriminate].
    + destruct (ascii_dec c d) as [-> | Hne].
      * rewrite IH. split; intros [post H]; exists post.
        -- now rewrite H.
        -- now injection H.
      * split; [discriminate | intros [post H]; injection H as H1 _; congruence].
Qed.

Lemma includes_spec (sub s : string) :
  includes sub s = true <-> exists pre post, s = pre ++ sub ++ post.
Proof.
  induction s as [| c s IH]; cbn [includes]; rewrite orb_true_iff, prefix_spec.
  - split.
    + intros [[post H] | H]; [exists "", post; exact H | discriminate].
    + intros (pre & post & H). left. destruct pre; [exists post; exact H | discriminate].
  - rewrite IH. split.
    + intros [[post H] | (pre & post & H)].
      * exists "", post. exact H.
      * exists (String c pre), post. cbn. now rewrite H.
    + intros (pre & post & H). destruct pre as [| d pre].
      * left. exists post. exact H.
      * right. cbn in H. injection H as _ H. exists pre, post. exact H.
Qed.

(** X6: the rate-limit test of [executeRequestWithRetry] holds exactly of
    [Error] objects whose message contains the text 429 or the text
    Too Many Requests anywhere; a thrown value that is no [Error] is never a
    rate-limit error. *)
Theorem rate_limit_errors_are_recognised_by_substring (error : Thrown) :
  isRateLimitError error = true <->
  exists pre post,
    error = ThrownError (pre ++ "429" ++ post) \/
    error = ThrownError (pre ++ "Too Many Requests" ++ post).
Proof.
  destruct error as [message | description]; cbn [isRateLimitError].
  - rewrite orb_true_iff, !includes_spec. split.
    + intros [(pre & post & ->) | (pre & post & ->)]; exists pre, post; [left | right];
        reflexivity.
    + intros (pre & post & [H | H]); injection H as ->; [left | right];
        exists pre, post; reflexivity.
  - split; [discriminate | intros (pre & post & [H | H]); discriminate].
Qed.

(** X5: for a retry count that is not negative, [calculateRetryDelay] lies
    between 2000 and 8000 ms, never decreases with the count, doubles from
    one count to the next below count 2 and is 8000 ms from count 2 on. *)
Theorem retry_delay_doubles_up_to_eight_seconds (retryCount : Z) :
  0 <= retryCount ->
  2000 <= calculateRetryDelay retryCount <= 8000 /\
  calculateRetryDelay retryCount <= calculateRetryDelay (retryCount + 1) /\
  (retryCount < 2 -> calculateRetryDelay (retryCount + 1) = 2 * calculateRetryDelay retryCount) /\
  (2 <= retryCount -> calculateRetryDelay retryCount = 8000).
Proof.
  intros H. unfold calculateRetryDelay.
  assert (Hpos : 1 <= 2 ^ retryCount) by (apply Z.pow_pos_nonneg with (a := 2) in H; lia).
  assert (Hsucc : 2 ^ (retryCount + 1) = 2 * 2 ^ retryCount)
    by (rewrite Z.pow_add_r by lia; change (2 ^ 1) with 2; lia).
  assert (Hbig : 2 <= retryCount -> 4 <= 2 ^ retryCount).
  { intros H2. change 4 with (2 ^ 2). apply Z.pow_le_mono_r; lia. }
  assert (Hsmall : retryCount < 2 -> 2 ^ retryCount <= 2).
  { intros H2. change 2 with (2 ^ 1) at 2. apply Z.pow_le_mono_r; lia. }
  rewrite Hsucc. repeat split; intros; lia.
Qed.

Lemma retry_delay_witness :
  calculateRetryDelay 1 = 2 * calculateRetryDelay 0.
Proof.
  destruct (retry_delay_doubles_up_to_eight_seconds 0 (Z.le_refl 0)) as (_ & _ & Hd & _).
  apply Hd. reflexivity.
Defined.

(** X4: when [request.execute()] fulfils, or rejects with anything but a
    rate-limit error, the promise of the caller is settled in the same turn
    with exactly that outcome, no retry is scheduled, the slot is freed and
    the queue is left as it is; a rejection of this kind changes neither
    [minInterval] nor the count of successes. *)
Theorem ordinary_outcomes_settle_at_once
    (w w' : World) (now : Z) (which : nat) (o : Settled string) :
  (forall error, o = Rejected error -> isRateLimitError error = false) ->
  step w (ExecuteSettles now which o) = Some w' ->
  exists request retryCount others,
    take_nth which (inFlight w) = Some ((request, retryCount), others) /\
    settledLog w' = (settledLog w ++ [(request, o)])%list /\
    retryTimers w' = retryTimers w /\
    inFlight w' = others /\
    queue (fields w') = queue (fields w) /\
    activeRequests (fields w') = activeRequests (fields w) - 1 /\
    (forall error, o = Rejected error ->
       minInterval (fields w') = minInterval (fields w) /\
       successfulRequests (fields w') = successfulRequests (fields w)).
Proof.
  intros Hord Hs. cbn -[finallyCallback executeRequestWithRetry] in Hs.
  destruct (take_nth which (inFlight w)) as [[[request rc] others] |]; [| discriminate].
  injection Hs as <-. exists request, rc, others. split; [reflexivity |].
  unfold finallyCallback.
  match goal with
  | |- context [scheduleNextProcessing now ?v] =>
      destruct (scheduleNextProcessing_timer_only now v) as (t & -> & _)
  end.
  destruct o as [result | error].
  - cbn. unfold onRequestSuccess.
    destruct (_ && _); [destruct (Qlt_le_dec _ _) |]; cbn; repeat split; discriminate.
  - unfold executeRequestWithRetry. rewrite (Hord error eq_refl).
    cbn. repeat split.
Qed.

Lemma ordinary_outcomes_witness :
  settledLog firstCallAnswered =
    [({| id := "2025-07-26-8000105-8011160"; timestamp := 0 |},
      Fulfilled "{ intervalle: [] }")].
Proof.
  destruct (ordinary_outcomes_settle_at_once firstCallRunning firstCallAnswered 30200 0
              (Fulfilled "{ intervalle: [] }"))
    as (request & rc & others & Htake & Hlog & _).
  - discriminate.
  - reflexivity.
  - injection Htake as <- _ _. exact Hlog.
Defined.

Lemma run_app (es1 es2 : list Event) (w : World) :
  run w (es1 ++ es2) =
    match run w es1 with
    | Some w1 => run w1 es2
    | None => None
    end.
Proof.
  revert w. induction es1 as [| e es1 IH]; intros w; [reflexivity |].
  cbn [app run]. destruct (step w e); [apply IH | reflexivity].
Qed.

Lemma always429_succ (n : nat) :
  always429 (S n) =
    (always429 n ++
     [RetryTimerFires (30000 * Z.of_nat n + 50000) 0;
      ProcessingTimerFires (30000 * Z.of_nat n + 60000);
      ExecuteSettles (30000 * Z.of_nat n + 60200) 0 rejection429])%list.
Proof.
  unfold always429. rewrite seq_S, flat_map_app. cbn [flat_map Nat.add app].
  reflexivity.
Qed.

(** One more attempt of a call that is answered with HTTP 429 again. *)
Lemma awaitingRetry_round (k : nat) (w : World) :
  awaitingRetry k w ->
  exists w',
    run w [RetryTimerFires (30000 * Z.of_nat k + 50000) 0;
           ProcessingTimerFires (30000 * Z.of_nat k + 60000);
           ExecuteSettles (30000 * Z.of_nat k + 60200) 0 rejection429] = Some w' /\
    awaitingRetry (S k) w'.
Proof.
  intros (Hq & Hin & Ht & Ha & Hs & Hl & (due & request & Hr & Hdue) & Hlast & Hmin).
  destruct w as [[q last minI act hits lastRL succ timer] inF retries settled pushes starts].
  cbn [fields queue inFlight processingTimer activeRequests settledLog startLog
       retryTimers lastApiCallStart minInterval] in *.
  subst q inF timer act settled retries.
  remember (30000 * Z.of_nat k) as t eqn:Et.
  unfold maxInterval, baseInterval in *.
  cbn [run step retryTimers take_nth].
  replace (due <=? t + 50000) with true by (symmetry; apply Z.leb_le; lia).
  unfold maxConcurrentRequests.
  cbn -[Z.mul Z.add Z.sub Z.max Z.leb Math_round Qmin inject_Z].
  rewrite Z.max_l by lia. rewrite Z.add_0_r.
  replace (t + 50000 <=? t + 60000) with true by (symmetry; apply Z.leb_le; lia).
  cbn -[Z.mul Z.add Z.sub Z.max Z.leb Math_round Qmin inject_Z].
  eexists. split; [reflexivity |].
  pose proof (onRateLimitHit_bounds (t + 60200)
                {| queue := []; lastApiCallStart := t + 60000; minInterval := minI;
                   activeRequests := 0 + 1; rateLimitHits := hits;
                   lastRateLimitTime := lastRL; successfulRequests := succ;
                   processingTimer := None |}) as Hb.
  unfold maxInterval, baseInterval in Hb.
  cbn -[Z.mul Z.add Z.sub Math_round Qmin inject_Z] in Hb. specialize (Hb Hmin).
  change (calculateRetryDelay 0) with 2000.
  unfold awaitingRetry, addRetryTimer, with_fields.
  cbn -[Z.mul Z.add Z.sub Z.of_nat Math_round Qmin inject_Z Z.pow].
  unfold maxInterval, baseInterval in *.
  rewrite Nat2Z.inj_succ.
  repeat match goal with |- _ /\ _ => split end;
    try reflexivity; try lia.
  - rewrite length_app, Hl. cbn [Datatypes.length]. rewrite Nat.add_1_r. reflexivity.
  - eexists _, _. split; [reflexivity |]. lia.
Qed.

(** After the first attempt. *)
Lemma awaitingRetry_first :
  exists w, run initialWorld (always429 0) = Some w /\ awaitingRetry 0 w.
Proof.
  eexists. split; [vm_compute; reflexivity |].
  unfold awaitingRetry.
  repeat match goal with |- _ /\ _ => split end; try (vm_compute; congruence).
  - eexists _, _. split; [vm_compute; reflexivity |]. vm_compute. congruence.
Qed.

(** A call that is answered with HTTP 429 each time is started again and
    again and never settled. *)
Lemma always429_awaitingRetry (n : nat) :
  exists w, run initialWorld (always429 n) = Some w /\ awaitingRetry n w.
Proof.
  induction n as [| n (w & Hrun & Hw)]; [exact awaitingRetry_first |].
  destruct (awaitingRetry_round n w Hw) as (w' & Hround & Hw').
  exists w'. split; [| exact Hw'].
  rewrite always429_succ, run_app, Hrun. exact Hround.
Qed.
End RateLimiterFacts.

(* ===================================================================== *)
(** ** The result cache *)
(* ===================================================================== *)

Module ResultCacheFacts.
Import JS ResultCache AssocFacts CacheDefs.

Lemma delete_oldest (oldestKey : CacheKey) (oldestEntry : CacheEntry) (rest : Cache) :
  delete oldestKey ((oldestKey, oldestEntry) :: rest) = rest.
Proof.
  unfold delete. cbn. destruct (KeyParams.eq_dec oldestKey oldestKey); congruence.
Qed.

Lemma size_set (cacheKey : CacheKey) (entry : CacheEntry) (cache : Cache) :
  size (set cacheKey entry cache) =
    match get cacheKey cache with
    | Some _ => size cache
    | None => size cache + 1
    end.
Proof.
  unfold size, set, get. rewrite length_set. unfold CacheKey, Cache in *.
  destruct (Assoc.get KeyParams.eq_dec cacheKey cache); [reflexivity |].
  rewrite Nat2Z.inj_succ. lia.
Qed.

(** What [setCachedResult] does at capacity. *)
Lemma setCachedResult_at_capacity
    (now : Z) (cacheKey : CacheKey) (data : option TrainResults) (cache : Cache) :
  size cache >= MAX_CACHE_ENTRIES ->
  exists oldestKey oldestEntry rest,
    cache = (oldestKey, oldestEntry) :: rest /\
    setCachedResult now cacheKey data cache =
      set cacheKey {| data := data; timestamp := now; ttl := CACHE_TTL |} rest.
Proof.
  intros Hfull. unfold setCachedResult.
  destruct (size cache >=? MAX_CACHE_ENTRIES) eqn:E;
    [| rewrite Z.geb_leb in E; apply Z.leb_gt in E; lia].
  destruct cache as [| [oldestKey oldestEntry] rest].
  - unfold size, MAX_CACHE_ENTRIES in Hfull. cbn in Hfull. lia.
  - exists oldestKey, oldestEntry, rest. split; [reflexivity |].
    cbn [Assoc.keys map fst]. rewrite delete_oldest. reflexivity.
Qed.

Lemma setCachedResult_below_capacity
    (now : Z) (cacheKey : CacheKey) (data : option TrainResults) (cache : Cache) :
  size cache < MAX_CACHE_ENTRIES ->
  setCachedResult now cacheKey data cache =
    set cacheKey {| data := data; timestamp := now; ttl := CACHE_TTL |} cache.
Proof.
  intros Hlt. unfold setCachedResult.
  destruct (size cache >=? MAX_CACHE_ENTRIES) eqn:E; [| reflexivity].
  rewrite Z.geb_leb in E. apply Z.leb_le in E. lia.
Qed.

Lemma bounded_setCachedResult
    (now : Z) (cacheKey : CacheKey) (data : option TrainResults) (cache : Cache) :
  bounded cache -> bounded (setCachedResult now cacheKey data cache).
Proof.
  intros [Hsize Hnd].
  destruct (Z_lt_ge_dec (size cache) MAX_CACHE_ENTRIES) as [Hlt | Hge].
  - rewrite setCachedResult_below_capacity by exact Hlt. split.
    + rewrite size_set. destruct (get cacheKey cache); lia.
    + apply NoDup_keys_set, Hnd.
  - destruct (setCachedResult_at_capacity now cacheKey data cache Hge)
      as (k0 & e0 & rest & -> & ->).
    split.
    + rewrite size_set. unfold size in *. cbn [List.length] in Hsize.
      destruct (get cacheKey rest); lia.
    + apply NoDup_keys_set. cbn in Hnd. inversion Hnd; assumption.
Qed.

Lemma bounded_setCachedResults (calls : list SetCall) (cache : Cache) :
  bounded cache -> bounded (setCachedResults calls cache).
Proof.
  revert cache. induction calls as [| [[now cacheKey] data] calls IH]; intros cache H.
  - exact H.
  - cbn. apply IH, bounded_setCachedResult, H.
Qed.

(** X30: writes through [setCachedResult] alone keep the bound: after any
    sequence of [setCachedResult] calls on the empty cache the cache holds
    at most [MAX_CACHE_ENTRIES] entries, and so it does after one more call,
    which always leaves the new entry under its key. Below the bound that
    call evicts nothing. When it finds the entry count at the bound, the
    cache is its oldest-inserted entry followed by the rest, the key of that
    oldest entry occurs nowhere in the rest, and the call leaves the rest
    with the new entry written into it: exactly the oldest entry is evicted
    before the insertion. *)
Theorem writes_through_setCachedResult_keep_the_bound (calls : list SetCall) :
  let cache := setCachedResults calls [] in
  size cache <= MAX_CACHE_ENTRIES /\
  forall (now : Z) (cacheKey : CacheKey) (data : option TrainResults),
    let entry := {| data := data; timestamp := now; ttl := CACHE_TTL |} in
    let cache' := setCachedResult now cacheKey data cache in
    size cache' <= MAX_CACHE_ENTRIES /\
    get cacheKey cache' = Some entry /\
    (size cache < MAX_CACHE_ENTRIES -> cache' = set cacheKey entry cache) /\
    (size cache >= MAX_CACHE_ENTRIES ->
     exists oldestKey oldestEntry rest,
       cache = (oldestKey, oldestEntry) :: rest /\
       ~ In oldestKey (Assoc.keys rest) /\
       cache' = set cacheKey entry rest).
Proof.
  cbv zeta.
  assert (Hb : bounded (setCachedResults calls [])).
  { apply bounded_setCachedResults. split; [unfold size, MAX_CACHE_ENTRIES; cbn; lia | constructor]. }
  split; [apply Hb |]. intros now cacheKey data. split; [| split; [| split]].
  - apply (bounded_setCachedResult now cacheKey data _ Hb).
  - unfold setCachedResult, get, set. apply get_set_same.
  - intros Hlt. apply setCachedResult_below_capacity. exact Hlt.
  - intros Hfull.
    destruct (setCachedResult_at_capacity now cacheKey data _ Hfull)
      as (k0 & e0 & rest & Hc & Hs).
    exists k0, e0, rest. split; [exact Hc |]. split; [| exact Hs].
    destruct Hb as [_ Hnd]. rewrite Hc in Hnd. cbn in Hnd. inversion Hnd; assumption.
Qed.

(** C10: when [setCachedResult] is called at the capacity bound for a key
    that is already cached, it still removes the oldest-inserted entry first
    and then overwrites in place. A plain overwrite would have kept the entry
    count at the bound; instead, whenever the oldest key is another key, that
    entry is gone afterwards, whatever its age, the count has dropped by
    one, and every other entry is untouched. *)
Theorem overwrite_at_capacity_evicts_oldest
    (now : Z) (cacheKey : CacheKey) (data : option TrainResults) (cache : Cache) :
  NoDup (Assoc.keys cache) ->
  size cache = MAX_CACHE_ENTRIES ->
  get cacheKey cache <> None ->
  exists oldestKey oldestEntry rest,
    cache = (oldestKey, oldestEntry) :: rest /\
    let entry := {| data := data; timestamp := now; ttl := CACHE_TTL |} in
    let cache' := setCachedResult now cacheKey data cache in
    cache' = set cacheKey entry rest /\
    size (set cacheKey entry cache) = MAX_CACHE_ENTRIES /\
    (oldestKey <> cacheKey ->
     get oldestKey cache' = None /\
     size cache' = MAX_CACHE_ENTRIES - 1 /\
     forall k, k <> oldestKey -> k <> cacheKey -> get k cache' = get k cache).
Proof.
  intros Hnd Hsize Hin.
  destruct (setCachedResult_at_capacity now cacheKey data cache) as (k0 & e0 & rest & Hc & Hs);
    [lia |].
  exists k0, e0, rest. split; [exact Hc |]. cbv zeta. split; [exact Hs |].
  split.
  { rewrite size_set. destruct (get cacheKey cache); [exact Hsize | contradiction]. }
  intros Hne. rewrite Hs. subst cache.
  cbn in Hnd. inversion Hnd as [| ? ? Hnotin Hnd']; subst.
  assert (Hrest : get cacheKey rest <> None).
  { unfold get in *. cbn in Hin. destruct (KeyParams.eq_dec k0 cacheKey); [contradiction | exact Hin]. }
  split; [| split].
  - unfold get, set. rewrite get_set_other by congruence.
    apply get_None_iff. exact Hnotin.
  - rewrite size_set. destruct (get cacheKey rest); [| contradiction].
    unfold size in *. cbn [List.length] in Hsize. lia.
  - intros k Hk0 Hk. unfold get, set. rewrite get_set_other by congruence.
    cbn. destruct (KeyParams.eq_dec k0 k); [congruence | reflexivity].
Qed.

Lemma key_injective : Injective (fun i : nat => CacheScenario.key (Z.of_nat i)).
Proof.
  intros i j H. injection H as H. lia.
Qed.

Lemma fullCache_keys :
  Assoc.keys CacheScenario.fullCache =
    map (fun i => CacheScenario.key (Z.of_nat i)) (seq 0 (Z.to_nat MAX_CACHE_ENTRIES)).
Proof.
  unfold Assoc.keys, CacheScenario.fullCache. rewrite map_map. reflexivity.
Qed.

Lemma fullCache_NoDup : NoDup (Assoc.keys CacheScenario.fullCache).
Proof.
  rewrite fullCache_keys. apply Injective_map_NoDup; [exact key_injective | apply seq_NoDup].
Qed.

Lemma fullCache_size : size CacheScenario.fullCache = MAX_CACHE_ENTRIES.
Proof.
  unfold size, CacheScenario.fullCache. rewrite length_map, length_seq.
  apply Z2Nat.id. unfold MAX_CACHE_ENTRIES. lia.
Qed.

Lemma fullCache_has_key_7 : get (CacheScenario.key 7) CacheScenario.fullCache <> None.
Proof.
  unfold get. intros H. apply get_None_iff in H. apply H.
  pose proof fullCache_keys as E. unfold Assoc.keys, CacheKey in *. rewrite E. apply (in_map (fun i => CacheScenario.key (Z.of_nat i)) _ 7%nat).
  apply in_seq. unfold MAX_CACHE_ENTRIES. lia.
Qed.

Lemma fullCache_oldest :
  exists rest, CacheScenario.fullCache = (CacheScenario.key 0, CacheScenario.freshEntry) :: rest.
Proof.
  unfold CacheScenario.fullCache, MAX_CACHE_ENTRIES.
  change 100000 with (Z.succ 99999). rewrite Z2Nat.inj_succ by lia.
  eexists. reflexivity.
Qed.

(** In the full cache the entry of [key 0], stored at time 0 and valid for
    an hour, is lost when [key 7] is overwritten at time 5. *)
Lemma overwrite_at_capacity_witness :
  get (CacheScenario.key 0) CacheScenario.fullCache = Some CacheScenario.freshEntry /\
  5 - timestamp CacheScenario.freshEntry <= ttl CacheScenario.freshEntry /\
  let cache' := setCachedResult 5 (CacheScenario.key 7) None CacheScenario.fullCache in
  get (CacheScenario.key 0) cache' = None /\
  size cache' = MAX_CACHE_ENTRIES - 1.
Proof.
  destruct fullCache_oldest as [rest0 Hfull].
  destruct (overwrite_at_capacity_evicts_oldest 5 (CacheScenario.key 7) None
              CacheScenario.fullCache fullCache_NoDup fullCache_size fullCache_has_key_7)
    as (oldestKey & oldestEntry & rest & Hc & Hover).
  cbv zeta in Hover. destruct Hover as (_ & _ & Hevict).
  rewrite Hfull in Hc. injection Hc as <- <- <-.
  destruct Hevict as (Hgone & Hsize & _); [discriminate |].
  split; [rewrite Hfull; unfold get; cbn;
          destruct (KeyParams.eq_dec (CacheScenario.key 0) (CacheScenario.key 0));
          [reflexivity | contradiction] |].
  split; [cbn; unfold CACHE_TTL; lia |].
  cbv zeta. split; [exact Hgone | exact Hsize].
Defined.

Lemma get_setCachedResult
    (now : Z) (cacheKey : CacheKey) (data : option TrainResults) (cache : Cache) :
  get cacheKey (setCachedResult now cacheKey data cache)
    = Some {| data := data; timestamp := now; ttl := CACHE_TTL |}.
Proof. unfold setCachedResult, get, set. apply get_set_same. Qed.

(** X7: what [setCachedResult] stored is what [getCachedResult] returns for
    the same key up to and including 3 600 000 ms later, leaving the cache as
    it is; any later lookup returns null and removes that entry. *)
Theorem stored_day_is_served_for_one_hour
    (storeTime now : Z) (cacheKey : CacheKey) (data : option TrainResults) (cache : Cache) :
  bounded cache ->
  let stored := setCachedResult storeTime cacheKey data cache in
  (now - storeTime <= 3600000 -> getCachedResult now cacheKey stored = (data, stored)) /\
  (now - storeTime > 3600000 ->
     fst (getCachedResult now cacheKey stored) = None /\
     get cacheKey (snd (getCachedResult now cacheKey stored)) = None /\
     size (snd (getCachedResult now cacheKey stored)) = size stored - 1).
Proof.
  intros Hb. cbv zeta.
  pose proof (bounded_setCachedResult storeTime cacheKey data cache Hb) as [_ Hnd].
  pose proof (get_setCachedResult storeTime cacheKey data cache) as Hget.
  unfold getCachedResult. rewrite Hget. cbn [timestamp ttl ResultCache.data].
  change CACHE_TTL with 3600000. split; intros Hage.
  - destruct (now - storeTime >? 3600000) eqn:E; [apply Z.gtb_lt in E; lia | reflexivity].
  - destruct (now - storeTime >? 3600000) eqn:E;
      [| rewrite Z.gtb_ltb in E; apply Z.ltb_ge in E; lia].
    cbn [fst snd]. split; [reflexivity |]. split.
    + unfold get, delete. apply get_delete_same. exact Hnd.
    + revert Hget. generalize (setCachedResult storeTime cacheKey data cache) as c.
      intros c Hget. unfold size, get, delete in *. clear Hnd.
      induction c as [| [k0 v0] c IH]; cbn [Assoc.get Assoc.delete] in *; [discriminate |].
      destruct (KeyParams.eq_dec k0 cacheKey).
      * cbn [List.length]. rewrite Nat2Z.inj_succ. lia.
      * specialize (IH Hget). cbn [List.length]. rewrite !Nat2Z.inj_succ. lia.
Qed.

Lemma bounded_nil : bounded [].
Proof. split; [unfold size, MAX_CACHE_ENTRIES; cbn; lia | constructor]. Qed.

Lemma stored_day_witness :
  fst (getCachedResult 3600000 (CacheScenario.key 0)
         (setCachedResult 0 (CacheScenario.key 0)
            (Some (Prices.plainResult (2025, 7, 26) "Keine Intervalle gefunden!")) []))
    = Some (Prices.plainResult (2025, 7, 26) "Keine Intervalle gefunden!").
Proof.
  destruct (stored_day_is_served_for_one_hour 0 3600000 (CacheScenario.key 0)
              (Some (Prices.plainResult (2025, 7, 26) "Keine Intervalle gefunden!")) []
              bounded_nil) as [Hfresh _].
  rewrite Hfresh; [reflexivity | lia].
Defined.

(** X8: [getCachedResult] changes nothing but an expired entry of the key
    asked for: other keys are found as before, the cache never grows, it
    changes only when the answer is null because the entry was older than its
    [ttl], and an entry within its [ttl] (bound included) is returned with
    the cache unchanged. *)
Theorem lookup_touches_only_its_own_expired_entry
    (now : Z) (cacheKey : CacheKey) (cache : Cache) :
  let answer := getCachedResult now cacheKey cache in
  (forall other, other <> cacheKey -> get other (snd answer) = get other cache) /\
  size (snd answer) <= size cache /\
  (snd answer <> cache ->
     fst answer = None /\
     exists entry, get cacheKey cache = Some entry /\ now - timestamp entry > ttl entry) /\
  (forall entry, get cacheKey cache = Some entry -> now - timestamp entry <= ttl entry ->
     answer = (data entry, cache)).
Proof.
  cbv zeta. unfold getCachedResult.
  destruct (get cacheKey cache) as [entry |] eqn:Hget; cbn [fst snd].
  - destruct (now - timestamp entry >? ttl entry) eqn:E; cbn [fst snd].
    + apply Z.gtb_lt in E. split; [| split; [| split]].
      * intros other Hne. unfold get, delete. apply get_delete_other.
        intros H. apply Hne. symmetry. exact H.
      * unfold size, delete. apply Nat2Z.inj_le, length_delete_le.
      * intros _. split; [reflexivity |]. exists entry. split; [reflexivity | lia].
      * intros entry' Heq Hage. injection Heq as <-. lia.
    + split; [| split; [| split]].
      * reflexivity.
      * lia.
      * intros H. contradiction.
      * intros entry' Heq _. injection Heq as <-. reflexivity.
  - split; [| split; [| split]].
    + reflexivity.
    + lia.
    + intros H. contradiction.
    + intros entry' Heq. discriminate.
Qed.

(** X9: [cleanupCache] removes exactly the entries older than their [ttl]:
    every other entry is found as before, keys stay unique and the cache
    does not grow. *)
Theorem cleanup_removes_exactly_the_expired_entries (now : Z) (cache : Cache) :
  NoDup (Assoc.keys cache) ->
  NoDup (Assoc.keys (cleanupCache now cache)) /\
  size (cleanupCache now cache) <= size cache /\
  forall cacheKey,
    get cacheKey (cleanupCache now cache) =
      match get cacheKey cache with
      | Some entry => if now - timestamp entry >? ttl entry then None else Some entry
      | None => None
      end.
Proof.
  intros Hnd. unfold cleanupCache. split; [apply NoDup_keys_filter; exact Hnd |]. split.
  - unfold size. apply Nat2Z.inj_le. apply filter_length_le.
  - intros cacheKey. unfold get. rewrite get_filter by exact Hnd.
    unfold CacheKey, Cache in *.
    destruct (Assoc.get KeyParams.eq_dec cacheKey cache) as [entry |]; [| reflexivity].
    cbn [snd]. destruct (now - timestamp entry >? ttl entry); reflexivity.
Qed.

(** X10: a run of [cleanupCache] is invisible to later lookups:
    [getCachedResult] answers the same with or without it. *)
Theorem cleanup_does_not_change_any_answer
    (cleanupTime now : Z) (cacheKey : CacheKey) (cache : Cache) :
  NoDup (Assoc.keys cache) -> cleanupTime <= now ->
  fst (getCachedResult now cacheKey (cleanupCache cleanupTime cache))
    = fst (getCachedResult now cacheKey cache).
Proof.
  intros Hnd Htime. unfold getCachedResult, cleanupCache, get.
  rewrite get_filter by exact Hnd. unfold CacheKey, Cache in *.
  destruct (Assoc.get KeyParams.eq_dec cacheKey cache) as [entry |]; [| reflexivity].
  cbn [snd]. destruct (cleanupTime - timestamp entry >? ttl entry) eqn:Ec; cbn [negb].
  - apply Z.gtb_lt in Ec.
    destruct (now - timestamp entry >? ttl entry) eqn:En; [reflexivity |].
    rewrite Z.gtb_ltb in En. apply Z.ltb_ge in En. lia.
  - destruct (now - timestamp entry >? ttl entry); reflexivity.
Qed.
Lemma NoDup_one_entry : NoDup (Assoc.keys [(CacheScenario.key 0, CacheScenario.freshEntry)]).
Proof. constructor; [intros [] | constructor]. Qed.

Lemma cleanup_removes_witness :
  get (CacheScenario.key 0)
    (cleanupCache 3600001 [(CacheScenario.key 0, CacheScenario.freshEntry)]) = None.
Proof.
  destruct (cleanup_removes_exactly_the_expired_entries 3600001
              [(CacheScenario.key 0, CacheScenario.freshEntry)] NoDup_one_entry)
    as (_ & _ & Hget).
  rewrite Hget. vm_compute. reflexivity.
Defined.

Lemma cleanup_invisible_witness :
  fst (getCachedResult 3600000 (CacheScenario.key 0)
         (cleanupCache 3000000 [(CacheScenario.key 0, CacheScenario.freshEntry)]))
    = Some [].
Proof.
  rewrite (cleanup_does_not_change_any_answer 3000000 3600000 (CacheScenario.key 0)
             [(CacheScenario.key 0, CacheScenario.freshEntry)] NoDup_one_entry).
  - vm_compute. reflexivity.
  - lia.
Defined.
(** X11: using an entry does not postpone its eviction. Below the capacity
    bound, storing again under a cached key leaves the key order, and with it
    the eviction order of [setCachedResult], as it is, and so does a lookup
    that hits: entries are evicted in the order of their first insertion. *)
Theorem use_does_not_postpone_eviction
    (now : Z) (cacheKey : CacheKey) (data : option TrainResults) (cache : Cache)
    (entry : CacheEntry) :
  size cache < MAX_CACHE_ENTRIES ->
  get cacheKey cache = Some entry ->
  Assoc.keys (setCachedResult now cacheKey data cache) = Assoc.keys cache /\
  (now - timestamp entry <= ttl entry ->
     Assoc.keys (snd (getCachedResult now cacheKey cache)) = Assoc.keys cache).
Proof.
  intros Hsize Hget. split.
  - rewrite setCachedResult_below_capacity by exact Hsize.
    unfold set. rewrite keys_set. unfold get in Hget. unfold CacheKey, Cache in *.
    rewrite Hget. reflexivity.
  - intros Hage. unfold getCachedResult. rewrite Hget.
    destruct (now - timestamp entry >? ttl entry) eqn:E; [| reflexivity].
    apply Z.gtb_lt in E. lia.
Qed.

Lemma use_does_not_postpone_witness :
  Assoc.keys (setCachedResult 1000 (CacheScenario.key 0) (Some [])
                [(CacheScenario.key 0, CacheScenario.freshEntry);
                 (CacheScenario.key 1, CacheScenario.freshEntry)])
    = [CacheScenario.key 0; CacheScenario.key 1].
Proof.
  destruct (use_does_not_postpone_eviction 1000 (CacheScenario.key 0) (Some [])
              [(CacheScenario.key 0, CacheScenario.freshEntry);
               (CacheScenario.key 1, CacheScenario.freshEntry)]
              CacheScenario.freshEntry) as [Hkeys _].
  - unfold size, MAX_CACHE_ENTRIES. cbn. lia.
  - reflexivity.
  - exact Hkeys.
Defined.

Lemma set_absent (cacheKey : CacheKey) (entry : CacheEntry) (cache : Cache) :
  get cacheKey cache = None -> set cacheKey entry cache = (cache ++ [(cacheKey, entry)])%list.
Proof.
  unfold get, set. induction cache as [| [k v] cache IH]; cbn [Assoc.get Assoc.set app];
    intros Hget; [reflexivity |].
  destruct (KeyParams.eq_dec k cacheKey); [discriminate |]. rewrite IH by exact Hget.
  reflexivity.
Qed.

Lemma setCachedResults_app (calls more : list SetCall) (cache : Cache) :
  setCachedResults (calls ++ more) cache = setCachedResults more (setCachedResults calls cache).
Proof. unfold setCachedResults. apply fold_left_app. Qed.

(** The first [n] calls of [fullCalls] leave the first [n] entries of
    [fullCache]: below the bound each call appends its entry. *)
Lemma fullCache_prefix (n : nat) :
  (n <= Z.to_nat MAX_CACHE_ENTRIES)%nat ->
  setCachedResults (map (fun i => (0, CacheScenario.key (Z.of_nat i), Some [])) (seq 0 n)) []
    = map (fun i => (CacheScenario.key (Z.of_nat i), CacheScenario.freshEntry)) (seq 0 n).
Proof.
  induction n as [| n IH]; intros Hn; [reflexivity |].
  rewrite !seq_S, !map_app, setCachedResults_app, IH by lia. cbn [Nat.add map].
  unfold setCachedResults at 1. cbn [fold_left].
  rewrite setCachedResult_below_capacity.
  - apply set_absent. unfold get. apply get_None_iff.
    unfold Assoc.keys. rewrite map_map. cbn [fst]. intros Hin.
    apply in_map_iff in Hin. destruct Hin as (i & Hi & Hseq).
    apply in_seq in Hseq. injection Hi as Hi. lia.
  - unfold size. rewrite length_map, length_seq.
    unfold MAX_CACHE_ENTRIES in *. lia.
Qed.

(** [fullCache] is what [setCachedResult] alone builds from the empty
    cache. *)
Lemma fullCache_built_by_setCachedResult :
  setCachedResults CacheScenario.fullCalls [] = CacheScenario.fullCache.
Proof. apply fullCache_prefix. lia. Qed.

(** The cache filled by [fullCalls] is at the bound: one more call evicts
    the entry of [key 0]. *)
Lemma writes_through_setCachedResult_witness :
  exists oldestEntry rest,
    setCachedResults CacheScenario.fullCalls []
      = (CacheScenario.key 0, oldestEntry) :: rest /\
    ~ In (CacheScenario.key 0) (Assoc.keys rest) /\
    setCachedResult 5 (CacheScenario.key 100000) (Some [])
      (setCachedResults CacheScenario.fullCalls [])
      = set (CacheScenario.key 100000)
          {| data := Some []; timestamp := 5; ttl := CACHE_TTL |} rest.
Proof.
  destruct (writes_through_setCachedResult_keep_the_bound CacheScenario.fullCalls)
    as [_ Hcall].
  destruct (Hcall 5 (CacheScenario.key 100000) (Some [])) as (_ & _ & _ & Hevict).
  destruct Hevict as (oldestKey & oldestEntry & rest & Hcache & Hnotin & Hset).
  - rewrite fullCache_built_by_setCachedResult, fullCache_size. lia.
  - destruct fullCache_oldest as (rest' & Hfull).
    rewrite fullCache_built_by_setCachedResult in Hcache. rewrite Hfull in Hcache.
    injection Hcache as <- <- <-.
    exists CacheScenario.freshEntry, rest'.
    split; [rewrite fullCache_built_by_setCachedResult; exact Hfull |].
    split; [exact Hnotin | exact Hset].
Defined.

End ResultCacheFacts.

(* ===================================================================== *)
(** ** Time filter and best price *)
(* ===================================================================== *)

Module PricesFacts.
Import JS Prices PricesDefs AssocFacts.

Lemma cacheKeyOf_sameQuery (c1 c2 : Config.t) :
  sameQuery c1 c2 -> cacheKeyOf c1 = cacheKeyOf c2.
Proof.
  intros (H1 & H2 & H3 & H4 & H5 & H6 & H7 & H8 & H9 & H10 & H11 & H12).
  unfold cacheKeyOf. rewrite H3, H4, H5, H6, H7, H8, H9, H10, H11, H12. reflexivity.
Qed.

(** On a cache hit nothing of the upstream answer is looked at. *)
Lemma getBestPrice_hit
    (config : Config.t) (now : Z) (cache0 : ResultCache.Cache) (cached : TrainResults) :
  fst (ResultCache.getCachedResult now (cacheKeyOf config) cache0) = Some cached ->
  forall api storeTime api' storeTime',
    wasApiCall (getBestPrice config now api storeTime cache0) = false /\
    getBestPrice config now api storeTime cache0 =
      getBestPrice config now api' storeTime' cache0.
Proof.
  intros Hhit api storeTime api' storeTime'. unfold getBestPrice.
  destruct (ResultCache.getCachedResult now (cacheKeyOf config) cache0) as [r cache1].
  cbn in Hhit. subst r.
  destruct (Assoc.get DateKey_eq_dec _ cached) as [[? ? ? ? [all |]] |]; split; reflexivity.
Qed.


(** What [setCachedResult] stored is found for an hour. *)
Lemma getCachedResult_after_set
    (storeTime now : Z) (cacheKey : ResultCache.CacheKey) (stored : TrainResults)
    (cache1 : ResultCache.Cache) :
  now - storeTime <= ResultCache.CACHE_TTL ->
  fst (ResultCache.getCachedResult now cacheKey
         (ResultCache.setCachedResult storeTime cacheKey (Some stored) cache1)) = Some stored.
Proof.
  intros Hage. unfold ResultCache.getCachedResult, ResultCache.setCachedResult, ResultCache.get,
    ResultCache.set.
  rewrite get_set_same. cbn [ResultCache.timestamp ResultCache.ttl ResultCache.data].
  destruct (now - storeTime >? ResultCache.CACHE_TTL) eqn:E; [| reflexivity].
  apply Z.gtb_lt in E. lia.
Qed.

(** A lookup that answers leaves the cache as it is. *)
Lemma getCachedResult_hit_cache
    (now : Z) (cacheKey : ResultCache.CacheKey) (cache0 : ResultCache.Cache)
    (cached : TrainResults) :
  fst (ResultCache.getCachedResult now cacheKey cache0) = Some cached ->
  snd (ResultCache.getCachedResult now cacheKey cache0) = cache0.
Proof.
  unfold ResultCache.getCachedResult.
  destruct (ResultCache.get cacheKey cache0) as [entry |]; [| discriminate].
  destruct (_ >? _); [discriminate | reflexivity].
Qed.

(** A cache hit, written out: the answer is built from the cached object of
    the day and the time filters of the request, no upstream call is made
    and the cache stays as it is. *)
Lemma getBestPrice_served_from_cache
    (config : Config.t) (now : Z) (cache0 : ResultCache.Cache) (cached : TrainResults)
    (api : Settled ApiResponse) (storeTime : Z) :
  fst (ResultCache.getCachedResult now (cacheKeyOf config) cache0) = Some cached ->
  getBestPrice config now api storeTime cache0 =
    {| result :=
         servedFrom (formatDateKey (Config.anfrageDatum config)) cached
           (Config.abfahrtAb config) (Config.ankunftBis config);
       wasApiCall := false;
       cache := cache0 |}.
Proof.
  intros Hhit.
  pose proof (getCachedResult_hit_cache now (cacheKeyOf config) cache0 cached Hhit) as Hsame.
  unfold getBestPrice, servedFrom.
  destruct (ResultCache.getCachedResult now (cacheKeyOf config) cache0) as [r cache1].
  cbn [fst snd] in Hhit, Hsame. subst r cache1.
  destruct (Assoc.get DateKey_eq_dec _ cached) as [[? ? ? ? [all |]] |]; reflexivity.
Qed.

(** C2: two queries that are identical except for [abfahrtAb] and
    [ankunftBis] get the same cache key from [getBestPrice] (the key carries
    no time filter at all). So when the cache answers for one of them, the
    other is served from that cached day: its result is built from the
    cached object and its own time filters, [wasApiCall] is [false] and the
    cache is left as it was, whatever the upstream call would have returned.
    In particular a day fetched for the first query (an answer with
    intervals, stored at [storeTime]) is served to the second query from
    the offers that the first one stored, for the hour that the entry
    lives. *)
Theorem time_filters_share_one_cached_day
    (c1 c2 : Config.t) (now : Z) (cache0 : ResultCache.Cache) :
  sameQuery c1 c2 ->
  cacheKeyOf c1 = cacheKeyOf c2 /\
  KeyParams.abfahrtAb (cacheKeyOf c1) = None /\
  KeyParams.ankunftBis (cacheKeyOf c1) = None /\
  (forall cached,
     fst (ResultCache.getCachedResult now (cacheKeyOf c1) cache0) = Some cached ->
     forall api storeTime,
       getBestPrice c2 now api storeTime cache0 =
         {| result :=
              servedFrom (formatDateKey (Config.anfrageDatum c2)) cached
                (Config.abfahrtAb c2) (Config.ankunftBis c2);
            wasApiCall := false;
            cache := cache0 |}) /\
  (forall response intervalle storeTime later,
     includes "Preisauskunft nicht möglich" (responseText response) = false ->
     parsed response = Intervalle intervalle ->
     fst (ResultCache.getCachedResult now (cacheKeyOf c1) cache0) = None ->
     later - storeTime <= ResultCache.CACHE_TTL ->
     let first := getBestPrice c1 now (Fulfilled response) storeTime cache0 in
     wasApiCall first = true /\
     forall api storeTime',
       getBestPrice c2 later api storeTime' (cache first) =
         {| result :=
              cachedResultFor (formatDateKey (Config.anfrageDatum c2))
                (sort_by_preis (allIntervalsForCache intervalle))
                (Config.abfahrtAb c2) (Config.ankunftBis c2);
            wasApiCall := false;
            cache := cache first |}).
Proof.
  intros Hsame. pose proof (cacheKeyOf_sameQuery _ _ Hsame) as Hkey.
  split; [exact Hkey |]. split; [reflexivity |]. split; [reflexivity |]. split.
  - intros cached Hhit api storeTime. rewrite Hkey in Hhit.
    exact (getBestPrice_served_from_cache c2 now cache0 cached api storeTime Hhit).
  - intros response intervalle storeTime later Hmarker Hparsed Hmiss Hage. cbv zeta.
    assert (Hfirst : getBestPrice c1 now (Fulfilled response) storeTime cache0 =
              {| result := freshResult (formatDateKey (Config.anfrageDatum c1)) intervalle
                             (Config.abfahrtAb c1) (Config.ankunftBis c1);
                 wasApiCall := true;
                 cache := ResultCache.setCachedResult storeTime (cacheKeyOf c1)
                            (Some (fullResult (formatDateKey (Config.anfrageDatum c1)) intervalle))
                            (snd (ResultCache.getCachedResult now (cacheKeyOf c1) cache0)) |}).
    { unfold getBestPrice.
      destruct (ResultCache.getCachedResult now (cacheKeyOf c1) cache0) as [r cache1].
      cbn [fst snd] in *. subst r. rewrite Hmarker, Hparsed. reflexivity. }
    rewrite Hfirst. cbn [wasApiCall cache]. split; [reflexivity |].
    intros api storeTime'.
    rewrite (getBestPrice_served_from_cache c2 later _
               (fullResult (formatDateKey (Config.anfrageDatum c1)) intervalle) api storeTime')
      by (rewrite <- Hkey; apply getCachedResult_after_set; exact Hage).
    destruct Hsame as (_ & _ & _ & _ & Hdate & _). rewrite Hdate.
    unfold servedFrom, fullResult. cbn [Assoc.get].
    destruct (DateKey_eq_dec _ _) as [_ | Hne]; [reflexivity | contradiction].
Qed.

(** The day cached by the unfiltered call serves the call with an earliest
    departure of 06:00, although the upstream is unreachable by then. *)
Lemma time_filters_witness :
  cacheKeyOf (PriceScenario.config None None) =
    cacheKeyOf (PriceScenario.config (Some PriceScenario.sechsUhr) None) /\
  getBestPrice (PriceScenario.config (Some PriceScenario.sechsUhr) None) 200
    (Rejected (ThrownError "fetch failed")) 300 PriceScenario.cacheAfterFirstCall
  = {| result :=
         servedFrom (2025, 7, 26) (fullResult (2025, 7, 26) [PriceScenario.nachtzug])
           (Some PriceScenario.sechsUhr) None;
       wasApiCall := false;
       cache := PriceScenario.cacheAfterFirstCall |}.
Proof.
  destruct (time_filters_share_one_cached_day
              (PriceScenario.config None None)
              (PriceScenario.config (Some PriceScenario.sechsUhr) None)
              200 PriceScenario.cacheAfterFirstCall)
    as (Hkey & _ & _ & Hhit & _).
  - repeat split.
  - split; [exact Hkey |].
    exact (Hhit (fullResult (2025, 7, 26) [PriceScenario.nachtzug]) eq_refl
             (Rejected (ThrownError "fetch failed")) 300).
Defined.



Lemma clockTime_in_range (day : Z) (t : TimeOfDay.t) :
  clockRange t ->
  clockTime day t = Some ((day - 1) * 1440 + TimeOfDay.hh t * 60 + TimeOfDay.mm t).
Proof.
  intros [Hh Hm]. unfold clockTime.
  replace (0 <=? TimeOfDay.hh t) with true by (symmetry; apply Z.leb_le; lia).
  replace (TimeOfDay.hh t <=? 23) with true by (symmetry; apply Z.leb_le; lia).
  replace (0 <=? TimeOfDay.mm t) with true by (symmetry; apply Z.leb_le; lia).
  replace (TimeOfDay.mm t <=? 59) with true by (symmetry; apply Z.leb_le; lia).
  reflexivity.
Qed.

(** The filter callback on an interval that has sections. *)
Lemma keepInterval_sections
    (abfahrtAb ankunftBis : option TimeOfDay.t) (interval : Raw.t)
    (first : Abschnitt.t) (others : list Abschnitt.t) :
  Raw.verbindungsAbschnitte interval = Some (first :: others) ->
  let ersteAbfahrt := Abschnitt.abfahrtsZeitpunkt first in
  let letzteAnkunft := Abschnitt.ankunftsZeitpunkt (last (first :: others) first) in
  keepInterval abfahrtAb ankunftBis interval =
    match abfahrtAb with
    | Some ab => negb (date_lt (clockTime 1 (timeOfDay ersteAbfahrt)) (clockTime 1 ab))
    | None => true
    end
    && match ankunftBis with
       | Some bis =>
           negb (date_gt
                   (if istNachtverbindung ersteAbfahrt letzteAnkunft
                    then clockTime 2 (timeOfDay letzteAnkunft)
                    else clockTime 1 (timeOfDay letzteAnkunft))
                   (clockTime 1 bis))
       | None => true
       end.
Proof.
  intros H. unfold keepInterval. rewrite H. reflexivity.
Qed.

(** C5, as amended: an overnight connection (arrival instant before the
    departure instant, or arrival on another day of the month) is never
    retained by [filterByTime] when a latest-arrival bound between 00:00 and
    23:59 is given: its arrival time of day is placed on 2 January 1970 and
    compared with the bound on 1 January, which it always exceeds. *)
Theorem overnight_connection_dropped_by_latest_arrival
    (intervals : list Raw.t) (interval : Raw.t) (first : Abschnitt.t)
    (others : list Abschnitt.t) (abfahrtAb : option TimeOfDay.t) (ankunftBis : TimeOfDay.t) :
  Raw.verbindungsAbschnitte interval = Some (first :: others) ->
  let ersteAbfahrt := Abschnitt.abfahrtsZeitpunkt first in
  let letzteAnkunft := Abschnitt.ankunftsZeitpunkt (last (first :: others) first) in
  istNachtverbindung ersteAbfahrt letzteAnkunft = true ->
  clockRange (timeOfDay letzteAnkunft) ->
  clockRange ankunftBis ->
  ~ In interval (filterByTime intervals abfahrtAb (Some ankunftBis)).
Proof.
  intros Habs ersteAbfahrt letzteAnkunft Hnacht Harr Hbis Hin.
  assert (Hkeep : keepInterval abfahrtAb (Some ankunftBis) interval = true).
  { unfold filterByTime in Hin. destruct abfahrtAb; apply filter_In in Hin; apply Hin. }
  rewrite (keepInterval_sections _ _ _ _ _ Habs) in Hkeep. cbv zeta in Hkeep.
  fold ersteAbfahrt letzteAnkunft in Hkeep. rewrite Hnacht in Hkeep.
  rewrite (clockTime_in_range 2 _ Harr), (clockTime_in_range 1 _ Hbis) in Hkeep.
  apply andb_prop in Hkeep. destruct Hkeep as [_ Hkeep].
  unfold date_gt, date_lt in Hkeep. apply negb_true_iff, Z.ltb_ge in Hkeep.
  destruct Harr, Hbis. lia.
Qed.

Lemma overnight_connection_dropped_witness :
  ~ In PriceScenario.nachtzug
      (filterByTime [PriceScenario.nachtzug] None (Some PriceScenario.sechsUhr)).
Proof.
  apply (overnight_connection_dropped_by_latest_arrival
           [PriceScenario.nachtzug] PriceScenario.nachtzug _ [] None PriceScenario.sechsUhr eq_refl).
  - reflexivity.
  - unfold clockRange. cbn. lia.
  - unfold clockRange. cbn. lia.
Defined.

(** C5, as stated, fails: the night train arrives at 05:00, a time of day
    that satisfies the cutoff 06:00 as a same-day arrival would, and yet it is
    not retained. *)
Lemma overnight_arrival_within_bound_is_dropped :
  ~ (In PriceScenario.nachtzug
        (filterByTime [PriceScenario.nachtzug] None (Some PriceScenario.sechsUhr))
     <-> date_gt (clockTime 1 {| TimeOfDay.hh := 5; TimeOfDay.mm := 0 |})
                 (clockTime 1 PriceScenario.sechsUhr) = false).
Proof.
  intros [_ H]. specialize (H eq_refl). vm_compute in H. exact H.
Qed.

Lemma toInterval_sections (iv : Raw.t) (x : Interval.t) :
  toInterval iv = Some x ->
  exists newPreis first others,
    Raw.preis iv = Some newPreis /\
    Raw.verbindungsAbschnitte iv = Some (first :: others) /\
    Interval.preis x = newPreis /\
    Interval.abfahrtsZeitpunkt x = Abschnitt.abfahrtsZeitpunkt first /\
    Interval.ankunftsZeitpunkt x =
      Abschnitt.ankunftsZeitpunkt (last (first :: others) first).
Proof.
  unfold toInterval. destruct (Raw.preis iv) as [p |]; [| discriminate].
  destruct (Raw.verbindungsAbschnitte iv) as [[| first others] |]; try discriminate.
  intros H. injection H as <-. exists p, first, others. repeat split.
Qed.

Lemma keepInterval_rebuild
    (ab bis : option TimeOfDay.t) (iv : Raw.t) (x : Interval.t) :
  toInterval iv = Some x ->
  keepInterval ab bis (rebuild x) = keepInterval ab bis iv.
Proof.
  intros H. destruct (toInterval_sections iv x H) as (p & first & others & _ & Hs & _ & Hd & Ha).
  rewrite (keepInterval_sections ab bis iv first others Hs).
  rewrite (keepInterval_sections ab bis (rebuild x) _ [] eq_refl).
  cbv zeta. cbn [last Abschnitt.abfahrtsZeitpunkt Abschnitt.ankunftsZeitpunkt].
  rewrite Hd, Ha. reflexivity.
Qed.

Lemma filterByTime_rebuild (ab bis : option TimeOfDay.t) (l : list Interval.t) :
  filterByTime (map rebuild l) ab bis = map rebuild (filter (keepCached ab bis) l).
Proof.
  unfold filterByTime, keepCached.
  destruct ab as [a |], bis as [b |];
    try (induction l as [| x l IH]; cbn [map filter]; [reflexivity |];
         destruct (keepInterval _ _ (rebuild x)); cbn [map]; rewrite IH; reflexivity).
  induction l as [| x l IH]; cbn [map filter]; [reflexivity | rewrite <- IH; reflexivity].
Qed.

Lemma allIntervalsForCache_filterByTime
    (ab bis : option TimeOfDay.t) (intervalle : list Raw.t) :
  allIntervalsForCache (filterByTime intervalle ab bis) =
    filter (keepCached ab bis) (allIntervalsForCache intervalle).
Proof.
  assert (Hgen : forall keep keep',
             (forall iv x, toInterval iv = Some x -> keep' x = keep iv) ->
             allIntervalsForCache (filter keep intervalle) =
               filter keep' (allIntervalsForCache intervalle)).
  { intros keep keep' Hk. unfold allIntervalsForCache.
    induction intervalle as [| iv l IH]; [reflexivity |].
    cbn [filter flat_map]. destruct (toInterval iv) as [x |] eqn:E.
    - cbn [app filter]. rewrite (Hk iv x E).
      destruct (keep iv); cbn [flat_map]; [rewrite E |]; cbn [app]; rewrite IH; reflexivity.
    - cbn [app]. destruct (keep iv); cbn [flat_map]; [rewrite E |]; cbn [app]; exact IH. }
  unfold filterByTime, keepCached.
  destruct ab as [a |], bis as [b |];
    try (apply Hgen; intros iv x E; apply keepInterval_rebuild; exact E).
  symmetry. apply forallb_filter_id. apply forallb_forall. reflexivity.
Qed.

Lemma loopBody_preise (st : LoopState) (iv : Raw.t) :
  preise (loopBody st iv) =
    match toInterval iv with
    | Some x => Assoc.set String.string_dec (priceKey x) (Interval.preis x) (preise st)
    | None => preise st
    end.
Proof.
  unfold loopBody. destruct (toInterval iv) as [x |] eqn:E; [| reflexivity].
  destruct (toInterval_sections iv x E) as (p & first & others & _ & -> & _).
  reflexivity.
Qed.

Lemma loop_preise (intervalle : list Raw.t) (st : LoopState) :
  preise (fold_left loopBody intervalle st) =
    fileAll (allIntervalsForCache intervalle) (preise st).
Proof.
  revert st. induction intervalle as [| iv l IH]; intros st; [reflexivity |].
  cbn [fold_left]. rewrite IH, loopBody_preise.
  unfold allIntervalsForCache. cbn [flat_map].
  destruct (toInterval iv); reflexivity.
Qed.

Lemma fileAll_entries (xs : list Interval.t) (m : list (string * Z)) (k : string) (v : Z) :
  In (k, v) (fileAll xs m) ->
  In (k, v) m \/ exists x, In x xs /\ k = priceKey x /\ v = Interval.preis x.
Proof.
  revert m. induction xs as [| a xs IH]; intros m H; [left; exact H |].
  cbn [fileAll fold_left] in H. destruct (IH _ H) as [Hm | (x & Hx & Hk & Hv)].
  - destruct (In_set _ _ _ _ _ _ Hm) as [Heq | Hold].
    + injection Heq as -> ->. right. exists a. split; [now left | split; reflexivity].
    + left. exact Hold.
  - right. exists x. split; [now right | split; assumption].
Qed.

Lemma fileAll_get (xs : list Interval.t) (m : list (string * Z)) (k : string) :
  (Assoc.get String.string_dec k (fileAll xs m) = Assoc.get String.string_dec k m /\
   forall y, In y xs -> priceKey y <> k)
  \/ exists y, In y xs /\ priceKey y = k /\
               Assoc.get String.string_dec k (fileAll xs m) = Some (Interval.preis y).
Proof.
  revert m. induction xs as [| a xs IH]; intros m.
  - left. split; [reflexivity | intros y []].
  - cbn [fileAll fold_left].
    destruct (IH (Assoc.set String.string_dec (priceKey a) (Interval.preis a) m))
      as [[Hget Hnone] | (y & Hy & Hk & Hget)].
    + destruct (String.string_dec (priceKey a) k) as [Heq | Hne].
      * right. exists a. split; [now left |]. split; [exact Heq |].
        unfold fileAll in Hget. rewrite Hget, <- Heq. apply get_set_same.
      * left. split.
        -- unfold fileAll in Hget. rewrite Hget. apply get_set_other. exact Hne.
        -- intros y [<- | Hy]; [exact Hne | exact (Hnone y Hy)].
    + right. exists y. split; [now right | split; assumption].
Qed.

(** Without collisions the table holds exactly the prices of the offers. *)
Lemma fileAll_values (xs : list Interval.t) :
  (forall x y, In x xs -> In y xs -> priceKey x = priceKey y ->
               Interval.preis x = Interval.preis y) ->
  forall v, In v (Assoc.values (fileAll xs [])) <-> In v (map Interval.preis xs).
Proof.
  intros Hdistinct v. split.
  - intros H. apply in_map_iff in H. destruct H as ([k v'] & <- & Hin).
    destruct (fileAll_entries xs [] k v' Hin) as [[] | (x & Hx & _ & ->)].
    cbn [snd]. apply in_map. exact Hx.
  - intros H. apply in_map_iff in H. destruct H as (x & <- & Hx).
    destruct (fileAll_get xs [] (priceKey x)) as [[_ Hnone] | (y & Hy & Hk & Hget)].
    + exfalso. exact (Hnone x Hx eq_refl).
    + rewrite (Hdistinct x y Hx Hy (eq_sym Hk)).
      apply get_Some_In in Hget.
      apply (in_map snd) in Hget. exact Hget.
Qed.

Lemma Math_min_spec (first : Z) (rest : list Z) :
  In (Math_min first rest) (first :: rest) /\
  forall q, In q (first :: rest) -> Math_min first rest <= q.
Proof.
  unfold Math_min. revert first. induction rest as [| r rest IH]; intros first.
  - cbn. split; [now left | intros q [<- | []]; lia].
  - cbn [fold_left]. destruct (IH (Z.min first r)) as [Hin Hle]. split.
    + destruct Hin as [Heq | Hin]; [| right; right; exact Hin].
      rewrite <- Heq. destruct (Z.min_spec first r) as [[_ ->] | [_ ->]];
        [left | right; left]; reflexivity.
    + intros q [<- | [<- | Hq]].
      * specialize (Hle (Z.min first r) (or_introl eq_refl)). lia.
      * specialize (Hle (Z.min first r) (or_introl eq_refl)). lia.
      * apply Hle. right. exact Hq.
Qed.

(** The minimum depends on the set of numbers only. *)
Lemma Math_min_same_elements (p q : Z) (ps qs : list Z) :
  (forall v, In v (p :: ps) <-> In v (q :: qs)) ->
  Math_min p ps = Math_min q qs.
Proof.
  intros H.
  destruct (Math_min_spec p ps) as [Hp Hple], (Math_min_spec q qs) as [Hq Hqle].
  apply Z.le_antisymm.
  - apply Hple, H, Hq.
  - apply Hqle, H, Hp.
Qed.

Lemma insert_by_preis_In (x y : Interval.t) (l : list Interval.t) :
  In y (insert_by_preis x l) <-> y = x \/ In y l.
Proof.
  induction l as [| a l IH]; cbn.
  - split; intros [H | H]; auto.
  - destruct (Interval.preis x <? Interval.preis a); cbn; [| rewrite IH];
      split; intros H; tauto || (destruct H as [H | H]; auto; destruct H; auto).
Qed.

Lemma sort_by_preis_In (y : Interval.t) (l : list Interval.t) :
  In y (sort_by_preis l) <-> In y l.
Proof.
  unfold sort_by_preis.
  assert (Hgen : forall acc, In y (fold_left (fun sorted x => insert_by_preis x sorted) l acc)
                             <-> In y acc \/ In y l).
  { induction l as [| a l IH]; intros acc; cbn [fold_left].
    - cbn. tauto.
    - rewrite IH, insert_by_preis_In. cbn. intuition (subst; auto). }
  rewrite Hgen. cbn. tauto.
Qed.

Lemma no_elements_nil {A : Type} (l : list A) : (forall x, ~ In x l) -> l = [].
Proof.
  destruct l as [| a l]; [reflexivity |]. intros H. exfalso. apply (H a). now left.
Qed.

(** The two ways to the cheapest price agree as long as the price table of
    the cache-miss path loses no price. *)
Lemma freshResult_cachedResultFor_prices
    (tag : DateKey) (intervalle : list Raw.t) (ab bis : option TimeOfDay.t) :
  noKeyCollision (filterByTime intervalle ab bis) ->
  prices (freshResult tag intervalle ab bis) =
    prices (cachedResultFor tag (sort_by_preis (allIntervalsForCache intervalle)) ab bis).
Proof.
  intros Hdistinct. unfold noKeyCollision in Hdistinct.
  rewrite allIntervalsForCache_filterByTime in Hdistinct.
  unfold freshResult, cachedResultFor.
  rewrite filterByTime_rebuild.
  set (retained := filter (keepCached ab bis) (allIntervalsForCache intervalle)) in *.
  set (cached := filter (keepCached ab bis) (sort_by_preis (allIntervalsForCache intervalle))).
  assert (Hsame : forall y, In y cached <-> In y retained).
  { intros y. unfold cached, retained. rewrite !filter_In, sort_by_preis_In. tauto. }
  assert (Hloop : forall st,
             preise (fold_left loopBody (filterByTime intervalle ab bis) st) =
               fileAll retained (preise st)).
  { intros st. rewrite loop_preise, allIntervalsForCache_filterByTime. reflexivity. }
  assert (Hempty : retained = [] -> cached = []).
  { intros E. apply no_elements_nil. intros y Hy. apply Hsame in Hy. rewrite E in Hy. exact Hy. }
  destruct (filterByTime intervalle ab bis) as [| iv rest] eqn:EF.
  - assert (E : retained = []).
    { unfold retained. rewrite <- allIntervalsForCache_filterByTime, EF. reflexivity. }
    rewrite (Hempty E). reflexivity.
  - rewrite Hloop. cbn [preise].
    destruct (Assoc.values (fileAll retained [])) as [| p ps] eqn:Ev.
    + assert (E : retained = []).
      { apply no_elements_nil. intros x Hx.
        pose proof (proj2 (fileAll_values retained Hdistinct (Interval.preis x))
                      (in_map _ _ _ Hx)) as Hin.
        rewrite Ev in Hin. exact Hin. }
      rewrite (Hempty E). reflexivity.
    + destruct cached as [| c cs] eqn:Ec.
      * exfalso.
        assert (Hp : In p (map Interval.preis retained)).
        { apply (fileAll_values retained Hdistinct). rewrite Ev. now left. }
        apply in_map_iff in Hp. destruct Hp as (x & _ & Hx).
        apply Hsame in Hx. exact Hx.
      * cbn [map prices snd TrainResult.preis]. f_equal.
        rewrite map_map. change (map (fun x => betrag (rebuild x)) cs)
          with (map Interval.preis cs).
        change (betrag (rebuild c)) with (Interval.preis c).
        apply Math_min_same_elements. intros v.
        rewrite <- Ev, (fileAll_values retained Hdistinct v).
        change (Interval.preis c :: map Interval.preis cs)
          with (map Interval.preis (c :: cs)).
        rewrite !in_map_iff. split; intros (x & Hv & Hx); exists x; (split; [exact Hv |]);
          apply Hsame; exact Hx.
Qed.

(** A cache miss answered with intervals, and the next call for the same
    query within the hour: served from the cache, at the same price, unless
    the price table of the first call lost a price. *)
Lemma fresh_and_cached_price_agree_without_key_collision
    (config : Config.t) (now storeTime now' storeTime' : Z)
    (response : ApiResponse) (intervalle : list Raw.t) (api' : Settled ApiResponse)
    (cache0 : ResultCache.Cache) :
  fst (ResultCache.getCachedResult now (cacheKeyOf config) cache0) = None ->
  includes "Preisauskunft nicht möglich" (responseText response) = false ->
  parsed response = Intervalle intervalle ->
  now' - storeTime <= ResultCache.CACHE_TTL ->
  noKeyCollision
    (filterByTime intervalle (Config.abfahrtAb config) (Config.ankunftBis config)) ->
  let fresh := getBestPrice config now (Fulfilled response) storeTime cache0 in
  let hit := getBestPrice config now' api' storeTime' (cache fresh) in
  wasApiCall fresh = true /\ wasApiCall hit = false /\
  prices (result hit) = prices (result fresh).
Proof.
  intros Hmiss Htext Hparsed Hage Hdistinct. cbv zeta.
  assert (Hfresh : getBestPrice config now (Fulfilled response) storeTime cache0 =
            {| result :=
                 freshResult (formatDateKey (Config.anfrageDatum config)) intervalle
                   (Config.abfahrtAb config) (Config.ankunftBis config);
               wasApiCall := true;
               cache :=
                 ResultCache.setCachedResult storeTime (cacheKeyOf config)
                   (Some (fullResult (formatDateKey (Config.anfrageDatum config)) intervalle))
                   (snd (ResultCache.getCachedResult now (cacheKeyOf config) cache0)) |}).
  { unfold getBestPrice.
    destruct (ResultCache.getCachedResult now (cacheKeyOf config) cache0) as [r cache1].
    cbn in Hmiss. subst r. rewrite Htext, Hparsed. reflexivity. }
  rewrite Hfresh. cbn [result wasApiCall cache]. split; [reflexivity |].
  unfold getBestPrice.
  pose proof (getCachedResult_after_set storeTime now' (cacheKeyOf config)
                (fullResult (formatDateKey (Config.anfrageDatum config)) intervalle)
                (snd (ResultCache.getCachedResult now (cacheKeyOf config) cache0)) Hage) as Hhit.
  destruct (ResultCache.getCachedResult now' (cacheKeyOf config) _) as [r cache2].
  cbn [fst] in Hhit. rewrite Hhit.
  unfold fullResult. cbn [Assoc.get]. destruct (DateKey_eq_dec _ _) as [_ | Hne]; [| contradiction].
  cbn [result wasApiCall]. split; [reflexivity |].
  symmetry. apply freshResult_cachedResultFor_prices. exact Hdistinct.
Qed.

(** C3: the claim asks for the same cheapest price on the cache-miss path
    and on the cache-hit path. Evaluated on an upstream answer with two offers
    of 9 and 19 euros whose [info + newPreis] keys coincide: the fresh call
    (which stores the full set) overwrites the entry of 9 in [preise] and
    reports 19, the following call with the same filter is served from the
    cache and reports 9. *)
Theorem fresh_and_cached_price_differ_on_key_collision :
  let config := PriceScenario.config None None in
  let fresh := getBestPrice config 0 (PriceScenario.antwort PriceScenario.kollision) 100 [] in
  let hit :=
    getBestPrice config 200 (PriceScenario.antwort PriceScenario.kollision) 300 (cache fresh) in
  wasApiCall fresh = true /\ prices (result fresh) = [19] /\
  wasApiCall hit = false /\ prices (result hit) = [9].
Proof.
  vm_compute. repeat split.
Qed.
(** X12: for a connection that arrives on the day it departs, and bounds as
    a time input produces them, the filter keeps the connection exactly when
    the first departure is at or after [abfahrtAb] and the last arrival is
    at or before [ankunftBis], compared in minutes of the day; both bounds
    are inclusive. *)
Theorem same_day_connection_passes_within_inclusive_bounds
    (ab bis : TimeOfDay.t) (interval : Raw.t)
    (first : Abschnitt.t) (others : list Abschnitt.t) :
  Raw.verbindungsAbschnitte interval = Some (first :: others) ->
  let ersteAbfahrt := Abschnitt.abfahrtsZeitpunkt first in
  let letzteAnkunft := Abschnitt.ankunftsZeitpunkt (last (first :: others) first) in
  istNachtverbindung ersteAbfahrt letzteAnkunft = false ->
  clockRange ab -> clockRange bis ->
  clockRange (timeOfDay ersteAbfahrt) -> clockRange (timeOfDay letzteAnkunft) ->
  (keepInterval (Some ab) (Some bis) interval = true <->
   minutes ab <= minutes (timeOfDay ersteAbfahrt) /\
   minutes (timeOfDay letzteAnkunft) <= minutes bis).
Proof.
  intros Hsec ersteAbfahrt letzteAnkunft Hday Hab Hbis Hdep Harr.
  rewrite (keepInterval_sections (Some ab) (Some bis) interval first others Hsec).
  cbv zeta. fold ersteAbfahrt letzteAnkunft. rewrite Hday.
  rewrite !clockTime_in_range by assumption.
  unfold date_gt, date_lt, minutes. rewrite andb_true_iff, !negb_true_iff, !Z.ltb_ge. lia.
Qed.

Lemma same_day_connection_witness :
  keepInterval (Some {| TimeOfDay.hh := 8; TimeOfDay.mm := 0 |})
               (Some {| TimeOfDay.hh := 12; TimeOfDay.mm := 0 |})
               PriceScenario.umsteigefahrt = true.
Proof.
  apply (same_day_connection_passes_within_inclusive_bounds
           {| TimeOfDay.hh := 8; TimeOfDay.mm := 0 |} {| TimeOfDay.hh := 12; TimeOfDay.mm := 0 |}
           PriceScenario.umsteigefahrt _ _ eq_refl eq_refl).
  - unfold clockRange. cbn. lia.
  - unfold clockRange. cbn. lia.
  - unfold clockRange. cbn. lia.
  - unfold clockRange. cbn. lia.
  - unfold minutes. cbn. lia.
Defined.

Lemma filter_true {A : Type} (f : A -> bool) (l : list A) :
  (forall x, In x l -> f x = true) -> filter f l = l.
Proof.
  intros H. induction l as [| x l IH]; cbn; [reflexivity |].
  rewrite (H x (or_introl eq_refl)), IH; [reflexivity |].
  intros y Hy. apply H. now right.
Qed.

Lemma keepInterval_no_bounds (interval : Raw.t) : keepInterval None None interval = true.
Proof.
  unfold keepInterval. destruct (Raw.verbindungsAbschnitte interval) as [[| ? ?] |]; reflexivity.
Qed.

Lemma keepInterval_both (ab bis : option TimeOfDay.t) (interval : Raw.t) :
  keepInterval ab bis interval =
    keepInterval ab None interval && keepInterval None bis interval.
Proof.
  unfold keepInterval.
  destruct (Raw.verbindungsAbschnitte interval) as [[| first others] |]; try reflexivity.
  cbv zeta. rewrite andb_true_r. reflexivity.
Qed.

Lemma filterByTime_filter (intervals : list Raw.t) (ab bis : option TimeOfDay.t) :
  filterByTime intervals ab bis = filter (keepInterval ab bis) intervals.
Proof.
  unfold filterByTime. destruct ab, bis; try reflexivity.
  symmetry. apply filter_true. intros x _. apply keepInterval_no_bounds.
Qed.

Lemma filter_filter {A : Type} (f g : A -> bool) (l : list A) :
  filter g (filter f l) = filter (fun x => f x && g x) l.
Proof.
  induction l as [| x l IH]; cbn; [reflexivity |].
  destruct (f x); cbn; [destruct (g x) |]; rewrite IH; reflexivity.
Qed.

(** X13: filtering with both bounds is filtering with one bound and then
    with the other, in either order. *)
Theorem both_bounds_filter_like_one_after_the_other
    (intervals : list Raw.t) (ab bis : option TimeOfDay.t) :
  filterByTime intervals ab bis = filterByTime (filterByTime intervals ab None) None bis /\
  filterByTime intervals ab bis = filterByTime (filterByTime intervals None bis) ab None.
Proof.
  rewrite !filterByTime_filter, !filter_filter. split.
  - apply filter_ext. intros x. apply keepInterval_both.
  - apply filter_ext. intros x. rewrite keepInterval_both. apply andb_comm.
Qed.




Lemma insert_by_preis_ascending (x : Interval.t) (l : list Interval.t) :
  ascendingByPreis l -> ascendingByPreis (insert_by_preis x l).
Proof.
  unfold ascendingByPreis. induction l as [| y l IH]; cbn [insert_by_preis]; intros Hs.
  - constructor; constructor.
  - inversion Hs as [| ? ? Hs' Hall]; subst.
    destruct (Interval.preis x <? Interval.preis y) eqn:E.
    + apply Z.ltb_lt in E. constructor; [exact Hs |].
      constructor; [lia |]. rewrite Forall_forall in *. intros z Hz.
      specialize (Hall z Hz). cbn in Hall. lia.
    + apply Z.ltb_ge in E. constructor; [exact (IH Hs') |].
      rewrite Forall_forall in *. intros z Hz. apply insert_by_preis_In in Hz.
      destruct Hz as [-> | Hz]; [exact E | exact (Hall z Hz)].
Qed.

Lemma sort_by_preis_ascending (l : list Interval.t) : ascendingByPreis (sort_by_preis l).
Proof.
  unfold sort_by_preis.
  assert (Hgen : forall acc, ascendingByPreis acc ->
            ascendingByPreis (fold_left (fun sorted x => insert_by_preis x sorted) l acc)).
  { induction l as [| x l IH]; intros acc Hacc; cbn [fold_left]; [exact Hacc |].
    apply IH, insert_by_preis_ascending, Hacc. }
  apply Hgen. constructor.
Qed.

Lemma loopBody_allIntervals (st : LoopState) (iv : Raw.t) :
  allIntervals (loopBody st iv) =
    (allIntervals st ++ match toInterval iv with Some x => [x] | None => [] end)%list.
Proof.
  unfold loopBody. destruct (toInterval iv) as [x |] eqn:E.
  - destruct (toInterval_sections iv x E) as (p & first & others & _ & Hsec & _).
    rewrite Hsec. reflexivity.
  - destruct (Raw.verbindungsAbschnitte iv) as [[| ? ?] |]; symmetry; apply app_nil_r.
Qed.

Lemma loop_allIntervals (intervalle : list Raw.t) (st : LoopState) :
  allIntervals (fold_left loopBody intervalle st) =
    (allIntervals st ++ allIntervalsForCache intervalle)%list.
Proof.
  revert st. induction intervalle as [| iv l IH]; intros st; cbn [fold_left].
  - symmetry. apply app_nil_r.
  - rewrite IH, loopBody_allIntervals. unfold allIntervalsForCache. cbn [flat_map].
    rewrite <- app_assoc. reflexivity.
Qed.

Lemma sameTimes_rebuild (x y : Interval.t) :
  sameTimes x (rebuild y) = true <-> sameTimestamps x y.
Proof.
  unfold sameTimes, sameTimestamps. cbn.
  rewrite andb_true_iff, !String.eqb_eq. reflexivity.
Qed.

(** X15: the [allIntervals] list of a result is in ascending order of
    price. On a cache miss it holds exactly the priced offers of the answer
    that pass the time filter; on a cache hit exactly the cached offers that
    share departure and arrival timestamps with a cached offer that passes
    the filter. *)
Theorem listed_offers_are_those_in_the_window_by_ascending_price
    (tag : DateKey) (ab bis : option TimeOfDay.t) :
  (forall intervalle tag' r l,
     In (tag', r) (freshResult tag intervalle ab bis) ->
     TrainResult.allIntervals r = Some l ->
     ascendingByPreis l /\
     forall x, In x l <->
               In x (allIntervalsForCache intervalle) /\ keepCached ab bis x = true) /\
  (forall cachedIntervals tag' r l,
     In (tag', r) (cachedResultFor tag cachedIntervals ab bis) ->
     TrainResult.allIntervals r = Some l ->
     ascendingByPreis l /\
     forall x, In x l <->
               In x cachedIntervals /\
               exists y, In y cachedIntervals /\ keepCached ab bis y = true /\
                         sameTimestamps x y).
Proof.
  split.
  - intros intervalle tag' r l Hin Hl. unfold freshResult in Hin.
    pose proof (allIntervalsForCache_filterByTime ab bis intervalle) as Hall.
    destruct (filterByTime intervalle ab bis) as [| f fs] eqn:EF.
    + destruct Hin as [Heq | []]. injection Heq as _ <-. cbn in Hl. injection Hl as <-.
      split; [constructor |]. intros x. split; [intros [] |].
      intros [Hx Hk]. cbn in Hall. rewrite Hall. apply filter_In. split; assumption.
    + rewrite loop_allIntervals in Hin. cbn [allIntervals app] in Hin.
      rewrite loop_preise in Hin.
      destruct (Assoc.values _) as [| p ps]; destruct Hin as [Heq | []];
        injection Heq as _ <-; cbn [TrainResult.allIntervals] in Hl; [discriminate |].
      injection Hl as <-. split; [apply sort_by_preis_ascending |].
      intros x. rewrite sort_by_preis_In.
      change (In x (allIntervalsForCache (f :: fs)) <->
              In x (allIntervalsForCache intervalle) /\ keepCached ab bis x = true).
      rewrite Hall, filter_In. reflexivity.
  - intros cachedIntervals tag' r l Hin Hl. unfold cachedResultFor in Hin.
    rewrite filterByTime_rebuild in Hin.
    destruct (filter (keepCached ab bis) cachedIntervals) as [| c cs] eqn:EF;
      cbn [map] in Hin; destruct Hin as [Heq | []]; injection Heq as _ <-;
      cbn [TrainResult.allIntervals] in Hl; injection Hl as <-.
    + split; [constructor |]. intros x. split; [intros [] |].
      intros (_ & y & Hy & Hk & _).
      assert (Hin : In y (filter (keepCached ab bis) cachedIntervals))
        by (apply filter_In; split; assumption).
      rewrite EF in Hin. destruct Hin.
    + split; [apply sort_by_preis_ascending |].
      intros x. rewrite sort_by_preis_In, filter_In.
      change (sameTimes x (rebuild c) || existsb (sameTimes x) (map rebuild cs))
        with (existsb (sameTimes x) (map rebuild (c :: cs))).
      rewrite <- EF, existsb_exists. split; intros [Hx Hex]; (split; [exact Hx |]).
      * destruct Hex as (fi & Hfi & Hsame). apply in_map_iff in Hfi.
        destruct Hfi as (y & <- & Hy). apply filter_In in Hy. destruct Hy as [Hy Hk].
        exists y. split; [exact Hy |]. split; [exact Hk |].
        apply sameTimes_rebuild. exact Hsame.
      * destruct Hex as (y & Hy & Hk & Hsame). exists (rebuild y). split.
        -- apply in_map. apply filter_In. split; assumption.
        -- apply sameTimes_rebuild. exact Hsame.
Qed.
(** The cache-hit path when some offer is in the window. *)
Lemma cachedResultFor_retained
    (tag : DateKey) (cachedIntervals : list Interval.t) (ab bis : option TimeOfDay.t)
    (c : Interval.t) (cs : list Interval.t) :
  filter (keepCached ab bis) cachedIntervals = c :: cs ->
  let minPreis := Math_min (Interval.preis c) (map Interval.preis cs) in
  let bestInterval :=
    find (fun interval => Interval.preis interval =? minPreis) cachedIntervals in
  exists listed,
    cachedResultFor tag cachedIntervals ab bis =
      [(tag,
        {| TrainResult.preis := minPreis;
           TrainResult.info :=
             match bestInterval with Some b => Interval.info b | None => "" end;
           TrainResult.abfahrtsZeitpunkt :=
             match bestInterval with
             | Some b => Zeitpunkt.iso (Interval.abfahrtsZeitpunkt b)
             | None => ""
             end;
           TrainResult.ankunftsZeitpunkt :=
             match bestInterval with
             | Some b => Zeitpunkt.iso (Interval.ankunftsZeitpunkt b)
             | None => ""
             end;
           TrainResult.allIntervals := Some listed |})].
Proof.
  intros EF. cbv zeta. unfold cachedResultFor. rewrite filterByTime_rebuild, EF.
  cbn [map]. rewrite map_map.
  change (map (fun x => betrag (rebuild x)) cs) with (map Interval.preis cs).
  change (betrag (rebuild c)) with (Interval.preis c).
  eexists. reflexivity.
Qed.

Lemma retained_minimum
    (cachedIntervals : list Interval.t) (ab bis : option TimeOfDay.t)
    (c : Interval.t) (cs : list Interval.t) :
  filter (keepCached ab bis) cachedIntervals = c :: cs ->
  let minPreis := Math_min (Interval.preis c) (map Interval.preis cs) in
  (exists y, In y cachedIntervals /\ keepCached ab bis y = true /\
             Interval.preis y = minPreis) /\
  (forall y, In y cachedIntervals -> keepCached ab bis y = true ->
             minPreis <= Interval.preis y).
Proof.
  intros EF. cbv zeta.
  destruct (Math_min_spec (Interval.preis c) (map Interval.preis cs)) as [Hin Hle].
  change (Interval.preis c :: map Interval.preis cs)
    with (map Interval.preis (c :: cs)) in Hin, Hle.
  rewrite <- EF in Hin, Hle. split.
  - apply in_map_iff in Hin. destruct Hin as (y & Hy & Hin).
    apply filter_In in Hin. destruct Hin as [Hin Hk].
    exists y. repeat split; assumption.
  - intros y Hy Hk. apply Hle. apply in_map. apply filter_In. split; assumption.
Qed.

(** X16: on a cache hit with at least one cached offer in the time window,
    the reported price is the lowest price among the cached offers in the
    window, and the reported text and timestamps are those of the first
    cached offer with that price. *)
Theorem cache_hit_reports_cheapest_price_in_window
    (tag : DateKey) (cachedIntervals : list Interval.t) (ab bis : option TimeOfDay.t)
    (x : Interval.t) :
  In x cachedIntervals -> keepCached ab bis x = true ->
  exists r b,
    cachedResultFor tag cachedIntervals ab bis = [(tag, r)] /\
    (exists y, In y cachedIntervals /\ keepCached ab bis y = true /\
               Interval.preis y = TrainResult.preis r) /\
    (forall y, In y cachedIntervals -> keepCached ab bis y = true ->
               TrainResult.preis r <= Interval.preis y) /\
    find (fun interval => Interval.preis interval =? TrainResult.preis r) cachedIntervals
      = Some b /\
    TrainResult.info r = Interval.info b /\
    TrainResult.abfahrtsZeitpunkt r = Zeitpunkt.iso (Interval.abfahrtsZeitpunkt b) /\
    TrainResult.ankunftsZeitpunkt r = Zeitpunkt.iso (Interval.ankunftsZeitpunkt b).
Proof.
  intros Hx Hk.
  destruct (filter (keepCached ab bis) cachedIntervals) as [| c cs] eqn:EF.
  - exfalso. assert (Hin : In x (filter (keepCached ab bis) cachedIntervals))
      by (apply filter_In; split; assumption).
    rewrite EF in Hin. destruct Hin.
  - destruct (cachedResultFor_retained tag cachedIntervals ab bis c cs EF) as [listed Hr].
    destruct (retained_minimum cachedIntervals ab bis c cs EF) as [Hex Hle].
    cbv zeta in *. set (minPreis := Math_min (Interval.preis c) (map Interval.preis cs)) in *.
    destruct (find (fun interval => Interval.preis interval =? minPreis) cachedIntervals)
      as [b |] eqn:Ef.
    + eexists. exists b. split; [exact Hr |]. cbn.
      split; [exact Hex |]. split; [exact Hle |]. split; [exact Ef |]. repeat split.
    + exfalso. destruct Hex as (y & Hy & _ & Hp).
      pose proof (find_none _ _ Ef y Hy) as Hno. cbn in Hno.
      apply Z.eqb_neq in Hno. contradiction.
Qed.

Lemma cache_hit_cheapest_witness :
  prices (cachedResultFor (2025, 7, 26)
            [PriceScenario.nachtangebot; PriceScenario.tagesangebot]
            (Some PriceScenario.sechsUhr) None) = [29].
Proof.
  destruct (cache_hit_reports_cheapest_price_in_window (2025, 7, 26)
              [PriceScenario.nachtangebot; PriceScenario.tagesangebot]
              (Some PriceScenario.sechsUhr) None PriceScenario.tagesangebot)
    as (r & b & Hr & _).
  - right. left. reflexivity.
  - reflexivity.
  - reflexivity.
Defined.

(** X17: that first offer need not be in the window. When a cached offer
    outside the window precedes an offer inside the window at the same,
    lowest price, the cache-hit result reports the text, the departure and
    the arrival of the offer outside the window. *)
Theorem cache_hit_may_report_connection_outside_window
    (tag : DateKey) (x y : Interval.t) (rest : list Interval.t)
    (ab bis : option TimeOfDay.t) :
  keepCached ab bis x = false ->
  In y rest -> keepCached ab bis y = true ->
  Interval.preis y = Interval.preis x ->
  (forall z, In z rest -> Interval.preis x <= Interval.preis z) ->
  exists r,
    cachedResultFor tag (x :: rest) ab bis = [(tag, r)] /\
    TrainResult.preis r = Interval.preis x /\
    TrainResult.info r = Interval.info x /\
    TrainResult.abfahrtsZeitpunkt r = Zeitpunkt.iso (Interval.abfahrtsZeitpunkt x) /\
    TrainResult.ankunftsZeitpunkt r = Zeitpunkt.iso (Interval.ankunftsZeitpunkt x).
Proof.
  intros Hx Hy Hk Hp Hsorted.
  destruct (filter (keepCached ab bis) (x :: rest)) as [| c cs] eqn:EF.
  - exfalso. assert (Hin : In y (filter (keepCached ab bis) (x :: rest)))
      by (apply filter_In; split; [now right | exact Hk]).
    rewrite EF in Hin. destruct Hin.
  - destruct (cachedResultFor_retained tag (x :: rest) ab bis c cs EF) as [listed Hr].
    destruct (retained_minimum (x :: rest) ab bis c cs EF) as [Hex Hle].
    cbv zeta in *. set (minPreis := Math_min (Interval.preis c) (map Interval.preis cs)) in *.
    assert (Hmin : minPreis = Interval.preis x).
    { destruct Hex as (z & Hz & Hkz & Hpz).
      specialize (Hle y (or_intror Hy) Hk).
      destruct Hz as [<- | Hz]; [congruence |].
      specialize (Hsorted z Hz). lia. }
    cbn [find] in Hr. rewrite Hmin, Z.eqb_refl in Hr.
    eexists. split; [exact Hr |]. cbn. repeat split.
Qed.

Lemma cache_hit_outside_window_witness :
  map (fun entry => TrainResult.abfahrtsZeitpunkt (snd entry))
    (cachedResultFor (2025, 7, 26)
       [PriceScenario.nachtangebot; PriceScenario.tagesangebot]
       None (Some {| TimeOfDay.hh := 23; TimeOfDay.mm := 0 |}))
    = ["2025-07-26T22:00:00"].
Proof.
  destruct (cache_hit_may_report_connection_outside_window (2025, 7, 26)
              PriceScenario.nachtangebot PriceScenario.tagesangebot
              [PriceScenario.tagesangebot]
              None (Some {| TimeOfDay.hh := 23; TimeOfDay.mm := 0 |}))
    as (r & Hr & _ & _ & Hab & _).
  - reflexivity.
  - left. reflexivity.
  - reflexivity.
  - reflexivity.
  - intros z [<- | []]. cbn. lia.
  - rewrite Hr. cbn [map snd]. rewrite Hab. reflexivity.
Defined.
(** X19: a cache hit leaves the cache exactly as it was: neither the entry
    nor its timestamp is renewed. *)
Theorem cache_hit_leaves_the_cache_untouched
    (config : Config.t) (now : Z) (api : Settled ApiResponse) (storeTime : Z)
    (cache0 : ResultCache.Cache) (cached : TrainResults) :
  fst (ResultCache.getCachedResult now (cacheKeyOf config) cache0) = Some cached ->
  cache (getBestPrice config now api storeTime cache0) = cache0.
Proof.
  intros Hhit. pose proof (getCachedResult_hit_cache _ _ _ _ Hhit) as Hsnd.
  unfold getBestPrice.
  destruct (ResultCache.getCachedResult now (cacheKeyOf config) cache0) as [r cache1].
  cbn [fst snd] in *. subst r cache1.
  destruct (Assoc.get DateKey_eq_dec _ cached) as [[? ? ? ? [all |]] |]; reflexivity.
Qed.

Lemma cache_hit_untouched_witness :
  cache (getBestPrice (PriceScenario.config (Some PriceScenario.sechsUhr) None) 200
           (Rejected (ThrownError "fetch failed")) 300 PriceScenario.cacheAfterFirstCall)
    = PriceScenario.cacheAfterFirstCall.
Proof.
  exact (cache_hit_leaves_the_cache_untouched
           (PriceScenario.config (Some PriceScenario.sechsUhr) None) 200
           (Rejected (ThrownError "fetch failed")) 300 PriceScenario.cacheAfterFirstCall
           (fullResult (2025, 7, 26) [PriceScenario.nachtzug]) eq_refl).
Defined.

(** X20: what [getBestPrice] leaves in the cache does not depend on the time
    filters of the request, with one exception. For an answer on which
    [filterByTime] throws, the full set is stored first; without a filter it
    stays, with a filter the [catch] block puts a one-minute error entry in
    its place. *)
Theorem cache_content_depends_on_time_filters_only_when_the_filter_throws
    (c1 c2 : Config.t) (now : Z) (api : Settled ApiResponse) (storeTime : Z)
    (cache0 : ResultCache.Cache) :
  sameQuery c1 c2 ->
  (filterRunsThrough api ->
   cache (getBestPrice c1 now api storeTime cache0)
     = cache (getBestPrice c2 now api storeTime cache0)) /\
  (forall response first others message,
     api = Fulfilled response ->
     includes "Preisauskunft nicht möglich" (responseText response) = false ->
     parsed response = FilterThrows first others message ->
     fst (ResultCache.getCachedResult now (cacheKeyOf c1) cache0) = None ->
     Config.abfahrtAb c1 = None -> Config.ankunftBis c1 = None ->
     Config.abfahrtAb c2 <> None \/ Config.ankunftBis c2 <> None ->
     let tag := formatDateKey (Config.anfrageDatum c1) in
     ResultCache.get (cacheKeyOf c1) (cache (getBestPrice c1 now api storeTime cache0))
       = Some {| ResultCache.data := Some (fullResult tag (first :: others));
                 ResultCache.timestamp := storeTime;
                 ResultCache.ttl := 3600000 |} /\
     ResultCache.get (cacheKeyOf c1) (cache (getBestPrice c2 now api storeTime cache0))
       = Some {| ResultCache.data := Some (plainResult tag ("Fetch Error: " ++ message));
                 ResultCache.timestamp := storeTime;
                 ResultCache.ttl := 60000 |}).
Proof.
  intros Hsame. pose proof (cacheKeyOf_sameQuery _ _ Hsame) as Hkey.
  destruct Hsame as (_ & _ & _ & _ & Hdate & _). split.
  - intros Hruns. unfold getBestPrice. rewrite <- Hkey, <- Hdate.
    destruct (ResultCache.getCachedResult now (cacheKeyOf c1) cache0) as [[cached |] cache1].
    + destruct (Assoc.get DateKey_eq_dec _ cached) as [[? ? ? ? [all |]] |]; reflexivity.
    + destruct api as [response | error]; [| reflexivity].
      destruct (includes _ _); [reflexivity |].
      unfold filterRunsThrough in Hruns.
      destruct (parsed response); try reflexivity. contradiction.
  - intros response first others message -> Hmarker Hparse Hmiss Hab1 Hbis1 Hfilter. cbv zeta.
    unfold getBestPrice. rewrite <- Hkey, <- Hdate.
    destruct (ResultCache.getCachedResult now (cacheKeyOf c1) cache0) as [r cache1].
    cbn [fst] in Hmiss. subst r. rewrite Hmarker, Hparse, Hab1, Hbis1. split.
    + cbn [cache]. unfold ResultCache.setCachedResult, ResultCache.get, ResultCache.set.
      apply get_set_same.
    + assert (Hcaught :
        forall stored,
          ResultCache.get (cacheKeyOf c1)
            (cache (caught (formatDateKey (Config.anfrageDatum c1)) message storeTime
                      (cacheKeyOf c1) stored))
          = Some {| ResultCache.data :=
                      Some (plainResult (formatDateKey (Config.anfrageDatum c1))
                              ("Fetch Error: " ++ message));
                    ResultCache.timestamp := storeTime; ResultCache.ttl := 60000 |}).
      { intros stored. unfold caught. cbn [cache].
        unfold ResultCache.get, ResultCache.set. apply get_set_same. }
      destruct (Config.abfahrtAb c2) as [ab |]; [apply Hcaught |].
      destruct (Config.ankunftBis c2) as [bis |]; [apply Hcaught |].
      destruct Hfilter as [H | H]; contradiction.
Qed.

Lemma cache_content_witness :
  cache (getBestPrice (PriceScenario.config None None) 0
           (PriceScenario.antwort [PriceScenario.nachtzug]) 100 [])
    = cache (getBestPrice (PriceScenario.config (Some PriceScenario.sechsUhr) None) 0
               (PriceScenario.antwort [PriceScenario.nachtzug]) 100 []).
Proof.
  destruct (cache_content_depends_on_time_filters_only_when_the_filter_throws
              (PriceScenario.config None None)
              (PriceScenario.config (Some PriceScenario.sechsUhr) None)
              0 (PriceScenario.antwort [PriceScenario.nachtzug]) 100 [])
    as [Hsame _].
  - repeat split.
  - apply Hsame. exact I.
Defined.

Lemma getBestPrice_miss_wasApiCall
    (config : Config.t) (now : Z) (api : Settled ApiResponse) (storeTime : Z)
    (cache0 : ResultCache.Cache) :
  fst (ResultCache.getCachedResult now (cacheKeyOf config) cache0) = None ->
  wasApiCall (getBestPrice config now api storeTime cache0) = true.
Proof.
  intros Hmiss. unfold getBestPrice.
  destruct (ResultCache.getCachedResult now (cacheKeyOf config) cache0) as [r cache1].
  cbn [fst] in Hmiss. subst r.
  destruct api as [response | error]; [| reflexivity].
  destruct (includes _ _); [reflexivity |].
  destruct (parsed response); try reflexivity.
  destruct (Config.abfahrtAb config), (Config.ankunftBis config); reflexivity.
Qed.

(** X21: after a failed upstream call the error result is answered from the
    cache, without an upstream call, up to and including 60 000 ms after it
    was stored; after that the upstream is asked again. *)
Theorem failed_fetch_is_answered_from_cache_for_one_minute
    (config : Config.t) (now storeTime later storeTime' : Z) (error : Thrown)
    (api' : Settled ApiResponse) (cache0 : ResultCache.Cache) :
  fst (ResultCache.getCachedResult now (cacheKeyOf config) cache0) = None ->
  let failed := getBestPrice config now (Rejected error) storeTime cache0 in
  let next := getBestPrice config later api' storeTime' (cache failed) in
  (later - storeTime <= 60000 ->
     result next = result failed /\ wasApiCall next = false /\ cache next = cache failed) /\
  (later - storeTime > 60000 -> wasApiCall next = true).
Proof.
  intros Hmiss. cbv zeta.
  set (failed := getBestPrice config now (Rejected error) storeTime cache0).
  assert (Hfailed : exists cache1 message,
            result failed = plainResult (formatDateKey (Config.anfrageDatum config)) message /\
            cache failed =
              ResultCache.set (cacheKeyOf config)
                {| ResultCache.data := Some (result failed);
                   ResultCache.timestamp := storeTime; ResultCache.ttl := 60 * 1000 |}
                cache1).
  { unfold failed, getBestPrice.
    destruct (ResultCache.getCachedResult now (cacheKeyOf config) cache0) as [r cache1].
    cbn [fst] in Hmiss. subst r. eexists. eexists. split; reflexivity. }
  destruct Hfailed as (cache1 & message & Hres & Hcache).
  assert (Hget : ResultCache.get (cacheKeyOf config) (cache failed) =
                 Some {| ResultCache.data := Some (result failed);
                         ResultCache.timestamp := storeTime;
                         ResultCache.ttl := 60 * 1000 |}).
  { rewrite Hcache. unfold ResultCache.get, ResultCache.set. apply get_set_same. }
  split; intros Hage.
  - assert (Hlookup : ResultCache.getCachedResult later (cacheKeyOf config) (cache failed)
                      = (Some (result failed), cache failed)).
    { unfold ResultCache.getCachedResult. rewrite Hget.
      cbn [ResultCache.timestamp ResultCache.ttl ResultCache.data].
      destruct (later - storeTime >? 60 * 1000) eqn:E; [apply Z.gtb_lt in E; lia | reflexivity]. }
    unfold getBestPrice. rewrite Hlookup. rewrite Hres.
    unfold plainResult. cbn [Assoc.get].
    destruct (DateKey_eq_dec _ _) as [_ | Hne]; [| contradiction].
    repeat split.
  - apply getBestPrice_miss_wasApiCall.
    unfold ResultCache.getCachedResult. rewrite Hget.
    cbn [ResultCache.timestamp ResultCache.ttl ResultCache.data].
    destruct (later - storeTime >? 60 * 1000) eqn:E; [reflexivity |].
    rewrite Z.gtb_ltb in E. apply Z.ltb_ge in E. lia.
Qed.

Lemma failed_fetch_witness :
  wasApiCall
    (getBestPrice (PriceScenario.config None None) 60100
       (PriceScenario.antwort [PriceScenario.nachtzug]) 60200
       (cache (getBestPrice (PriceScenario.config None None) 0
                 (Rejected (ThrownError "fetch failed")) 100 []))) = false.
Proof.
  destruct (failed_fetch_is_answered_from_cache_for_one_minute
              (PriceScenario.config None None) 0 100 60100 60200
              (ThrownError "fetch failed")
              (PriceScenario.antwort [PriceScenario.nachtzug]) [] eq_refl) as [Hhit _].
  destruct Hhit as (_ & Hcall & _); [lia | exact Hcall].
Defined.

(** X22: an answer that cannot be parsed is reported but not cached: the
    entries of other keys are as before, and the next call for the same day
    asks upstream again, whenever it comes. *)
Theorem unparsable_answer_is_never_cached
    (config : Config.t) (now storeTime later storeTime' : Z) (response : ApiResponse)
    (api' : Settled ApiResponse) (cache0 : ResultCache.Cache) :
  NoDup (Assoc.keys cache0) ->
  fst (ResultCache.getCachedResult now (cacheKeyOf config) cache0) = None ->
  includes "Preisauskunft nicht möglich" (responseText response) = false ->
  parsed response = ParseError ->
  let unparsed := getBestPrice config now (Fulfilled response) storeTime cache0 in
  wasApiCall unparsed = true /\
  (forall other, other <> cacheKeyOf config ->
     ResultCache.get other (cache unparsed) = ResultCache.get other cache0) /\
  wasApiCall (getBestPrice config later api' storeTime' (cache unparsed)) = true.
Proof.
  intros Hnd Hmiss Hmarker Hparse. cbv zeta.
  assert (Hcache : cache (getBestPrice config now (Fulfilled response) storeTime cache0)
                   = snd (ResultCache.getCachedResult now (cacheKeyOf config) cache0)).
  { unfold getBestPrice.
    destruct (ResultCache.getCachedResult now (cacheKeyOf config) cache0) as [r cache1].
    cbn [fst] in Hmiss. subst r. rewrite Hmarker, Hparse. reflexivity. }
  split; [apply getBestPrice_miss_wasApiCall; exact Hmiss |].
  rewrite Hcache. clear Hcache. split.
  - intros other Hne. unfold ResultCache.getCachedResult.
    destruct (ResultCache.get (cacheKeyOf config) cache0) as [entry |]; [| reflexivity].
    destruct (_ >? _); [| reflexivity].
    cbn [snd]. unfold ResultCache.get, ResultCache.delete. apply get_delete_other.
    intros H. apply Hne. symmetry. exact H.
  - apply getBestPrice_miss_wasApiCall.
    unfold ResultCache.getCachedResult in *.
    destruct (ResultCache.get (cacheKeyOf config) cache0) as [entry |] eqn:Hget.
    + destruct (now - ResultCache.timestamp entry >? ResultCache.ttl entry) eqn:E;
        cbn [fst snd] in *.
      * unfold ResultCache.get, ResultCache.delete.
        rewrite (get_delete_same KeyParams.eq_dec (cacheKeyOf config) cache0 Hnd).
        reflexivity.
      * rewrite Hget, Hmiss.
        destruct (later - ResultCache.timestamp entry >? ResultCache.ttl entry); reflexivity.
    + cbn [snd]. rewrite Hget. reflexivity.
Qed.

Lemma unparsable_answer_witness :
  wasApiCall
    (getBestPrice (PriceScenario.config None None) 200
       (PriceScenario.antwort [PriceScenario.nachtzug]) 300
       (cache (getBestPrice (PriceScenario.config None None) 0
                 (Fulfilled {| responseText := "<html>"; parsed := ParseError |}) 100 [])))
    = true.
Proof.
  destruct (unparsable_answer_is_never_cached
              (PriceScenario.config None None) 0 100 200 300
              {| responseText := "<html>"; parsed := ParseError |}
              (PriceScenario.antwort [PriceScenario.nachtzug]) [])
    as (_ & _ & Hnext).
  - constructor.
  - reflexivity.
  - reflexivity.
  - reflexivity.
  - exact Hnext.
Defined.

Lemma loopBody_no_offer (st : LoopState) (iv : Raw.t) :
  toInterval iv = None -> loopBody st iv = st.
Proof.
  intros H. unfold loopBody. rewrite H. reflexivity.
Qed.

Lemma loopBody_offer (st : LoopState) (iv : Raw.t) (x : Interval.t) :
  toInterval iv = Some x ->
  exists first others,
    Raw.verbindungsAbschnitte iv = Some (first :: others) /\
    Raw.preis iv = Some (Interval.preis x) /\
    bestConnection (loopBody st iv) =
      let new := {| best_preis := Interval.preis x; connection := first;
                    best_ankunftsZeitpunkt := Interval.ankunftsZeitpunkt x;
                    best_info := Interval.info x |} in
      match bestConnection st with
      | Some best => if Interval.preis x <? best_preis best then Some new else Some best
      | None => Some new
      end.
Proof.
  intros H. destruct (toInterval_sections iv x H) as (p & first & others & Hp & Hsec & Hx & _).
  exists first, others. split; [exact Hsec |]. split; [congruence |].
  unfold loopBody. rewrite H, Hsec. reflexivity.
Qed.

Lemma loop_bestConnection (ivs : list Raw.t) :
  forall st,
    let st' := fold_left loopBody ivs st in
    (bestConnection st' = None -> bestConnection st = None /\ allIntervalsForCache ivs = []) /\
    (forall best, bestConnection st' = Some best ->
       (bestConnection st = Some best \/ fromOffer ivs best) /\
       (forall y, In y (allIntervalsForCache ivs) -> best_preis best <= Interval.preis y) /\
       (forall b0, bestConnection st = Some b0 -> best_preis best <= best_preis b0)).
Proof.
  induction ivs as [| iv ivs IH]; intros st; cbv zeta; cbn [fold_left].
  - split; [intros H; split; [exact H | reflexivity] |].
    intros best Hb. split; [left; exact Hb |]. split; [intros y [] |].
    intros b0 Hb0. rewrite Hb in Hb0. injection Hb0 as <-. lia.
  - specialize (IH (loopBody st iv)). cbv zeta in IH. destruct IH as [IHnone IHsome].
    unfold allIntervalsForCache. cbn [flat_map]. fold (allIntervalsForCache ivs).
    destruct (toInterval iv) as [x |] eqn:E.
    + destruct (loopBody_offer st iv x E) as (first & others & Hsec & Hp & Hbest).
      cbv zeta in Hbest. split.
      * intros Hnone. destruct (IHnone Hnone) as [H1 _]. rewrite Hbest in H1.
        destruct (bestConnection st) as [b |]; [destruct (_ <? _) |]; discriminate.
      * intros best Hb. destruct (IHsome best Hb) as (Hfrom & Hle & Hprev).
        assert (Hnew : fromOffer (iv :: ivs)
                         {| best_preis := Interval.preis x; connection := first;
                            best_ankunftsZeitpunkt := Interval.ankunftsZeitpunkt x;
                            best_info := Interval.info x |}).
        { exists iv, first, others. cbn. repeat split; [now left | exact Hsec | exact Hp]. }
        assert (Hlater : fromOffer ivs best -> fromOffer (iv :: ivs) best).
        { intros (iv' & f' & o' & Hin & H1 & H2 & H3). exists iv', f', o'.
          repeat split; [now right | exact H1 | exact H2 | exact H3]. }
        rewrite Hbest in Hfrom, Hprev.
        destruct (bestConnection st) as [b |] eqn:Eb.
        -- destruct (Interval.preis x <? best_preis b) eqn:Elt.
           ++ apply Z.ltb_lt in Elt. specialize (Hprev _ eq_refl). cbn in Hprev.
              split; [| split].
              ** right. destruct Hfrom as [Hf | Hf]; [| exact (Hlater Hf)].
                 injection Hf as <-. exact Hnew.
              ** intros y [<- | Hy]; [exact Hprev | exact (Hle y Hy)].
              ** intros b0 Hb0. injection Hb0 as <-. lia.
           ++ apply Z.ltb_ge in Elt. specialize (Hprev _ eq_refl).
              split; [| split].
              ** destruct Hfrom as [Hf | Hf]; [left; exact Hf | right; exact (Hlater Hf)].
              ** intros y [<- | Hy]; [lia | exact (Hle y Hy)].
              ** intros b0 Hb0. injection Hb0 as <-. exact Hprev.
        -- specialize (Hprev _ eq_refl). cbn in Hprev. split; [| split].
           ++ right. destruct Hfrom as [Hf | Hf]; [| exact (Hlater Hf)].
              injection Hf as <-. exact Hnew.
           ++ intros y [<- | Hy]; [exact Hprev | exact (Hle y Hy)].
           ++ intros b0 Hb0. discriminate.
    + rewrite (loopBody_no_offer st iv E) in *. cbn [app]. split.
      * exact IHnone.
      * intros best Hb. destruct (IHsome best Hb) as (Hfrom & Hle & Hprev).
        split; [| split; assumption].
        destruct Hfrom as [Hf | (iv' & f' & o' & Hin & H1 & H2 & H3)]; [left; exact Hf |].
        right. exists iv', f', o'. repeat split; [now right | exact H1 | exact H2 | exact H3].
Qed.

Lemma fileAll_nonempty (xs : list Interval.t) (x : Interval.t) :
  In x xs -> Assoc.values (fileAll xs []) <> [].
Proof.
  intros Hx Hnil.
  destruct (fileAll_get xs [] (priceKey x)) as [[_ Hnone] | (y & _ & _ & Hget)].
  - exact (Hnone x Hx eq_refl).
  - apply get_Some_In in Hget. apply (in_map snd) in Hget.
    unfold Assoc.values in Hnil. rewrite Hnil in Hget. destruct Hget.
Qed.

(** X18: on a cache miss with at least one priced offer in the time window,
    the reported departure and arrival timestamps are both those of the
    first section of an offer in the window whose price is the lowest; for a
    connection with a change the reported arrival is the arrival of the
    first leg. *)
Theorem cache_miss_reports_first_section_of_a_cheapest_offer
    (tag : DateKey) (intervalle : list Raw.t) (ab bis : option TimeOfDay.t)
    (x : Interval.t) :
  In x (allIntervalsForCache (filterByTime intervalle ab bis)) ->
  exists r iv first others p,
    freshResult tag intervalle ab bis = [(tag, r)] /\
    In iv (filterByTime intervalle ab bis) /\
    Raw.verbindungsAbschnitte iv = Some (first :: others) /\
    Raw.preis iv = Some p /\
    (forall y, In y (allIntervalsForCache (filterByTime intervalle ab bis)) ->
               p <= Interval.preis y) /\
    TrainResult.abfahrtsZeitpunkt r = Zeitpunkt.iso (Abschnitt.abfahrtsZeitpunkt first) /\
    TrainResult.ankunftsZeitpunkt r = Zeitpunkt.iso (Abschnitt.ankunftsZeitpunkt first).
Proof.
  intros Hx. unfold freshResult.
  set (kept := filterByTime intervalle ab bis) in *.
  set (init := {| preise := []; allIntervals := []; bestConnection := None |}).
  destruct (loop_bestConnection kept init) as [Hnone Hsome]. cbv zeta in Hnone, Hsome.
  pose proof (loop_preise kept init) as Hpreise. cbn [preise init] in Hpreise.
  pose proof (fileAll_nonempty _ x Hx) as Hvalues.
  destruct kept as [| k ks] eqn:Ek; [destruct Hx |].
  rewrite Hpreise.
  destruct (Assoc.values (fileAll (allIntervalsForCache (k :: ks)) [])) as [| p ps];
    [contradiction |].
  destruct (bestConnection (fold_left loopBody (k :: ks) init)) as [best |] eqn:Eb.
  - destruct (Hsome best eq_refl) as ([Hinit | (iv & first & others & Hin & Hsec & Hp & Hc)]
                                      & Hle & _); [discriminate |].
    eexists. exists iv, first, others, (best_preis best).
    split; [reflexivity |]. cbn [TrainResult.abfahrtsZeitpunkt TrainResult.ankunftsZeitpunkt].
    rewrite Hc. repeat split; try assumption.
  - destruct (Hnone eq_refl) as [_ Hempty]. rewrite Hempty in Hx. destruct Hx.
Qed.

Lemma cache_miss_first_section_witness :
  map (fun entry => TrainResult.ankunftsZeitpunkt (snd entry))
    (freshResult (2025, 7, 26) [PriceScenario.umsteigefahrt] None None)
    = ["2025-07-26T09:40:00"].
Proof.
  destruct (cache_miss_reports_first_section_of_a_cheapest_offer (2025, 7, 26)
              [PriceScenario.umsteigefahrt] None None
              {| Interval.preis := 35;
                 Interval.abfahrtsZeitpunkt :=
                   PriceScenario.zeitpunkt "2025-07-26T08:00:00" 1753509600000 26 8 0
                     "26.07.2025, 08:00:00";
                 Interval.ankunftsZeitpunkt :=
                   PriceScenario.zeitpunkt "2025-07-26T12:00:00" 1753524000000 26 12 0
                     "26.07.2025, 12:00:00";
                 Interval.abfahrtsOrt := "Berlin Hbf";
                 Interval.ankunftsOrt := "Hamburg Hbf";
                 Interval.info :=
                   "26.07.2025, 08:00:00 Berlin Hbf -> 26.07.2025, 12:00:00 Hamburg Hbf";
                 Interval.umstiegsAnzahl := 1 |})
    as (r & iv & first & others & p & Hr & Hin & Hsec & _ & _ & _ & Hank).
  - left. reflexivity.
  - destruct Hin as [<- | []]. injection Hsec as <- _.
    rewrite Hr. cbn [map snd]. rewrite Hank. reflexivity.
Defined.

End PricesFacts.

(* ===================================================================== *)
(** ** The POST handler *)
(* ===================================================================== *)

Module HandlerFacts.
Import JS Prices Handler HandlerDefs AssocFacts.

Lemma daysInMonth_range (y m : Z) : 28 <= LocalDate.daysInMonth y m <= 31.
Proof.
  unfold LocalDate.daysInMonth.
  destruct (m =? 1); [destruct (LocalDate.isLeapYear y); lia |].
  destruct ((m =? 3) || (m =? 5) || (m =? 8) || (m =? 10)); lia.
Qed.

(** One unfolding of the month carry. *)
Lemma setDate_from_S (months : nat) (y m x : Z) :
  1 <= x ->
  LocalDate.setDate_from (S months) y m x =
    if LocalDate.daysInMonth y m <? x then
      if m <? 11
      then LocalDate.setDate_from months y (m + 1) (x - LocalDate.daysInMonth y m)
      else LocalDate.setDate_from months (y + 1) 0 (x - LocalDate.daysInMonth y m)
    else {| LocalDate.getFullYear := y; LocalDate.getMonth := m; LocalDate.getDate := x |}.
Proof.
  intros Hx. cbn [LocalDate.setDate_from].
  destruct (x <? 1) eqn:E; [apply Z.ltb_lt in E; lia |].
  destruct (LocalDate.daysInMonth y m <? x); [| reflexivity].
  destruct (m <? 11); reflexivity.
Qed.


Lemma setDate_from_valid (f : nat) (y m x : Z) :
  0 <= m <= 11 -> 1 <= x -> x <= Z.of_nat f ->
  LocalDate.valid (LocalDate.setDate_from f y m x).
Proof.
  revert y m x. induction f as [| f IH]; intros y m x Hm Hx Hf; [lia |].
  rewrite setDate_from_S by exact Hx.
  pose proof (daysInMonth_range y m) as Hdim.
  destruct (LocalDate.daysInMonth y m <? x) eqn:E.
  - apply Z.ltb_lt in E. destruct (m <? 11) eqn:Em.
    + apply Z.ltb_lt in Em. apply IH; lia.
    + apply IH; lia.
  - apply Z.ltb_ge in E. unfold LocalDate.valid. cbn. lia.
Qed.












Lemma freshResult_keys
    (tag : DateKey) (intervalle : list Raw.t) (ab bis : option TimeOfDay.t) :
  Assoc.keys (freshResult tag intervalle ab bis) = [tag].
Proof.
  unfold freshResult.
  destruct (filterByTime intervalle ab bis); [reflexivity |].
  destruct (Assoc.values _); reflexivity.
Qed.

Lemma cachedResultFor_keys
    (tag : DateKey) (cachedIntervals : list Interval.t) (ab bis : option TimeOfDay.t) :
  Assoc.keys (cachedResultFor tag cachedIntervals ab bis) = [tag].
Proof.
  unfold cachedResultFor. destruct (filterByTime _ ab bis); reflexivity.
Qed.

















(** C8: the batch of the three days from 30 July 2025 in which the call of
    the second day is answered with HTTP 429 on every attempt. The limiter
    starts that call again and again and never settles it, after any number
    of attempts; [getBestPrice] of the second day therefore never returns,
    the sequential loop never reaches the third day and the handler sends no
    results object at all. Had the call been given up and rejected with the
    429 error, the handler would have answered with the three days, the
    second one as a [Fetch Error] placeholder. *)
Theorem day_that_stays_rate_limited_blocks_the_batch :
  (forall attempts,
     exists w,
       RateLimiter.run RateLimiter.initialWorld (LimiterDefs.always429 attempts) = Some w /\
       List.length (RateLimiter.startLog w) = S attempts /\
       RateLimiter.settledLog w = []) /\
  POST (BatchScenario.body (VBool true)) (Some BatchScenario.berlin) (Some BatchScenario.hamburg)
    (fun _ => 0) (BatchScenario.envWith NeverSettles) [] = NoReply /\
  exists results status cache',
    POST (BatchScenario.body (VBool true)) (Some BatchScenario.berlin) (Some BatchScenario.hamburg)
      (fun _ => 0)
      (BatchScenario.envWith
         (Settles (Rejected (ThrownError "HTTP 429: Too Many Requests")))) []
      = Results results status cache' /\
    Assoc.keys results = [(2025, 7, 30); (2025, 7, 31); (2025, 8, 1)] /\
    Assoc.get DateKey_eq_dec (2025, 7, 31) results
      = Some {| TrainResult.preis := 0;
                TrainResult.info := "Fetch Error: HTTP 429: Too Many Requests";
                TrainResult.abfahrtsZeitpunkt := "";
                TrainResult.ankunftsZeitpunkt := "";
                TrainResult.allIntervals := None |}.
Proof.
  split; [| split].
  - intros attempts.
    destruct (RateLimiterFacts.always429_awaitingRetry attempts)
      as (w & Hrun & _ & _ & _ & _ & Hsettled & Hstarts & _).
    exists w. split; [exact Hrun |]. split; [exact Hstarts | exact Hsettled].
  - vm_compute. reflexivity.
  - eexists _, _, _. split; [vm_compute; reflexivity |].
    split; vm_compute; reflexivity.
Qed.

(** With flags that arrive as booleans the probe and [getBestPrice] build
    the same key. *)
Lemma probe_key_agrees_for_boolean_flags
    (body : Body.t) (s z : Station) (d : LocalDate.t) (b1 b2 : bool) :
  Body.schnelleVerbindungen body = VBool b1 ->
  Body.nurDeutschlandTicketVerbindungen body = VBool b2 ->
  probeKey body s z d = cacheKeyOf (configFor body s z d).
Proof.
  intros H1 H2. unfold probeKey, cacheKeyOf, configFor. cbn. rewrite H1, H2.
  destruct b1, b2; reflexivity.
Qed.

(** With the flag as the string ["1"] or ["true"] they never do, whatever
    the rest of the request. *)
Lemma probe_key_disagrees_for_string_flags
    (body : Body.t) (s z : Station) (d : LocalDate.t) :
  Body.schnelleVerbindungen body = VString "1" \/
  Body.schnelleVerbindungen body = VString "true" ->
  probeKey body s z d <> cacheKeyOf (configFor body s z d).
Proof.
  intros H Heq. apply (f_equal KeyParams.schnelleVerbindungen) in Heq.
  unfold probeKey, cacheKeyOf, configFor in Heq. cbn in Heq.
  destruct H as [H | H]; rewrite H in Heq; discriminate Heq.
Qed.

(** C7: the claim asks for the same key from the probe and from
    [getBestPrice] in every representation of a flag. Evaluated on the fast-
    connection flag: the keys agree for the boolean [true]; for the string
    ["1"] the probe normalizes to [false] and the call to [true]; for the
    string ["true"] the probe normalizes to [true] and the call to [false]. *)
Theorem probe_key_differs_for_string_flags :
  let d := BatchScenario.juli30 in
  let probeKeyFor := fun flag =>
    probeKey (BatchScenario.body flag) BatchScenario.berlin BatchScenario.hamburg d in
  let priceKeyFor := fun flag =>
    cacheKeyOf (configFor (BatchScenario.body flag) BatchScenario.berlin BatchScenario.hamburg d) in
  probeKeyFor (VBool true) = priceKeyFor (VBool true) /\
  KeyParams.schnelleVerbindungen (probeKeyFor (VString "1")) = false /\
  KeyParams.schnelleVerbindungen (priceKeyFor (VString "1")) = true /\
  probeKeyFor (VString "1") <> priceKeyFor (VString "1") /\
  KeyParams.schnelleVerbindungen (probeKeyFor (VString "true")) = true /\
  KeyParams.schnelleVerbindungen (priceKeyFor (VString "true")) = false /\
  probeKeyFor (VString "true") <> priceKeyFor (VString "true").
Proof.
  cbv zeta. repeat split; try reflexivity; intros H; discriminate H.
Qed.




(** [Number.parseInt] skips a no-break space before the digits, and reads
    the first digit of a Number printed in exponent notation. *)
Example Number_parseInt_examples :
  Number_parseInt (VString (String (ascii_of_nat 194) (String (ascii_of_nat 160) "5")))
    = Finite 5 /\
  Number_parseInt (VNumber (10 ^ 21)) = Finite 1 /\
  Number_parseInt (VNumber (nearestDouble (2 * 10 ^ 23))) = Finite 2 /\
  Number_parseInt (VString " 12 Tage") = Finite 12 /\
  Number_parseInt (VString "0x1f") = Finite 31 /\
  Number_parseInt (VString "drei") = NaN.
Proof. repeat split; vm_compute; reflexivity. Qed.


(** X24: a day limit that does not read as a number makes [maxDays] NaN and
    both loops run zero times: the handler answers with no day at all and
    leaves the cache unchanged. *)
Theorem unreadable_day_limit_searches_no_day
    (body : Body.t) (startStation zielStation : Station)
    (probeTime : nat -> Z) (env : nat -> DayEnv) (cache : ResultCache.Cache) :
  truthy (Body.start body) = true -> truthy (Body.ziel body) = true ->
  Number_parseInt (or_else (Body.dayLimit body) (VString "3")) = NaN ->
  POST body (Some startStation) (Some zielStation) probeTime env cache = Results [] [] cache.
Proof.
  intros Hstart Hziel Hnan. unfold POST, dayStatusList, maxDays.
  rewrite Hstart, Hziel, Hnan. reflexivity.
Qed.

Lemma unreadable_day_limit_witness :
  POST (BatchScenario.bodyFor (VString "drei")) (Some BatchScenario.berlin)
    (Some BatchScenario.hamburg) (fun _ => 0) BatchScenario.env []
    = Results [] [] [].
Proof.
  exact (unreadable_day_limit_searches_no_day (BatchScenario.bodyFor (VString "drei"))
           BatchScenario.berlin BatchScenario.hamburg (fun _ => 0) BatchScenario.env []
           eq_refl eq_refl eq_refl).
Defined.



(** X26: with both flags sent as booleans, the cache-status probe predicts
    the call: it reports a day as cached exactly when [getBestPrice], at the
    same time and on the same cache, answers without an upstream call
    (entries whose data is null apart). *)
Theorem probe_predicts_whether_upstream_is_asked
    (body : Body.t) (startStation zielStation : Station) (day : LocalDate.t)
    (now : Z) (api : Settled ApiResponse) (storeTime : Z) (cache : ResultCache.Cache)
    (b1 b2 : bool) :
  Body.schnelleVerbindungen body = VBool b1 ->
  Body.nurDeutschlandTicketVerbindungen body = VBool b2 ->
  (forall entry,
     ResultCache.get (probeKey body startStation zielStation day) cache = Some entry ->
     ResultCache.data entry <> None) ->
  probe now (probeKey body startStation zielStation day) cache =
    negb (wasApiCall
            (getBestPrice (configFor body startStation zielStation day) now api storeTime
               cache)).
Proof.
  intros H1 H2 Hdata.
  rewrite (probe_key_agrees_for_boolean_flags body startStation zielStation day b1 b2 H1 H2)
    in *.
  set (config := configFor body startStation zielStation day) in *.
  unfold probe.
  destruct (ResultCache.get (cacheKeyOf config) cache) as [entry |] eqn:Hget.
  - destruct (now - ResultCache.timestamp entry <=? ResultCache.ttl entry) eqn:E.
    + destruct (ResultCache.data entry) as [cached |] eqn:Hd;
        [| exfalso; exact (Hdata entry eq_refl Hd)].
      assert (Hhit : fst (ResultCache.getCachedResult now (cacheKeyOf config) cache)
                     = Some cached).
      { unfold ResultCache.getCachedResult. rewrite Hget.
        rewrite Z.gtb_ltb. apply Z.leb_le in E.
        destruct (_ <? _) eqn:E'; [apply Z.ltb_lt in E'; lia | exact Hd]. }
      rewrite (proj1 (PricesFacts.getBestPrice_hit config now cache cached Hhit api storeTime api
                        storeTime)).
      reflexivity.
    + rewrite PricesFacts.getBestPrice_miss_wasApiCall; [reflexivity |].
      unfold ResultCache.getCachedResult. rewrite Hget.
      rewrite Z.gtb_ltb. apply Z.leb_gt in E.
      destruct (_ <? _) eqn:E'; [reflexivity | apply Z.ltb_ge in E'; lia].
  - rewrite PricesFacts.getBestPrice_miss_wasApiCall; [reflexivity |].
    unfold ResultCache.getCachedResult. rewrite Hget. reflexivity.
Qed.

Lemma probe_predicts_witness :
  probe 200
    (probeKey (BatchScenario.body (VBool true)) BatchScenario.berlin BatchScenario.hamburg
       (Config.anfrageDatum (PriceScenario.config None None)))
    PriceScenario.cacheAfterFirstCall = true.
Proof.
  rewrite (probe_predicts_whether_upstream_is_asked
             (BatchScenario.body (VBool true)) BatchScenario.berlin BatchScenario.hamburg
             (Config.anfrageDatum (PriceScenario.config None None))
             200 (Rejected (ThrownError "fetch failed")) 300
             PriceScenario.cacheAfterFirstCall true false eq_refl eq_refl).
  - reflexivity.
  - intros entry Hget. vm_compute in Hget. injection Hget as <-. discriminate.
Defined.

Lemma matchTimestamp_no_prefix (s : string) :
  String.prefix "@p=" s = false -> matchTimestamp s = None.
Proof. intros H. unfold matchTimestamp. rewrite H. reflexivity. Qed.

Lemma replaceTimestamps_no_match (c : ascii) (rest : string) :
  String.prefix "@p=" (String c rest) = false ->
  replaceTimestamps 0 (String c rest) = String c (replaceTimestamps 0 rest).
Proof.
  intros H. cbn [replaceTimestamps]. rewrite (matchTimestamp_no_prefix _ H). reflexivity.
Qed.

(** X27: an id in which the text [@p=] does not occur is its own normalized
    id. *)
Theorem id_without_timestamp_marker_is_its_own_normal_form (originalId : string) :
  includes "@p=" originalId = false -> normalizeId originalId = originalId.
Proof.
  unfold normalizeId. induction originalId as [| c rest IH]; [reflexivity |].
  cbn [includes]. intros H. apply orb_false_iff in H. destruct H as [Hprefix Hrest].
  rewrite (replaceTimestamps_no_match c rest Hprefix), (IH Hrest). reflexivity.
Qed.

Lemma id_without_timestamp_witness :
  normalizeId "A=1@O=Berlin Hbf@L=8011160@" = "A=1@O=Berlin Hbf@L=8011160@".
Proof.
  exact (id_without_timestamp_marker_is_its_own_normal_form
           "A=1@O=Berlin Hbf@L=8011160@" eq_refl).
Defined.

Lemma prefix_marker_before_at (pre rest : string) :
  pre <> "" ->
  String.prefix "@p=" (pre ++ String "@" rest) = String.prefix "@p=" pre.
Proof.
  intros Hne.
  destruct pre as [| c1 [| c2 [| c3 pre]]]; [contradiction | | |];
    cbn [String.prefix append].
  - destruct (ascii_dec "@" c1); reflexivity.
  - destruct (ascii_dec "@" c1); [| reflexivity].
    destruct (ascii_dec "p" c2); reflexivity.
  - destruct (ascii_dec "@" c1); [| reflexivity].
    destruct (ascii_dec "p" c2); [| reflexivity].
    destruct (ascii_dec "=" c3); [| reflexivity].
    destruct pre; reflexivity.
Qed.

Lemma replaceTimestamps_before_marker (pre rest : string) :
  includes "@p=" pre = false ->
  replaceTimestamps 0 (pre ++ String "@" rest) =
    pre ++ replaceTimestamps 0 (String "@" rest).
Proof.
  induction pre as [| c pre IH]; [reflexivity |].
  cbn [includes]. intros H. apply orb_false_iff in H. destruct H as [Hprefix Hrest].
  change ((String c pre) ++ String "@" rest) with (String c (pre ++ String "@" rest)).
  rewrite replaceTimestamps_no_match.
  - rewrite (IH Hrest). reflexivity.
  - change (String c (pre ++ String "@" rest)) with ((String c pre) ++ String "@" rest).
    rewrite prefix_marker_before_at; [exact Hprefix | discriminate].
Qed.

Lemma countDigits_before_at (digits rest : string) :
  countDigits digits = String.length digits ->
  countDigits (digits ++ String "@" rest) = String.length digits.
Proof.
  induction digits as [| c digits IH]; [reflexivity |].
  cbn [countDigits String.length append]. destruct (isDigit c); [| discriminate].
  intros H. injection H as H. rewrite (IH H). reflexivity.
Qed.

Lemma drop_length_app (a b : string) : Prices.drop (String.length a) (a ++ b) = b.
Proof.
  induction a as [| c a IH]; [destruct b; reflexivity | exact IH].
Qed.

Lemma matchTimestamp_marker (digits rest : string) :
  digits <> "" -> countDigits digits = String.length digits ->
  matchTimestamp ("@p=" ++ digits ++ String "@" rest) = Some (3 + String.length digits + 1)%nat.
Proof.
  intros Hne Hdigits. unfold matchTimestamp.
  change ("@p=" ++ digits ++ String "@" rest)
    with (String "@" (String "p" (String "=" (digits ++ String "@" rest)))).
  cbn [String.prefix Prices.drop].
  destruct (ascii_dec "@" "@") as [_ | H]; [| contradiction].
  destruct (ascii_dec "p" "p") as [_ | H]; [| contradiction].
  destruct (ascii_dec "=" "=") as [_ | H]; [| contradiction].
  assert (Hp : String.prefix "" (digits ++ String "@" rest) = true)
    by (destruct (digits ++ String "@" rest); reflexivity).
  rewrite Hp. cbv zeta. rewrite (countDigits_before_at digits rest Hdigits).
  destruct digits as [| d digits]; [contradiction |].
  cbn [String.length append]. rewrite drop_length_app. reflexivity.
Qed.

Lemma replaceTimestamps_skip_digits (digits post : string) :
  replaceTimestamps (S (String.length digits)) (digits ++ String "@" post)
    = replaceTimestamps 0 post.
Proof.
  induction digits as [| c digits IH]; [reflexivity | exact IH].
Qed.

(** X28: the normalization cuts the timestamp parameter out of the id:
    [@p=], digits and [@] become [@] when no [@p=] occurs before them, and
    the rest of the id is normalized in the same way. The result does not
    mention the digits, so ids that differ only in the timestamp have the
    same normalized id. *)
Theorem timestamp_parameter_is_cut_out_of_the_id (pre digits post : string) :
  includes "@p=" pre = false ->
  digits <> "" -> countDigits digits = String.length digits ->
  normalizeId (pre ++ "@p=" ++ digits ++ "@" ++ post) = pre ++ "@" ++ normalizeId post.
Proof.
  intros Hpre Hne Hdigits. unfold normalizeId.
  change ("@p=" ++ digits ++ "@" ++ post)
    with (String "@" ("p=" ++ digits ++ String "@" post)).
  rewrite (replaceTimestamps_before_marker pre _ Hpre). f_equal.
  cbn [replaceTimestamps].
  change (String "@" ("p=" ++ digits ++ String "@" post))
    with ("@p=" ++ digits ++ String "@" post).
  rewrite (matchTimestamp_marker digits post Hne Hdigits).
  change ("@" ++ replaceTimestamps 0 post) with (String "@" (replaceTimestamps 0 post)).
  f_equal.
  replace (3 + String.length digits + 1 - 1)%nat with (S (S (S (String.length digits))))
    by lia.
  change ("p=" ++ digits ++ String "@" post)
    with (String "p" (String "=" (digits ++ String "@" post))).
  cbn [replaceTimestamps]. apply replaceTimestamps_skip_digits.
Qed.

Lemma timestamp_parameter_witness :
  normalizeId "A=1@O=Berlin Hbf@L=8011160@p=1748982040@" = "A=1@O=Berlin Hbf@L=8011160@".
Proof.
  exact (timestamp_parameter_is_cut_out_of_the_id
           "A=1@O=Berlin Hbf@L=8011160" "1748982040" ""
           eq_refl (fun H => match H with eq_refl => I end) eq_refl).
Defined.

End HandlerFacts.
